(** * Asana sales-pilot export: the normalisation, alias-resolution and
      financial-derivation pipeline

    A shallow embedding of [asana_sales_pilot_export_v5_pivots_single_sheet.py].

    - A Python [str] is a list of Unicode code points ([list N]).
    - A Python [float] is a binary64 number ([PrimFloat.float]); a JSON
      number is taken as the [float] it denotes. An integer too large for
      binary64, on which [float] raises [OverflowError], is not among the
      inputs of the model.
    - A [dict] is a [gmap], a [set] a [gset].
    - A raised exception is a value of [result].
    - The interpreter's Unicode tables, the permissive date parser of
      [dateutil] and the task source enter as parameters. The pipeline
      takes the two regular-expression miners as parameters too; [Miners]
      defines them, on a matcher for the patterns they use. *)

From Stdlib Require Import ZArith NArith List Bool Ascii String Floats Lia.
From Stdlib Require DecimalString Permutation FunctionalExtensionality.
From stdpp Require Import base option list countable gmap.

Local Open Scope N_scope.
Local Open Scope list_scope.

(** ** Python strings *)

Abbreviation ustring := (list N).

(** An ASCII literal as a Python string. *)
Definition lit (s : string) : ustring :=
  List.map N_of_ascii (list_ascii_of_string s).

Definition is_nil {A} (l : list A) : bool :=
  match l with [] => true | _ => false end.

(** [p == s] on strings. *)
Definition str_eqb (p s : ustring) : bool := bool_decide (p = s).

(** [s.startswith(p)]. *)
Fixpoint startswith (p s : ustring) : bool :=
  match p, s with
  | [], _ => true
  | _ :: _, [] => false
  | a :: p', b :: s' => (a =? b) && startswith p' s'
  end.

(** [p in s]: [p] occurs in [s] as a contiguous substring. *)
Fixpoint contains (p s : ustring) : bool :=
  startswith p s ||
  match s with
  | [] => false
  | _ :: s' => contains p s'
  end.

(** [s.replace(c, r)] for a one-character [c]. *)
Definition replace_char (c : N) (r : ustring) (s : ustring) : ustring :=
  flat_map (fun x => if x =? c then r else [x]) s.

(** [s.split(c, 1)[0]]: the text before the first [c]. *)
Fixpoint before_first (c : N) (s : ustring) : ustring :=
  match s with
  | [] => []
  | x :: s' => if x =? c then [] else x :: before_first c s'
  end.

Fixpoint lstrip_by (f : N -> bool) (s : ustring) : ustring :=
  match s with
  | [] => []
  | x :: s' => if f x then lstrip_by f s' else s
  end.

Definition rstrip_by (f : N -> bool) (s : ustring) : ustring :=
  rev (lstrip_by f (rev s)).

Definition strip_by (f : N -> bool) (s : ustring) : ustring :=
  rstrip_by f (lstrip_by f s).

(** [s.strip(chars)]. *)
Definition strip_chars (chars : ustring) (s : ustring) : ustring :=
  strip_by (fun x => existsb (N.eqb x) chars) s.

(** ** The Unicode character database

    What [unicodedata] and the [str] methods read from the interpreter's
    tables. *)
Class UnicodeData := {
  (** full canonical decomposition of a code point ([[c]] when it has none) *)
  canonical_decomposition : N -> list N;
  (** [unicodedata.combining]: the canonical combining class *)
  combining : N -> N;
  (** [unicodedata.category(ch) == "Mn"] *)
  is_Mn : N -> bool;
  (** full upper-case mapping of a code point *)
  to_upper_full : N -> list N;
  (** [str.lower] *)
  str_lower : list N -> list N;
  (** [str.isspace] on a code point *)
  is_space : N -> bool;
  (** the decimal-digit value of a code point of category Nd *)
  to_decimal : N -> option N;
}.

(** ** Laws of the database

    Two facts of the Unicode character database that the normaliser relies
    on: a canonical decomposition is complete, and upper-casing a code point
    that has no decomposition and is not a non-spacing mark gives code points
    that have no decomposition, are not non-spacing marks, are their own
    upper case, and keep combining class zero. *)
Class UnicodeLaws `{UnicodeData} : Prop := {
  decomposition_complete : forall c d,
    In d (canonical_decomposition c) -> canonical_decomposition d = [d];
  upper_settled : forall c u,
    is_Mn c = false -> canonical_decomposition c = [c] ->
    In u (to_upper_full c) ->
    canonical_decomposition u = [u]
    /\ is_Mn u = false
    /\ to_upper_full u = [u]
    /\ (combining c = 0 -> combining u = 0);
}.

Section Unicode.
Context `{UnicodeData}.

(** [unicodedata.normalize("NFD", s)]: every code point is replaced by its
    canonical decomposition, then every maximal run of code points of
    non-zero combining class is sorted by class, keeping the order of
    equal classes. *)
Fixpoint insert_mark (c : N) (run : list N) : list N :=
  match run with
  | [] => [c]
  | d :: run' =>
      if combining d <=? combining c then d :: insert_mark c run'
      else c :: run
  end.

Fixpoint canonical_order (run s : list N) : list N :=
  match s with
  | [] => run
  | c :: s' =>
      if combining c =? 0 then run ++ c :: canonical_order [] s'
      else canonical_order (insert_mark c run) s'
  end.

Definition nfd (s : ustring) : ustring :=
  canonical_order [] (flat_map canonical_decomposition s).

(** [s.upper()]. *)
Definition upper (s : ustring) : ustring := flat_map to_upper_full s.

(** [s.strip()]. *)
Definition strip (s : ustring) : ustring := strip_by is_space s.

(** [s.split()]: the maximal runs of non-space code points. *)
Fixpoint split_from (cur : list N) (s : ustring) : list ustring :=
  match s with
  | [] => if is_nil cur then [] else [rev cur]
  | c :: s' =>
      if is_space c
      then (if is_nil cur then split_from [] s' else rev cur :: split_from [] s')
      else split_from (c :: cur) s'
  end.

Definition split (s : ustring) : list ustring := split_from [] s.

(** *** [normalize_upper] *)
Definition normalize_upper (s : option ustring) : ustring :=
  match s with
  | None => []
  | Some s =>
      if is_nil s then []
      else
        let n := nfd s in
        let n := List.filter (fun ch => negb (is_Mn ch)) n in
        strip (upper n)
  end.

(** *** [_alias_hit] *)
Definition _alias_hit (field_name_norm : ustring) (alias_set : gset (list N)) : bool :=
  bool_decide (field_name_norm ∈ alias_set)
  || existsb (fun a => contains a field_name_norm) (elements alias_set).

End Unicode.

(** ** An excerpt of the Unicode character database

    The tables of Unicode 14 for Basic Latin, the Latin-1 Supplement
    (U+0000..U+00FF), the Combining Diacritical Marks (U+0300..U+036F) and
    the musical combining marks U+1D165..U+1D172, and the complete list of
    white-space code points. Any other code point is taken without
    decomposition, combining class or case mapping. *)
Module Excerpt.

Fixpoint assoc {A} (c : N) (t : list (N * A)) : option A :=
  match t with
  | [] => None
  | (k, v) :: t' => if k =? c then Some v else assoc c t'
  end.

Definition in_range (lo hi c : N) : bool := (lo <=? c) && (c <=? hi).

Definition decomposition_table : list (N * list N) :=
  [ (192, [65; 768]); (193, [65; 769]); (194, [65; 770]); (195, [65; 771]);
    (196, [65; 776]); (197, [65; 778]); (199, [67; 807]); (200, [69; 768]);
    (201, [69; 769]); (202, [69; 770]); (203, [69; 776]); (204, [73; 768]);
    (205, [73; 769]); (206, [73; 770]); (207, [73; 776]); (209, [78; 771]);
    (210, [79; 768]); (211, [79; 769]); (212, [79; 770]); (213, [79; 771]);
    (214, [79; 776]); (217, [85; 768]); (218, [85; 769]); (219, [85; 770]);
    (220, [85; 776]); (221, [89; 769]); (224, [97; 768]); (225, [97; 769]);
    (226, [97; 770]); (227, [97; 771]); (228, [97; 776]); (229, [97; 778]);
    (231, [99; 807]); (232, [101; 768]); (233, [101; 769]); (234, [101; 770]);
    (235, [101; 776]); (236, [105; 768]); (237, [105; 769]); (238, [105; 770]);
    (239, [105; 776]); (241, [110; 771]); (242, [111; 768]); (243, [111; 769]);
    (244, [111; 770]); (245, [111; 771]); (246, [111; 776]); (249, [117; 768]);
    (250, [117; 769]); (251, [117; 770]); (252, [117; 776]); (253, [121; 769]);
    (255, [121; 776]); (832, [768]); (833, [769]); (835, [787]);
    (836, [776; 769]) ].

(** (first, last, class) for the code points of non-zero combining class. *)
Definition combining_table : list (N * N * N) :=
  [ (0x300, 0x314, 230); (0x315, 0x315, 232); (0x316, 0x319, 220);
    (0x31a, 0x31a, 232); (0x31b, 0x31b, 216); (0x31c, 0x320, 220);
    (0x321, 0x322, 202); (0x323, 0x326, 220); (0x327, 0x328, 202);
    (0x329, 0x333, 220); (0x334, 0x338, 1); (0x339, 0x33c, 220);
    (0x33d, 0x344, 230); (0x345, 0x345, 240); (0x346, 0x346, 230);
    (0x347, 0x349, 220); (0x34a, 0x34c, 230); (0x34d, 0x34e, 220);
    (0x350, 0x352, 230); (0x353, 0x356, 220); (0x357, 0x357, 230);
    (0x358, 0x358, 232); (0x359, 0x35a, 220); (0x35b, 0x35b, 230);
    (0x35c, 0x35c, 233); (0x35d, 0x35e, 234); (0x35f, 0x35f, 233);
    (0x360, 0x361, 234); (0x362, 0x362, 233); (0x363, 0x36f, 230);
    (0x1d165, 0x1d166, 216); (0x1d167, 0x1d169, 1); (0x1d16d, 0x1d16d, 226);
    (0x1d16e, 0x1d172, 216) ].

Fixpoint class_in (t : list (N * N * N)) (c : N) : N :=
  match t with
  | [] => 0
  | (lo, hi, k) :: t' => if in_range lo hi c then k else class_in t' c
  end.

Definition decomposition (c : N) : list N :=
  match assoc c decomposition_table with
  | Some l => l
  | None => [c]
  end.

Definition mark_nonspacing (c : N) : bool :=
  in_range 0x300 0x36f c || in_range 0x1d167 0x1d169 c.

Definition upper_of (c : N) : list N :=
  if in_range 0x61 0x7a c then [c - 32]
  else if c =? 0xb5 then [0x39c]
  else if c =? 0xdf then [0x53; 0x53]
  else if in_range 0xe0 0xfe c && negb (c =? 0xf7) then [c - 32]
  else if c =? 0xff then [0x178]
  else if c =? 0x345 then [0x399]
  else [c].

Definition lower_of (c : N) : N :=
  if in_range 0x41 0x5a c then c + 32
  else if in_range 0xc0 0xde c && negb (c =? 0xd7) then c + 32
  else c.

Definition space (c : N) : bool :=
  in_range 0x9 0xd c || in_range 0x1c 0x20 c || (c =? 0x85) || (c =? 0xa0)
  || (c =? 0x1680) || in_range 0x2000 0x200a c || in_range 0x2028 0x2029 c
  || (c =? 0x202f) || (c =? 0x205f) || (c =? 0x3000).

Definition decimal (c : N) : option N :=
  if in_range 0x30 0x39 c then Some (c - 0x30) else None.

(** The two laws at one code point, as a test. *)
Definition list_eqb (a b : list N) : bool := bool_decide (a = b).

Definition law_check (c : N) : bool :=
  forallb (fun d => list_eqb (decomposition d) [d]) (decomposition c)
  && (if negb (mark_nonspacing c) && list_eqb (decomposition c) [c]
      then forallb
             (fun u =>
                list_eqb (decomposition u) [u]
                && negb (mark_nonspacing u)
                && list_eqb (upper_of u) [u]
                && implb (class_in combining_table c =? 0)
                         (class_in combining_table u =? 0))
             (upper_of c)
      else true).

(** [P] holds of every number below [n]. *)
Definition all_below (P : N -> bool) (n : N) : bool :=
  snd (N.iter n (fun '(i, ok) => (N.succ i, ok && P i)) (0, true)).

(** The blocks of the tables: U+0000..U+00FF, U+0300..U+036F and
    U+1D165..U+1D172. *)
Definition latin_end : N := 0x100.
Definition marks_start : N := 0x300.
Definition marks_end : N := 0x370.
Definition music_start : N := 0x1d165.
Definition music_end : N := 0x1d173.

(** A code point outside these blocks. *)
Definition untabled (c : N) : bool :=
  ((latin_end <=? c) && (c <? marks_start))
  || ((marks_end <=? c) && (c <? music_start))
  || (music_end <=? c).

#[export] Instance data : UnicodeData := {|
  canonical_decomposition := decomposition;
  combining := class_in combining_table;
  is_Mn := mark_nonspacing;
  to_upper_full := upper_of;
  str_lower := List.map lower_of;
  is_space := space;
  to_decimal := decimal;
|}.

End Excerpt.

(** ** Python numbers *)

(** [float(s)] for a string: [None] when [ValueError] is raised.

    The text is first brought to ASCII (a decimal digit of any script becomes
    its ASCII digit, a non-ASCII space a blank, the first other non-ASCII code
    point a question mark that ends the text); underscores may stand between
    two digits; ASCII white space is stripped at both ends; what is left is an
    optional sign followed by [inf], [infinity] or [nan] in any case, or by
    a decimal numeral with an optional fraction and exponent, rounded to the
    nearest binary64 number. *)
Section PyFloat.
Context `{UnicodeData}.

Fixpoint to_ascii (s : ustring) : list N :=
  match s with
  | [] => []
  | ch :: s' =>
      if ch <? 127 then ch :: to_ascii s'
      else if is_space ch then 32 :: to_ascii s'
      else match to_decimal ch with
           | Some d => (48 + d) :: to_ascii s'
           | None => [63]
           end
  end.

Definition is_ascii_digit (c : N) : bool := (48 <=? c) && (c <=? 57).
Definition is_ascii_space (c : N) : bool := ((9 <=? c) && (c <=? 13)) || (c =? 32).

(** Drops the underscores; [None] when one does not stand between digits. *)
Fixpoint drop_underscores (prev : N) (s : list N) : option (list N) :=
  match s with
  | [] => if prev =? 95 then None else Some []
  | c :: s' =>
      if c =? 95 then
        if is_ascii_digit prev then drop_underscores c s' else None
      else if (prev =? 95) && negb (is_ascii_digit c) then None
      else option_map (cons c) (drop_underscores c s')
  end.

Fixpoint span_digits (s : list N) : list N * list N :=
  match s with
  | c :: s' =>
      if is_ascii_digit c
      then let '(d, r) := span_digits s' in (c :: d, r)
      else ([], s)
  | [] => ([], [])
  end.

Definition digits_value (d : list N) : N :=
  fold_left (fun acc c => 10 * acc + (c - 48)) d 0.

(** The binary64 number nearest to [num / den]. *)
Definition round_ratio (neg : bool) (num den : positive) : spec_float :=
  let '(q, e, l) := SFdiv_core_binary prec emax (Zpos num) 0 (Zpos den) 0 in
  binary_round_aux prec emax neg q e l.

(** The binary64 number nearest to [m * 10 ^ e10]. *)
Definition decimal_to_float (neg : bool) (m : N) (e10 : Z) : float :=
  match m with
  | 0 => if neg then neg_zero else zero
  | Npos p =>
      SF2Prim
        match e10 with
        | Zneg k => round_ratio neg p (10 ^ k)%positive
        | _ => binary_round prec emax neg (p * Z.to_pos (10 ^ e10))%positive 0
        end
  end.

Definition lower_ascii (c : N) : N :=
  if (65 <=? c) && (c <=? 90) then c + 32 else c.

(** [inf], [infinity] or [nan], in any case. *)
Definition parse_inf_or_nan (neg : bool) (s : list N) : option float :=
  let w := List.map lower_ascii s in
  if str_eqb w (lit "inf") || str_eqb w (lit "infinity")
  then Some (if neg then neg_infinity else infinity)
  else if str_eqb w (lit "nan") then Some nan
  else None.

(** The exponent part: empty, or [e] or [E], an optional sign and digits. *)
Definition parse_exponent (s : list N) : option Z :=
  match s with
  | [] => Some 0%Z
  | c :: s' =>
      if (c =? 101) || (c =? 69) then
        let '(eneg, s'') :=
          match s' with
          | 45 :: r => (true, r)
          | 43 :: r => (false, r)
          | _ => (false, s')
          end in
        let '(d, r) := span_digits s'' in
        if is_nil d || negb (is_nil r) then None
        else Some (if eneg then - Z.of_N (digits_value d) else Z.of_N (digits_value d))%Z
      else None
  end.

Definition parse_decimal (neg : bool) (s : list N) : option float :=
  let '(ip, r) := span_digits s in
  let '(fp, r) :=
    match r with
    | 46 :: r' => span_digits r'
    | _ => ([], r)
    end in
  if is_nil ip && is_nil fp then None
  else
    match parse_exponent r with
    | Some e =>
        Some (decimal_to_float neg (digits_value (ip ++ fp))
                (e - Z.of_nat (length fp))%Z)
    | None => None
    end.

Definition parse_signed (s : list N) : option float :=
  let '(neg, r) :=
    match s with
    | 45 :: r => (true, r)
    | 43 :: r => (false, r)
    | _ => (false, s)
    end in
  match parse_decimal neg r with
  | Some x => Some x
  | None => parse_inf_or_nan neg r
  end.

Definition py_float (s : ustring) : option float :=
  match drop_underscores 0 (to_ascii s) with
  | None => None
  | Some a =>
      let a := strip_by is_ascii_space a in
      if is_nil a then None else parse_signed a
  end.

End PyFloat.

(** ** Dates *)

(** A calendar date, as [datetime.date] holds it (year 1 to 9999). *)
Record date := Date { year : N; month : N; day : N }.

(** [a < b] on dates. *)
Definition date_ltb (a b : date) : bool :=
  (year a <? year b)
  || ((year a =? year b)
      && ((month a <? month b)
          || ((month a =? month b) && (day a <? day b)))).

Definition two_digits (n : N) : ustring :=
  [48 + (n / 10) mod 10; 48 + n mod 10].

Definition four_digits (n : N) : ustring :=
  two_digits (n / 100) ++ two_digits n.

Definition letter_T : N := 84.
Definition slash : N := 47.
Definition hyphen : N := 45.

(** [d.strftime("%m/%d/%Y")], with the year in four digits. Every platform
    writes the years from 1000 on in this way. An earlier year is written
    by the C library of the platform, which may leave the zeros out (glibc
    writes 99 for the year 99); what is stated below about the text of a
    date is stated for the years from 1000 on. *)
Definition strftime_mdY (d : date) : ustring :=
  two_digits (month d) ++ slash :: two_digits (day d) ++ slash :: four_digits (year d).

(** [d.strftime("%Y-%m")], with the year in four digits, as [strftime_mdY]
    has it. *)
Definition strftime_Ym (d : date) : ustring :=
  four_digits (year d) ++ hyphen :: two_digits (month d).

Definition is_leap (y : N) : bool :=
  (y mod 4 =? 0) && (negb (y mod 100 =? 0) || (y mod 400 =? 0)).

Definition days_in_month (y m : N) : N :=
  if m =? 2 then (if is_leap y then 29 else 28)
  else if (m =? 4) || (m =? 6) || (m =? 9) || (m =? 11) then 30
  else 31.

(** The constructor of [datetime.date]: [None] when it raises [ValueError]. *)
Definition make_date (y m d : N) : option date :=
  if (1 <=? y) && (y <=? 9999) && (1 <=? m) && (m <=? 12)
     && (1 <=? d) && (d <=? days_in_month y m)
  then Some (Date y m d) else None.

Section Strptime.
Context `{UnicodeData}.

Definition in_ascii (lo hi c : N) : bool := (lo <=? c) && (c <=? hi).

(** The group [%m]: [1[0-2]|0[1-9]|[1-9]], the first alternative that matches. *)
Definition match_month (s : ustring) : option (N * ustring) :=
  match s with
  | 49 :: c :: r =>
      if in_ascii 48 50 c then Some (10 + (c - 48), r) else Some (1, c :: r)
  | 48 :: c :: r =>
      if in_ascii 49 57 c then Some (c - 48, r) else None
  | c :: r => if in_ascii 49 57 c then Some (c - 48, r) else None
  | [] => None
  end.

(** The group [%d]: [3[0-1]|[1-2]\d|0[1-9]|[1-9]| [1-9]]. *)
Definition match_day (s : ustring) : option (N * ustring) :=
  let one :=
    match s with
    | c :: r => if in_ascii 49 57 c then Some (c - 48, r) else None
    | [] => None
    end in
  match s with
  | a :: c :: r =>
      if (a =? 51) && in_ascii 48 49 c then Some (30 + (c - 48), r)
      else if in_ascii 49 50 a then
        match to_decimal c with
        | Some d => Some (10 * (a - 48) + d, r)
        | None => one
        end
      else if ((a =? 48) || (a =? 32)) && in_ascii 49 57 c then Some (c - 48, r)
      else one
  | _ => one
  end.

(** [datetime.strptime(s, "%Y-%m-%d")] as a date: [None] when it raises. *)
Definition strptime_Ymd (s : ustring) : option date :=
  match s with
  | y1 :: y2 :: y3 :: y4 :: sep :: r =>
      match to_decimal y1, to_decimal y2, to_decimal y3, to_decimal y4 with
      | Some a, Some b, Some c, Some d =>
          if sep =? hyphen then
            match match_month r with
            | Some (m, sep' :: r') =>
                if sep' =? hyphen then
                  match match_day r' with
                  | Some (dd, []) => make_date (1000 * a + 100 * b + 10 * c + d) m dd
                  | _ => None
                  end
                else None
            | _ => None
            end
          else None
      | _, _, _, _ => None
      end
  | _ => None
  end.

End Strptime.

(** ** Exceptions *)

Inductive exn := RuntimeError | IndexError | ApiException.

Inductive result (A : Type) :=
| Ok (a : A)
| Raise (e : exn).
Arguments Ok {A} a.
Arguments Raise {A} e.

Definition bind {A B} (r : result A) (k : A -> result B) : result B :=
  match r with
  | Ok a => k a
  | Raise e => Raise e
  end.

Notation "'do' x <- r ; k" := (bind r (fun x => k))
  (at level 10, x name, r at level 100, k at level 200).

(** ** Input records *)

(** One entry of [task["custom_fields"]]. *)
Record custom_field := {
  cf_name : option ustring;
  cf_display_value : option ustring;
  cf_enum_value : option (option ustring);   (* the option's ["name"] *)
  cf_number_value : option float;             (* a number within binary64 *)
  cf_text_value : option ustring;
}.

(** One entry of [task["memberships"]]: the project's ["gid"] and the
    section's ["name"], each under its optional parent object. *)
Record membership := {
  m_project : option (option ustring);
  m_section : option (option ustring);
}.

Record task := {
  t_gid : option ustring;
  t_name : option ustring;
  t_notes : option ustring;
  t_permalink_url : option ustring;
  t_created_at : option ustring;
  t_modified_at : option ustring;
  t_memberships : list membership;
  t_custom_fields : list custom_field;
}.

Record project := { p_gid : ustring; p_name : ustring }.

(** The dictionary [extract_fields] returns. *)
Record fields := {
  client : ustring;
  zone : ustring;
  approved_value : option float;
  invoice_date : ustring;
  paid_flag : bool;
  paid_date : ustring;
  paid_amount : option float;
  priority : ustring;
  status : ustring;
  canceled_flag : bool;
  canceled_date : ustring;
  type : ustring;
  wo_number : ustring;
  materials_cost : float;
  labor_cost : float;
}.

Definition set_client (v : ustring) (out : fields) : fields :=
  {| client := v; zone := zone out; approved_value := approved_value out; invoice_date := invoice_date out; paid_flag := paid_flag out; paid_date := paid_date out; paid_amount := paid_amount out; priority := priority out; status := status out; canceled_flag := canceled_flag out; canceled_date := canceled_date out; type := type out; wo_number := wo_number out; materials_cost := materials_cost out; labor_cost := labor_cost out |}.
Definition set_zone (v : ustring) (out : fields) : fields :=
  {| client := client out; zone := v; approved_value := approved_value out; invoice_date := invoice_date out; paid_flag := paid_flag out; paid_date := paid_date out; paid_amount := paid_amount out; priority := priority out; status := status out; canceled_flag := canceled_flag out; canceled_date := canceled_date out; type := type out; wo_number := wo_number out; materials_cost := materials_cost out; labor_cost := labor_cost out |}.
Definition set_approved_value (v : option float) (out : fields) : fields :=
  {| client := client out; zone := zone out; approved_value := v; invoice_date := invoice_date out; paid_flag := paid_flag out; paid_date := paid_date out; paid_amount := paid_amount out; priority := priority out; status := status out; canceled_flag := canceled_flag out; canceled_date := canceled_date out; type := type out; wo_number := wo_number out; materials_cost := materials_cost out; labor_cost := labor_cost out |}.
Definition set_invoice_date (v : ustring) (out : fields) : fields :=
  {| client := client out; zone := zone out; approved_value := approved_value out; invoice_date := v; paid_flag := paid_flag out; paid_date := paid_date out; paid_amount := paid_amount out; priority := priority out; status := status out; canceled_flag := canceled_flag out; canceled_date := canceled_date out; type := type out; wo_number := wo_number out; materials_cost := materials_cost out; labor_cost := labor_cost out |}.
Definition set_paid_flag (v : bool) (out : fields) : fields :=
  {| client := client out; zone := zone out; approved_value := approved_value out; invoice_date := invoice_date out; paid_flag := v; paid_date := paid_date out; paid_amount := paid_amount out; priority := priority out; status := status out; canceled_flag := canceled_flag out; canceled_date := canceled_date out; type := type out; wo_number := wo_number out; materials_cost := materials_cost out; labor_cost := labor_cost out |}.
Definition set_paid_date (v : ustring) (out : fields) : fields :=
  {| client := client out; zone := zone out; approved_value := approved_value out; invoice_date := invoice_date out; paid_flag := paid_flag out; paid_date := v; paid_amount := paid_amount out; priority := priority out; status := status out; canceled_flag := canceled_flag out; canceled_date := canceled_date out; type := type out; wo_number := wo_number out; materials_cost := materials_cost out; labor_cost := labor_cost out |}.
Definition set_paid_amount (v : option float) (out : fields) : fields :=
  {| client := client out; zone := zone out; approved_value := approved_value out; invoice_date := invoice_date out; paid_flag := paid_flag out; paid_date := paid_date out; paid_amount := v; priority := priority out; status := status out; canceled_flag := canceled_flag out; canceled_date := canceled_date out; type := type out; wo_number := wo_number out; materials_cost := materials_cost out; labor_cost := labor_cost out |}.
Definition set_priority (v : ustring) (out : fields) : fields :=
  {| client := client out; zone := zone out; approved_value := approved_value out; invoice_date := invoice_date out; paid_flag := paid_flag out; paid_date := paid_date out; paid_amount := paid_amount out; priority := v; status := status out; canceled_flag := canceled_flag out; canceled_date := canceled_date out; type := type out; wo_number := wo_number out; materials_cost := materials_cost out; labor_cost := labor_cost out |}.
Definition set_status (v : ustring) (out : fields) : fields :=
  {| client := client out; zone := zone out; approved_value := approved_value out; invoice_date := invoice_date out; paid_flag := paid_flag out; paid_date := paid_date out; paid_amount := paid_amount out; priority := priority out; status := v; canceled_flag := canceled_flag out; canceled_date := canceled_date out; type := type out; wo_number := wo_number out; materials_cost := materials_cost out; labor_cost := labor_cost out |}.
Definition set_canceled_flag (v : bool) (out : fields) : fields :=
  {| client := client out; zone := zone out; approved_value := approved_value out; invoice_date := invoice_date out; paid_flag := paid_flag out; paid_date := paid_date out; paid_amount := paid_amount out; priority := priority out; status := status out; canceled_flag := v; canceled_date := canceled_date out; type := type out; wo_number := wo_number out; materials_cost := materials_cost out; labor_cost := labor_cost out |}.
Definition set_canceled_date (v : ustring) (out : fields) : fields :=
  {| client := client out; zone := zone out; approved_value := approved_value out; invoice_date := invoice_date out; paid_flag := paid_flag out; paid_date := paid_date out; paid_amount := paid_amount out; priority := priority out; status := status out; canceled_flag := canceled_flag out; canceled_date := v; type := type out; wo_number := wo_number out; materials_cost := materials_cost out; labor_cost := labor_cost out |}.
Definition set_type (v : ustring) (out : fields) : fields :=
  {| client := client out; zone := zone out; approved_value := approved_value out; invoice_date := invoice_date out; paid_flag := paid_flag out; paid_date := paid_date out; paid_amount := paid_amount out; priority := priority out; status := status out; canceled_flag := canceled_flag out; canceled_date := canceled_date out; type := v; wo_number := wo_number out; materials_cost := materials_cost out; labor_cost := labor_cost out |}.
Definition set_wo_number (v : ustring) (out : fields) : fields :=
  {| client := client out; zone := zone out; approved_value := approved_value out; invoice_date := invoice_date out; paid_flag := paid_flag out; paid_date := paid_date out; paid_amount := paid_amount out; priority := priority out; status := status out; canceled_flag := canceled_flag out; canceled_date := canceled_date out; type := type out; wo_number := v; materials_cost := materials_cost out; labor_cost := labor_cost out |}.
Definition set_materials_cost (v : float) (out : fields) : fields :=
  {| client := client out; zone := zone out; approved_value := approved_value out; invoice_date := invoice_date out; paid_flag := paid_flag out; paid_date := paid_date out; paid_amount := paid_amount out; priority := priority out; status := status out; canceled_flag := canceled_flag out; canceled_date := canceled_date out; type := type out; wo_number := wo_number out; materials_cost := v; labor_cost := labor_cost out |}.
Definition set_labor_cost (v : float) (out : fields) : fields :=
  {| client := client out; zone := zone out; approved_value := approved_value out; invoice_date := invoice_date out; paid_flag := paid_flag out; paid_date := paid_date out; paid_amount := paid_amount out; priority := priority out; status := status out; canceled_flag := canceled_flag out; canceled_date := canceled_date out; type := type out; wo_number := wo_number out; materials_cost := materials_cost out; labor_cost := v |}.

(** One emitted row, by column. *)
Record row := {
  Project : ustring;
  Zone : ustring;
  Type_ : ustring;
  Task_GID : option ustring;
  Task_URL : option ustring;
  Num_de_orden : ustring;
  Task_Name : ustring;
  Column : ustring;
  Logical_Status : ustring;
  Client : ustring;
  Priority : ustring;
  Status_CF : ustring;
  Approved_Value : float;
  Valor_Aprobado_Real : float;
  Gasto_Materiales : float;
  Gasto_Labor : float;
  Gastos_Total : float;
  Utilidad_USD : float;
  Utilidad_Pct : float;
  Invoice_Date : ustring;
  Invoice_Month : ustring;
  Paid : bool;
  Paid_Date : ustring;
  Paid_Amount : option float;
  Created_At : ustring;
  Modified_At : ustring;
}.

(** ** Python's [or] and truth values *)

(** [bool(s)] for an optional string. *)
Definition truthy (o : option ustring) : bool :=
  match o with
  | Some (_ :: _) => true
  | _ => false
  end.

(** [a or b]. *)
Definition por (a b : option ustring) : option ustring :=
  if truthy a then a else b.

(** [a or ""]. *)
Definition or_empty (a : option ustring) : ustring := default [] a.

(** [x or 0.0] for an optional number: zero of either sign is false. *)
Definition or_zero (x : option float) : float :=
  match x with
  | Some v => if (v =? 0)%float then 0%float else v
  | None => 0%float
  end.

(** [str(x)] for an optional string. *)
Definition py_str (o : option ustring) : ustring :=
  match o with
  | Some s => s
  | None => lit "None"
  end.

(** ** Constants *)

Definition COLUMN_STATUS_MAP : gmap (list N) (list N) :=
  list_to_map
    [ (lit "PROBLEMS IN POR...", lit "Problems");
      (lit "PROBLEMS IN PRO...", lit "Problems");
      (lit "RECALL", lit "Recall");
      (lit "STAND BY", lit "Stand By");
      (lit "UNSCHEDULED", lit "Unscheduled");
      (lit "SCHEDULED", lit "Scheduled");
      (lit "REJECT DP. PROPOSAL", lit "Rejected Proposal");
      (lit "WITHOUT PROPOS...", lit "Without Proposal");
      (lit "QUALITY CONTROL", lit "Quality Control");
      (lit "PENDING INVOICE", lit "Pending Invoice");
      (lit "PENDING PAYMENTS", lit "Pending Payments");
      (lit "DONE", lit "Done");
      (lit "CANCELED", lit "Canceled") ].

Definition IGNORED_SECTION_TOKENS : list (list N) :=
  [ lit "TRASH"; lit "ARCHIVE" ].

(** The keys of [FIELD_ALIASES], in the order [extract_fields] tests them. *)
Inductive field_key :=
| k_client | k_zone | k_approved_value | k_invoice_date | k_paid_flag
| k_paid_date | k_paid_amount | k_priority | k_status | k_canceled_flag
| k_canceled_date | k_type | k_wo_number | k_materials_cost | k_labor_cost.

Definition field_keys : list field_key :=
  [ k_client; k_zone; k_approved_value; k_invoice_date; k_paid_flag;
    k_paid_date; k_paid_amount; k_priority; k_status; k_canceled_flag;
    k_canceled_date; k_type; k_wo_number; k_materials_cost; k_labor_cost ].

Definition O_acute : N := 0xd3.
Definition i_acute : N := 0xed.

Definition FIELD_ALIASES (k : field_key) : gset (list N) :=
  match k with
  | k_client =>
      {[ lit "CLIENTE"; lit "CLIENT"; lit "CLIENT NAME"; lit "CLIENTE NOMBRE";
         lit "CUSTOMER" ]}
  | k_zone => {[ lit "ZONA"; lit "ZONE" ]}
  | k_approved_value =>
      {[ lit "VALOR APROBADO"; lit "VALOR TOTAL"; lit "APPROVED AMOUNT";
         lit "AMOUNT APPROVED"; lit "APPROVED VALUE" ]}
  | k_invoice_date =>
      {[ lit "FECHA DE INVOICE"; lit "FECHA FACTURA"; lit "INVOICE ENVIADO";
         lit "INVOICE DATE" ]}
  | k_paid_flag => {[ lit "PAGADO"; lit "PAID" ]}
  | k_paid_date => {[ lit "FECHA DE PAGO"; lit "PAID DATE" ]}
  | k_paid_amount => {[ lit "MONTO PAGADO"; lit "PAGADO (MONTO)"; lit "PAID AMOUNT" ]}
  | k_priority => {[ lit "PRIORITY"; lit "PRIORIDAD" ]}
  | k_status => {[ lit "STATUS"; lit "ESTADO"; lit "ESTATUS" ]}
  | k_canceled_flag => {[ lit "CANCELADA"; lit "CANCELED" ]}
  | k_canceled_date =>
      {[ lit "FECHA DE CANCELACION";
         lit "FECHA DE CANCELACI" ++ O_acute :: lit "N";
         lit "CANCEL DATE" ]}
  | k_type => {[ lit "TIPO"; lit "TYPE" ]}
  | k_wo_number => {[ lit "WO #"; lit "WO"; lit "WORK ORDER" ]}
  | k_materials_cost =>
      {[ lit "GASTO MATERIALES"; lit "MATERIALES"; lit "MATERIAL COST";
         lit "COSTO MATERIALES" ]}
  | k_labor_cost =>
      {[ lit "GASTO LABOR"; lit "GATOS LABOR"; lit "GASTO MANO DE OBRA";
         lit "LABOR COST"; lit "MANO DE OBRA"; lit "GASTO LABOUR";
         lit "GASTOS LABOR" ]}
  end.

(** The tokens read as true in a flag field. *)
Definition TRUE_TOKENS : gset (list N) :=
  {[ lit "1"; lit "true"; lit "yes"; [115; i_acute]; lit "si" ]}.

(** ** The pipeline *)
Section Pipeline.
Context `{UnicodeData}.

(** [dateutil.parser.parse(text, fuzzy=flag)] read as a date: [None] when it
    raises. *)
Variable dateutil_parse : bool -> list N -> option date.
(** The two miners built on regular-expression searches. *)
Variable parse_client_from_text : list N -> list N -> list N.
Variable wo_from_name : list N -> list N.
(** The task source, by project gid. *)
Variable fetch_project_tasks : list N -> result (list task).

(** *** [zone_from_project] *)
Definition zone_from_project (project_name : ustring) : result ustring :=
  if is_nil project_name then Ok []
  else
    match last (split project_name) with
    | Some tok => Ok (strip_chars (lit ",") tok)
    | None => Raise IndexError
    end.

(** *** [_try_parse_money] *)

(** The class of [re.sub(r"[^\\d,.\\-]", "", s)]: in the raw string the two
    backslashes are an escaped backslash and [d] is the letter, so what is
    kept is the backslash, the letter d, the comma, the period and the
    minus sign. *)
Definition money_class : list N := [92; 100; 44; 46; 45].

Definition kept_by_money_class (c : N) : bool := existsb (N.eqb c) money_class.

Definition comma : N := 44.
Definition period : N := 46.

Definition _try_parse_money (raw : option ustring) : option float :=
  if negb (truthy raw) then None
  else
    let s := upper (strip (or_empty raw)) in
    let s := List.filter kept_by_money_class s in
    if is_nil s then None
    else
      let first :=
        if contains [comma] s && contains [period] s
        then py_float (replace_char comma [] s) else None in
      match first with
      | Some x => Some x
      | None =>
          let second :=
            if contains [comma] s && negb (contains [period] s)
            then py_float (replace_char comma [period] s) else None in
          match second with
          | Some x => Some x
          | None => py_float s
          end
      end.

(** *** [_fmt_mmddyyyy] *)
Definition _fmt_mmddyyyy (val : ustring) : ustring :=
  if is_nil val then []
  else
    match dateutil_parse true val with
    | Some dt => strftime_mdY dt
    | None =>
        let s := val in
        let s := if contains [letter_T] s then before_first letter_T s else s in
        match strptime_Ymd s with
        | Some d => strftime_mdY d
        | None => s
        end
    end.

(** *** [get_fee_pct] *)
Definition get_fee_pct (fees_map : gmap (list N) (gmap (list N) float))
    (client ttype : ustring) : float :=
  let c := upper client in
  let tt := upper ttype in
  match fees_map !! c with
  | Some types =>
      match types !! tt with
      | Some pct => pct
      | None =>
          match types !! lit "ANY" with
          | Some pct => pct
          | None => 0%float
          end
      end
  | None => 0%float
  end.

(** *** [extract_fields] *)
Definition initial_fields : fields := {|
  client := []; zone := []; approved_value := None;
  invoice_date := []; paid_flag := false; paid_date := []; paid_amount := None;
  priority := []; status := []; canceled_flag := false; canceled_date := [];
  type := []; wo_number := []; materials_cost := 0%float; labor_cost := 0%float
|}.

Definition enum_name (cf : custom_field) : option ustring :=
  match cf_enum_value cf with
  | Some n => n
  | None => None
  end.

(** [num if num is not None else _try_parse_money(disp or text)]. *)
Definition number_of (cf : custom_field) : option float :=
  match cf_number_value cf with
  | Some v => Some v
  | None => _try_parse_money (por (cf_display_value cf) (cf_text_value cf))
  end.

(** The flag test: [val in {...} or val == word]. *)
Definition flag_of (word : ustring) (cf : custom_field) : bool :=
  let val :=
    str_lower (strip (or_empty (por (por (cf_display_value cf) (cf_text_value cf))
                                    (enum_name cf)))) in
  bool_decide (val ∈ TRUE_TOKENS) || str_eqb val word.

(** The body of the loop over the custom fields. *)
Definition extract_field (out : fields) (cf : custom_field) : fields :=
  let name := or_empty (cf_name cf) in
  let n := normalize_upper (Some name) in
  let disp := cf_display_value cf in
  let enumn := enum_name cf in
  let text := cf_text_value cf in
  if _alias_hit n (FIELD_ALIASES k_client) then
    set_client (or_empty (por disp text)) out
  else if _alias_hit n (FIELD_ALIASES k_zone) then
    set_zone (or_empty (por (por disp text) enumn)) out
  else if _alias_hit n (FIELD_ALIASES k_approved_value) then
    set_approved_value (number_of cf) out
  else if _alias_hit n (FIELD_ALIASES k_invoice_date) then
    set_invoice_date (strip (or_empty (por disp text))) out
  else if _alias_hit n (FIELD_ALIASES k_paid_flag) then
    set_paid_flag (flag_of (lit "paid") cf) out
  else if _alias_hit n (FIELD_ALIASES k_paid_date) then
    set_paid_date (strip (or_empty (por disp text))) out
  else if _alias_hit n (FIELD_ALIASES k_paid_amount) then
    set_paid_amount (number_of cf) out
  else if _alias_hit n (FIELD_ALIASES k_priority) then
    set_priority (or_empty (por (por enumn disp) text)) out
  else if _alias_hit n (FIELD_ALIASES k_status) then
    set_status (or_empty (por (por enumn disp) text)) out
  else if _alias_hit n (FIELD_ALIASES k_canceled_flag) then
    set_canceled_flag (flag_of (lit "canceled") cf) out
  else if _alias_hit n (FIELD_ALIASES k_canceled_date) then
    set_canceled_date (strip (or_empty (por disp text))) out
  else if _alias_hit n (FIELD_ALIASES k_type) then
    set_type (strip (or_empty (por (por enumn disp) text))) out
  else if _alias_hit n (FIELD_ALIASES k_wo_number) then
    set_wo_number (strip (or_empty (por disp text))) out
  else if _alias_hit n (FIELD_ALIASES k_materials_cost) then
    set_materials_cost (or_zero (number_of cf)) out
  else if _alias_hit n (FIELD_ALIASES k_labor_cost) then
    set_labor_cost (or_zero (number_of cf)) out
  else out.

Definition extract_fields (t : task) : fields :=
  let out := fold_left extract_field (t_custom_fields t) initial_fields in
  if is_nil (wo_number out)
  then set_wo_number (wo_from_name (or_empty (t_name t))) out
  else out.

(** *** [build_dataframe] *)

(** The section of the task in the project: the first membership whose
    project gid is [pgid]. *)
Fixpoint section_in (pgid : ustring) (ms : list membership) : ustring :=
  match ms with
  | [] => []
  | m :: ms' =>
      let gid := match m_project m with Some g => g | None => None end in
      if str_eqb (py_str gid) pgid
      then strip (or_empty (match m_section m with Some n => n | None => None end))
      else section_in pgid ms'
  end.

(** The first test of the loop body: a section with an ignored token. *)
Definition ignored_section (section : ustring) : bool :=
  existsb (fun tok => contains tok (normalize_upper (Some section)))
    IGNORED_SECTION_TOKENS.

(** The second test: a done or cancelled task last touched before the
    cutoff. *)
Definition before_cutoff (cutoff_date : option date) (section : ustring) (t : task) : bool :=
  match cutoff_date with
  | None => false
  | Some cutoff =>
      let sec_norm := normalize_upper (Some section) in
      if contains (lit "DONE") sec_norm || contains (lit "CANCEL") sec_norm then
        let _ts := or_empty (por (t_modified_at t) (t_created_at t)) in
        match dateutil_parse false _ts with
        | Some _d => date_ltb _d cutoff
        | None => false
        end
      else false
  end.

(** The fields after the two fall-backs of the loop body. *)
Definition task_fields (project_zone : ustring) (t : task) : fields :=
  let cf := extract_fields t in
  let cf := if is_nil (zone cf) then set_zone project_zone cf else cf in
  if is_nil (client cf) then
    let parsed_client :=
      parse_client_from_text (or_empty (t_name t)) (or_empty (t_notes t)) in
    if is_nil parsed_client then cf else set_client parsed_client cf
  else cf.

(** The row appended for a task that passed the two tests. *)
Definition make_row (pname ttype section : ustring)
    (fees_map : gmap (list N) (gmap (list N) float)) (t : task) (cf : fields) : row :=
  let approved := or_zero (approved_value cf) in
  let fee_pct := get_fee_pct fees_map (client cf) ttype in
  let approved_real := (approved * (1 - fee_pct))%float in
  let materials := or_zero (Some (materials_cost cf)) in
  let labor := or_zero (Some (labor_cost cf)) in
  let gastos_total := (materials + labor)%float in
  let profit := (approved_real - gastos_total)%float in
  let profit_pct :=
    if (approved_real =? 0)%float then 0%float else (profit / approved_real)%float in
  let invoice_date := invoice_date cf in
  let invoice_month :=
    if is_nil invoice_date then []
    else match dateutil_parse true invoice_date with
         | Some dt => strftime_Ym dt
         | None => []
         end in
  {| Project := pname;
     Zone := zone cf;
     Type_ := if is_nil (type cf) then ttype else type cf;
     Task_GID := t_gid t;
     Task_URL := t_permalink_url t;
     Num_de_orden := strip (wo_number cf);
     Task_Name := or_empty (t_name t);
     Column := section;
     Logical_Status :=
       default section (COLUMN_STATUS_MAP !! normalize_upper (Some section));
     Client := client cf;
     Priority := priority cf;
     Status_CF := status cf;
     Approved_Value := approved;
     Valor_Aprobado_Real := approved_real;
     Gasto_Materiales := materials;
     Gasto_Labor := labor;
     Gastos_Total := gastos_total;
     Utilidad_USD := profit;
     Utilidad_Pct := profit_pct;
     Invoice_Date := _fmt_mmddyyyy invoice_date;
     Invoice_Month := invoice_month;
     Paid := paid_flag cf || negb (is_nil (paid_date cf));
     Paid_Date := _fmt_mmddyyyy (paid_date cf);
     Paid_Amount := paid_amount cf;
     Created_At := or_empty (t_created_at t);
     Modified_At := or_empty (t_modified_at t) |}.

(** The loop body: [None] when the task is skipped. *)
Definition task_row (pgid pname project_zone ttype : ustring)
    (cutoff_date : option date)
    (fees_map : gmap (list N) (gmap (list N) float)) (t : task) : option row :=
  let section := section_in pgid (t_memberships t) in
  if ignored_section section then None
  else if before_cutoff cutoff_date section t then None
  else Some (make_row pname ttype section fees_map t (task_fields project_zone t)).

Definition type_of_project (pname : ustring) : ustring :=
  if contains (lit "(WO)") (upper pname) then lit "WO"
  else if contains (lit "(PO)") (upper pname) then lit "PO"
  else [].

Definition project_rows (cutoff_date : option date)
    (fees_map : gmap (list N) (gmap (list N) float)) (p : project) : result (list row) :=
  let pgid := p_gid p in
  let pname := p_name p in
  do project_zone <- zone_from_project pname;
  let ttype := type_of_project pname in
  do tasks <- fetch_project_tasks pgid;
  Ok (omap (task_row pgid pname project_zone ttype cutoff_date fees_map) tasks).

Fixpoint all_rows (cutoff_date : option date)
    (fees_map : gmap (list N) (gmap (list N) float)) (projects : list project)
    : result (list row) :=
  match projects with
  | [] => Ok []
  | p :: projects' =>
      do rows <- project_rows cutoff_date fees_map p;
      do rest <- all_rows cutoff_date fees_map projects';
      Ok (rows ++ rest)
  end.

(** [cutoff_date]: the parsed [done_cutoff], when there is one. *)
Definition cutoff_of (done_cutoff : ustring) : option date :=
  if is_nil done_cutoff then None else dateutil_parse false done_cutoff.

(** The rows of the data frame [build_dataframe] returns, in order. *)
Definition build_dataframe (token : ustring) (projects : list project)
    (done_cutoff : ustring) (fees_map : gmap (list N) (gmap (list N) float))
    : result (list row) :=
  if is_nil token then Raise RuntimeError
  else all_rows (cutoff_of done_cutoff) fees_map projects.

End Pipeline.


(** * Vocabulary of the statements *)

(** A text made of code points that the substitution of [_try_parse_money]
    keeps. *)
Definition money_text (s : ustring) : Prop := Forall (fun c => In c money_class) s.

(** [s] is the text of [val] up to its first letter T, all of [val] when it
    has none. *)
Definition date_part (val s : ustring) : Prop :=
  (~ In letter_T val /\ s = val)
  \/ (exists rest, val = s ++ letter_T :: rest /\ ~ In letter_T s).

(** [d] lies in the range of [datetime.date]. *)
Definition in_calendar (d : date) : Prop :=
  1 <= year d <= 9999 /\ 1 <= month d <= 12 /\ 1 <= day d <= 31.

(** [s] is [d] written MM/DD/YYYY. *)
Definition is_mmddyyyy (d : date) (s : ustring) : Prop :=
  exists m1 m2 d1 d2 y1 y2 y3 y4,
    s = [48 + m1; 48 + m2; slash; 48 + d1; 48 + d2; slash;
         48 + y1; 48 + y2; 48 + y3; 48 + y4]
    /\ Forall (fun x => x < 10) [m1; m2; d1; d2; y1; y2; y3; y4]
    /\ month d = 10 * m1 + m2
    /\ day d = 10 * d1 + d2
    /\ year d = 1000 * y1 + 100 * y2 + 10 * y3 + y4.

(** [core] is [s] without the code points [c] at its two ends. *)
Definition stripped_of (c : N) (s core : ustring) : Prop :=
  exists l r,
    s = l ++ core ++ r
    /\ Forall (fun x => x = c) l
    /\ Forall (fun x => x = c) r
    /\ head core <> Some c
    /\ last core <> Some c.

(** [p] occurs in [s]. *)
Definition substring (p s : ustring) : Prop :=
  exists pre suf, s = pre ++ p ++ suf.

(** [a] is strictly earlier than [b]. *)
Definition date_lt (a b : date) : Prop :=
  year a < year b
  \/ (year a = year b /\ month a < month b)
  \/ (year a = year b /\ month a = month b /\ day a < day b).

(** The time stamp the cutoff test reads: [modified_at], or [created_at]
    when that is missing or empty, or the empty string. *)
Definition last_touched (t : task) : ustring :=
  match t_modified_at t with
  | Some (c :: s) => c :: s
  | _ => or_empty (t_created_at t)
  end.

Section Vocabulary.
Context `{UnicodeData}.

(** The key a normalised label resolves to: the first key of [field_keys]
    whose aliases hit. *)
Definition resolved (n : ustring) : option field_key :=
  List.find (fun k => _alias_hit n (FIELD_ALIASES k)) field_keys.

(** The value stored in the dictionary under a key. *)
Inductive value :=
| VStr (s : list N)
| VBool (b : bool)
| VNum (x : option float)
| VFloat (x : float).

Definition get (k : field_key) (out : fields) : value :=
  match k with
  | k_client => VStr (client out)
  | k_zone => VStr (zone out)
  | k_approved_value => VNum (approved_value out)
  | k_invoice_date => VStr (invoice_date out)
  | k_paid_flag => VBool (paid_flag out)
  | k_paid_date => VStr (paid_date out)
  | k_paid_amount => VNum (paid_amount out)
  | k_priority => VStr (priority out)
  | k_status => VStr (status out)
  | k_canceled_flag => VBool (canceled_flag out)
  | k_canceled_date => VStr (canceled_date out)
  | k_type => VStr (type out)
  | k_wo_number => VStr (wo_number out)
  | k_materials_cost => VFloat (materials_cost out)
  | k_labor_cost => VFloat (labor_cost out)
  end.

(** What the branch of a key stores, read off the custom field. *)
Definition assign (k : field_key) (cf : custom_field) (out : fields) : fields :=
  let disp := cf_display_value cf in
  let enumn := enum_name cf in
  let text := cf_text_value cf in
  match k with
  | k_client => set_client (or_empty (por disp text)) out
  | k_zone => set_zone (or_empty (por (por disp text) enumn)) out
  | k_approved_value => set_approved_value (number_of cf) out
  | k_invoice_date => set_invoice_date (strip (or_empty (por disp text))) out
  | k_paid_flag => set_paid_flag (flag_of (lit "paid") cf) out
  | k_paid_date => set_paid_date (strip (or_empty (por disp text))) out
  | k_paid_amount => set_paid_amount (number_of cf) out
  | k_priority => set_priority (or_empty (por (por enumn disp) text)) out
  | k_status => set_status (or_empty (por (por enumn disp) text)) out
  | k_canceled_flag => set_canceled_flag (flag_of (lit "canceled") cf) out
  | k_canceled_date => set_canceled_date (strip (or_empty (por disp text))) out
  | k_type => set_type (strip (or_empty (por (por enumn disp) text))) out
  | k_wo_number => set_wo_number (strip (or_empty (por disp text))) out
  | k_materials_cost => set_materials_cost (or_zero (number_of cf)) out
  | k_labor_cost => set_labor_cost (or_zero (number_of cf)) out
  end.

(** The normalised label of a custom field. *)
Definition label (cf : custom_field) : ustring :=
  normalize_upper (Some (or_empty (cf_name cf))).

(** No custom field of the task is stored under the key. *)
Definition absent (k : field_key) (t : task) : Prop :=
  Forall (fun cf => resolved (label cf) <> Some k) (t_custom_fields t).

(** [tok] is the last white-space-delimited token of [name]. *)
Definition last_token (name tok : ustring) : Prop :=
  exists pre post,
    name = pre ++ tok ++ post
    /\ tok <> []
    /\ Forall (fun c => is_space c = false) tok
    /\ Forall (fun c => is_space c = true) post
    /\ (pre = [] \/ exists pre' sp, pre = pre' ++ [sp] /\ is_space sp = true).

(** Every code point of the canonical decomposition of [s] outside the
    category Mn has combining class zero. *)
Definition plain (s : ustring) : Prop :=
  Forall (fun c => is_Mn c = false -> combining c = 0)
    (flat_map canonical_decomposition s).

(** [plain] as a test. *)
Definition plainb (s : ustring) : bool :=
  forallb (fun c => is_Mn c || (combining c =? 0))
    (flat_map canonical_decomposition s).

(** Not a non-spacing mark. *)
Definition unmarked (c : N) : bool := negb (is_Mn c).

(** A code point the normaliser leaves as it is. *)
Definition settled (c : N) : Prop :=
  canonical_decomposition c = [c]
  /\ is_Mn c = false
  /\ to_upper_full c = [c]
  /\ combining c = 0.

(** The canonical decomposition of [s] with its non-spacing marks taken
    out. *)
Definition without_marks (s : ustring) : ustring :=
  List.filter unmarked (flat_map canonical_decomposition s).

(** Upper-casing [c] goes along with taking the marks out: the upper case
    of [c] and [c] itself, each decomposed and freed of its marks, have the
    same upper case. *)
Definition case_stable (c : N) : Prop :=
  upper (without_marks (to_upper_full c)) = upper (without_marks [c]).

End Vocabulary.

(** * Sample inputs *)
Module Sample.
#[local] Existing Instance Excerpt.data.

(** The permissive parser on the texts of the samples: the dates it reads
    from them; it finds no date in any other text used below. *)
Definition date_table : list (list N * date) :=
  [ (lit "01/02/2024", Date 2024 1 2);
    (lit "2024-01-15", Date 2024 1 15);
    (lit "2024-01-10T08:00:00.000Z", Date 2024 1 10);
    (lit "2024-01-15T08:00:00.000Z", Date 2024 1 15);
    (lit "2024-01-20T08:00:00.000Z", Date 2024 1 20) ].

Definition known_dates (fuzzy : bool) (text : list N) : option date :=
  option_map snd (List.find (fun e => str_eqb (fst e) text) date_table).

(** The miners on the tasks of the samples, which have no name and no notes:
    both return the empty string. *)
Definition no_client : list N -> list N -> list N := fun _ _ => [].
Definition no_wo : list N -> list N := fun _ => [].

(** A text custom field and a number custom field, as the service returns
    them. *)
Definition text_field (name value : ustring) : custom_field := {|
  cf_name := Some name;
  cf_display_value := Some value;
  cf_enum_value := None;
  cf_number_value := None;
  cf_text_value := Some value;
|}.

Definition number_field (name display : ustring) (value : float) : custom_field := {|
  cf_name := Some name;
  cf_display_value := Some display;
  cf_enum_value := None;
  cf_number_value := Some value;
  cf_text_value := None;
|}.

Definition in_section (gid section : ustring) : membership := {|
  m_project := Some (Some gid);
  m_section := Some (Some section);
|}.

(** A task of project 1 given by its section and custom fields only. *)
Definition bare_task (section : ustring) (cfs : list custom_field) : task := {|
  t_gid := None; t_name := None; t_notes := None; t_permalink_url := None;
  t_created_at := None; t_modified_at := None;
  t_memberships := [in_section (lit "1") section];
  t_custom_fields := cfs;
|}.

Definition north : project := {| p_gid := lit "1"; p_name := lit "Zone North (WO)" |}.

Definition acme_fields : list custom_field :=
  [ text_field (lit "CLIENTE") (lit "Acme");
    number_field (lit "VALOR APROBADO") (lit "1000") 1000;
    number_field (lit "GASTO MATERIALES") (lit "200") 200;
    number_field (lit "GASTO LABOR") (lit "100") 100 ].

(** The task of the end-to-end example, whatever its other attributes. *)
Definition acme_task (gid name notes url created modified : option ustring) : task := {|
  t_gid := gid; t_name := name; t_notes := notes; t_permalink_url := url;
  t_created_at := created; t_modified_at := modified;
  t_memberships := [in_section (lit "1") (lit "SCHEDULED")];
  t_custom_fields := acme_fields;
|}.

(** The task source of a run with the one project [north]. *)
Definition only (t : task) (pgid : ustring) : result (list task) :=
  Ok (if str_eqb pgid (lit "1") then [t] else []).

(** The fee table [{"ACME": {"WO": 0.1}}]: the fraction is the binary64
    number nearest to one tenth. *)
Definition one_tenth : float := 0x1.999999999999ap-4.

Definition acme_fees : gmap (list N) (gmap (list N) float) :=
  {[ lit "ACME" := {[ lit "WO" := one_tenth ]} ]}.

(** A task with a negative number in its materials field. *)
Definition refund_task : task :=
  bare_task (lit "SCHEDULED")
    [ number_field (lit "GASTO MATERIALES") (lit "-5") (-5) ].

(** A task whose approved value is the number a JSON text such as 1e999
    denotes. *)
Definition overflow_task : task :=
  bare_task (lit "SCHEDULED")
    [ number_field (lit "VALOR APROBADO") (lit "inf") infinity ].

(** A task whose only custom field is a payment date. *)
Definition paid_task : task :=
  bare_task (lit "DONE") [ text_field (lit "Fecha de pago") (lit "01/02/2024") ].

(** A task of a given section last modified at a given time. *)
Definition touched_task (section modified : ustring) : task := {|
  t_gid := None; t_name := None; t_notes := None; t_permalink_url := None;
  t_created_at := Some (lit "2023-12-01T08:00:00.000Z");
  t_modified_at := Some modified;
  t_memberships := [in_section (lit "1") section];
  t_custom_fields := [];
|}.

(** Whether the loop body appends a row for the task, under a cutoff. *)
Definition kept (cutoff : option date) (t : task) : bool :=
  bool_decide
    (is_Some (task_row known_dates no_client no_wo (p_gid north) (p_name north)
                (lit "(WO)") (lit "WO") cutoff acme_fees t)).

(** The row of [acme_task] in the project [north] under [acme_fees]. *)
Definition acme_row (wo_from_name : list N -> list N)
    (gid name url created modified : option ustring) : row := {|
  Project := lit "Zone North (WO)";
  Zone := lit "(WO)";
  Type_ := lit "WO";
  Task_GID := gid;
  Task_URL := url;
  Num_de_orden := strip (wo_from_name (or_empty name));
  Task_Name := or_empty name;
  Column := lit "SCHEDULED";
  Logical_Status := lit "Scheduled";
  Client := lit "Acme";
  Priority := [];
  Status_CF := [];
  Approved_Value := 1000;
  Valor_Aprobado_Real := 900;
  Gasto_Materiales := 200;
  Gasto_Labor := 100;
  Gastos_Total := 300;
  Utilidad_USD := 600;
  Utilidad_Pct := 0x1.5555555555555p-1;
  Invoice_Date := [];
  Invoice_Month := [];
  Paid := false;
  Paid_Date := [];
  Paid_Amount := None;
  Created_At := or_empty created;
  Modified_At := or_empty modified;
|}.

(** The rows of the other sample tasks in the project [north]. *)
Definition row_in_north (t : task) : row :=
  make_row known_dates (p_name north) (lit "WO")
    (section_in (p_gid north) (t_memberships t)) acme_fees t
    (task_fields no_client no_wo (lit "(WO)") t).

Definition refund_row : row := Eval vm_compute in row_in_north refund_task.
Definition overflow_row : row := Eval vm_compute in row_in_north overflow_task.
Definition paid_row : row := Eval vm_compute in row_in_north paid_task.

End Sample.

(** * The columns of the data frame *)

(** The keys of the dictionary the loop body appends, in the order it
    writes them. *)
Definition ROW_KEYS : list ustring :=
  [ lit "Project"; lit "Zone"; lit "Type"; lit "Task GID"; lit "Task URL";
    lit "# de orden"; lit "Task Name"; lit "Column"; lit "Logical Status";
    lit "Client"; lit "Priority"; lit "Status (CF)"; lit "Approved Value";
    lit "Valor Aprobado (Real)"; lit "Gasto Materiales"; lit "Gasto Labor";
    lit "Gastos Total"; lit "Utilidad ($)"; lit "Utilidad (%)";
    lit "Invoice Date"; lit "Invoice Month"; lit "Paid?"; lit "Paid Date";
    lit "Paid Amount"; lit "Created At (Asana)"; lit "Modified At" ].

(** [list(df.columns)] for [df = pd.DataFrame(rows)]: the keys of the rows,
    and no column at all for an empty list of rows. *)
Definition existing (rows : list row) : list ustring :=
  if is_nil rows then [] else ROW_KEYS.

Definition desired : list ustring :=
  [ lit "Project"; lit "Zone"; lit "Type"; lit "# de orden"; lit "Priority";
    lit "Client"; lit "Column"; lit "Status (CF)"; lit "Approved Value";
    lit "Valor Aprobado (Real)"; lit "Gasto Materiales"; lit "Gasto Labor";
    lit "Gastos Total"; lit "Utilidad ($)"; lit "Utilidad (%)";
    lit "Invoice Date"; lit "Invoice Month"; lit "Paid?"; lit "Paid Date";
    lit "Paid Amount" ].

(** [[c for c in desired if c in existing] + [c for c in existing if c not
    in desired]]. *)
Definition column_order (desired existing : list ustring) : list ustring :=
  List.filter (fun c => bool_decide (c ∈ existing)) desired
  ++ List.filter (fun c => negb (bool_decide (c ∈ desired))) existing.

(** The columns of the frame [build_dataframe] returns for given rows. *)
Definition dataframe_columns (rows : list row) : list ustring :=
  column_order desired (existing rows).

(** * The workbook writer: the range of the table *)

Definition ascii_uppercase : ustring := lit "ABCDEFGHIJKLMNOPQRSTUVWXYZ".

(** The loop of [col_letter]: [while n > 0: n, r = divmod(n-1, 26);
    s = ascii_uppercase[r] + s]. The number of turns is bounded by [fuel]. *)
Fixpoint col_letter_loop (fuel : nat) (n : Z) (s : ustring) : ustring :=
  match fuel with
  | O => s
  | S fuel' =>
      if (0 <? n)%Z then
        let q := ((n - 1) / 26)%Z in
        let r := ((n - 1) mod 26)%Z in
        col_letter_loop fuel' q (nth (Z.to_nat r) ascii_uppercase 0 :: s)
      else s
  end.

(** [col_letter(n)]: [n] turns are enough, each one makes [n] smaller. *)
Definition col_letter (n : Z) : ustring := col_letter_loop (Z.to_nat n) n [].

(** [str(n)] for an integer. *)
Definition str_of_int (n : Z) : ustring :=
  lit (DecimalString.NilZero.string_of_int (Z.to_int n)).

(** What [write_excel_with_pivots] computes from the shape of the frame:
    [max_row], [max_col], [end_col], [data_range], and the four corner
    arguments of [ws.add_table]. *)
Record table_shape := {
  max_row : Z;
  max_col : Z;
  end_col : ustring;
  data_range : ustring;
  add_table_corners : Z * Z * Z * Z;
}.

Definition shape_of (len_df len_columns : nat) : table_shape :=
  let max_row := (Z.of_nat len_df + 1)%Z in
  let max_col := Z.of_nat len_columns in
  let end_col := col_letter max_col in
  {| max_row := max_row;
     max_col := max_col;
     end_col := end_col;
     data_range :=
       lit "data!$A$1:$" ++ end_col ++ lit "$" ++ str_of_int max_row;
     add_table_corners := (0, 0, max_row - 1, max_col - 1)%Z |}.

(** The value of a column name read as a numeral in the bijective base-26
    system (A = 1, ..., Z = 26). *)
Definition column_number (s : ustring) : Z :=
  fold_left (fun acc c => (26 * acc + (Z.of_N c - 64))%Z) s 0%Z.

(** * The fee table read from a file *)

(** A JSON value as [json.load] returns it. An object is the list of its
    items in the order of the text; its keys are distinct. *)
#[warnings="-register-all"]
Inductive json :=
| JNull
| JBool (b : bool)
| JInt (n : Z)
| JFloat (x : float)
| JString (s : ustring)
| JArray (l : list json)
| JObject (items : list (ustring * json)).

(** What [load_fees_map] can raise: [ReadError] stands for whatever [open]
    or [json.load] raises. *)
Inductive load_exn :=
| ReadError | AttributeError | TypeError | ValueError | OverflowError.

(** [bool(v)]. *)
Definition json_truthy (v : json) : bool :=
  match v with
  | JNull => false
  | JBool b => b
  | JInt n => negb (n =? 0)%Z
  | JFloat x => negb (x =? 0)%float
  | JString s => negb (is_nil s)
  | JArray l => negb (is_nil l)
  | JObject items => negb (is_nil items)
  end.

(** [v.items()]: only a [dict] has the method. *)
Definition json_items (v : json) : load_exn + list (ustring * json) :=
  match v with
  | JObject items => inr items
  | _ => inl AttributeError
  end.

Section FeesFile.
Context `{UnicodeData}.

(** [float(v)]: an integer is rounded to the nearest binary64 number and
    is refused when that is out of range. *)
Definition float_of_json (v : json) : load_exn + float :=
  match v with
  | JNull => inl TypeError
  | JBool b => inr (if b then 1%float else 0%float)
  | JInt n =>
      let x := decimal_to_float (n <? 0)%Z (Z.abs_N n) 0 in
      if is_infinity x then inl OverflowError else inr x
  | JFloat x => inr x
  | JString s =>
      match py_float s with
      | Some x => inr x
      | None => inl ValueError
      end
  | JArray _ | JObject _ => inl TypeError
  end.

(** The inner loop: [norm[c][(t or "").upper()] = float(pct)] for the items
    of one client, into the dictionary [inner]. *)
Fixpoint load_types (items : list (ustring * json)) (inner : gmap (list N) float)
    : load_exn + gmap (list N) float :=
  match items with
  | [] => inr inner
  | (t, pct) :: items' =>
      match float_of_json pct with
      | inl e => inl e
      | inr x => load_types items' (<[upper t := x]> inner)
      end
  end.

(** The outer loop over [data.items()], into the dictionary [norm]. *)
Fixpoint load_clients (items : list (ustring * json))
    (norm : gmap (list N) (gmap (list N) float))
    : load_exn + gmap (list N) (gmap (list N) float) :=
  match items with
  | [] => inr norm
  | (client, types) :: items' =>
      let c := upper client in
      match (if json_truthy types then json_items types else inr []) with
      | inl e => inl e
      | inr ts =>
          match load_types ts ∅ with
          | inl e => inl e
          | inr inner => load_clients items' (<[c := inner]> norm)
          end
      end
  end.

(** The file system: whether a path exists, and what [json.load] reads
    from it. *)
Variable path_exists : ustring -> bool.
Variable read_json : ustring -> load_exn + json.

Definition load_fees_map (path : ustring)
    : load_exn + gmap (list N) (gmap (list N) float) :=
  if is_nil path || negb (path_exists path) then inr ∅
  else
    match read_json path with
    | inl e => inl e
    | inr data =>
        match json_items data with
        | inl e => inl e
        | inr items => load_clients items ∅
        end
    end.

End FeesFile.

(** ** Vocabulary of the statements on the fee file *)

(** The item is the last one of the list whose key has this upper case. *)
Definition last_with_upper `{UnicodeData} {A} (items : list (ustring * A))
    (k : ustring) (v : A) : Prop :=
  exists before after,
    items = before ++ (k, v) :: after
    /\ Forall (fun kv => upper (fst kv) <> upper k) after.

(** A value [load_fees_map] accepts for a client: an object, or a value
    that counts as false, and percentages that [float] converts. *)
Definition loadable_types `{UnicodeData} (types : json) : Prop :=
  json_truthy types = false
  \/ exists items,
       types = JObject items
       /\ Forall (fun kv => exists x, float_of_json (snd kv) = inr x) items.

(** ** Vocabulary of the statements on the loop body *)

(** The project gid a membership is compared by: [str(pr.get("gid"))]. *)
Definition membership_gid (m : membership) : ustring :=
  py_str (match m_project m with Some g => g | None => None end).

(** The project passes [zone_from_project] and its tasks are fetched. *)
Definition project_loads `{UnicodeData}
    (fetch_project_tasks : list N -> result (list task)) (p : project) : Prop :=
  (exists project_zone, zone_from_project (p_name p) = Ok project_zone)
  /\ (exists tasks, fetch_project_tasks (p_gid p) = Ok tasks).

(** * Further sample inputs *)
Module Cases.
Import Sample.
#[local] Existing Instance Excerpt.data.

(** A custom field without a value. *)
Definition empty_field (name : ustring) : custom_field := {|
  cf_name := Some name;
  cf_display_value := None;
  cf_enum_value := None;
  cf_number_value := None;
  cf_text_value := None;
|}.

(** A task with two client fields, the second one without a value. *)
Definition twice_client : list custom_field :=
  [ text_field (lit "CLIENTE") (lit "Acme"); empty_field (lit "Client") ].

Definition twice_client_task : task := bare_task (lit "SCHEDULED") twice_client.

(** A task whose payment date stands in a field with the English label. *)
Definition english_paid_task : task :=
  bare_task (lit "DONE") [ text_field (lit "Paid Date") (lit "01/02/2024") ].

Definition english_paid_row : row := Eval vm_compute in row_in_north english_paid_task.

(** A task with an invoice date. *)
Definition invoiced_task : task :=
  bare_task (lit "PENDING PAYMENTS")
    [ text_field (lit "Fecha factura") (lit "01/02/2024") ].

Definition invoiced_row : row := Eval vm_compute in row_in_north invoiced_task.

(** A done task that is a member of project 2 only, last modified before
    the cutoff of the samples. *)
Definition visiting_task : task := {|
  t_gid := Some (lit "77"); t_name := None; t_notes := None;
  t_permalink_url := None;
  t_created_at := None;
  t_modified_at := Some (lit "2024-01-10T08:00:00.000Z");
  t_memberships := [in_section (lit "2") (lit "Done")];
  t_custom_fields := [];
|}.

(** Two projects, the second with a name of one blank. *)
Definition blank : project := {| p_gid := lit "2"; p_name := lit " " |}.

(** The fee table [{"acme": {"wo": 0.1}}], as [json.load] returns it, with
    the keys as written. *)
Definition lower_fees : gmap (list N) (gmap (list N) float) :=
  {[ lit "acme" := {[ lit "wo" := one_tenth ]} ]}.

(** The text [{"acme": {"wo": 0.1, "any": "0.2"}, "Beta": null}] parsed. *)
Definition fees_json : json :=
  JObject
    [ (lit "acme", JObject [ (lit "wo", JFloat one_tenth);
                             (lit "any", JString (lit "0.2")) ]);
      (lit "Beta", JNull) ].

(** A file system with the one file [fees.json]. *)
Definition one_file (path : ustring) : bool := str_eqb path (lit "fees.json").
Definition read_fees (path : ustring) : load_exn + json :=
  if str_eqb path (lit "fees.json") then inr fees_json else inl ReadError.

End Cases.

(** ** Vocabulary of the statements on dates *)

(** [d.isoformat()]: the date written YYYY-MM-DD. *)
Definition isoformat (d : date) : ustring :=
  four_digits (year d) ++ hyphen :: two_digits (month d)
  ++ hyphen :: two_digits (day d).

(** The table of decimal digits gives the ASCII digits their values. *)
Definition reads_ascii_digits `{UnicodeData} : Prop :=
  forall c, 48 <= c <= 57 -> to_decimal c = Some (c - 48).

(** * Regular expressions

    The part of Python's [re] that the two miners use, as a backtracking
    matcher: alternatives are tried in order, a greedy repetition tries one
    more turn before it goes on, a lazy one goes on before it tries one more
    turn, and the first way through the whole pattern is the match. *)

Module Re.

(** What the matcher reads from the interpreter's tables, besides
    [is_space] (for [\s]) and [to_decimal] (for [\d]). *)
Class RegexData := {
  (** the simple lower-case mapping of a code point, by which a pattern
      compiled with IGNORECASE compares *)
  sre_lower : N -> N;
  (** [str.isalnum] on a code point; with the underscore, the class [\w] *)
  is_alnum : N -> bool;
}.

Inductive regex :=
| Chr (f : N -> bool)               (* one code point of a class *)
| Eps                               (* the empty pattern *)
| Seq (a b : regex)                 (* ab *)
| Alt (a b : regex)                 (* a|b *)
| Star (greedy : bool) (a : regex)  (* a* and a*? *)
| Look (a : regex)                  (* (?=a) *)
| Bol                               (* ^ *)
| Eol                               (* $ *)
| WordB (w : N -> bool).            (* \b, for the class w of word code points *)

(** A position in the subject: the text behind it, last code point first,
    and the text ahead of it. *)
Record pos := { behind : list N; ahead : list N }.

(** The turns of a repetition. A turn has to consume something (every
    repeated pattern of the miners does); [fuel] bounds the number of turns,
    and one more than the length of the text that is left is enough. *)
Fixpoint star_loop {A : Type} (greedy : bool)
    (body : pos -> (pos -> option A) -> option A) (k : pos -> option A)
    (fuel : nat) (p : pos) : option A :=
  match fuel with
  | O => k p
  | S fuel' =>
      let more :=
        body p (fun p' =>
                  if (length (ahead p') <? length (ahead p))%nat
                  then star_loop greedy body k fuel' p' else None) in
      if greedy
      then match more with Some x => Some x | None => k p end
      else match k p with Some x => Some x | None => more end
  end.

(** [run r p k]: the first way to match [r] from [p] on which the
    continuation [k], given the position reached, succeeds. *)
Fixpoint run {A : Type} (r : regex) (p : pos) (k : pos -> option A) : option A :=
  match r with
  | Chr f =>
      match ahead p with
      | c :: a => if f c then k {| behind := c :: behind p; ahead := a |} else None
      | [] => None
      end
  | Eps => k p
  | Seq a b => run a p (fun p' => run b p' k)
  | Alt a b =>
      match run a p k with
      | Some x => Some x
      | None => run b p k
      end
  | Star greedy a => star_loop greedy (run a) k (S (length (ahead p))) p
  | Look a =>
      match run a p (fun _ => Some tt) with
      | Some _ => k p
      | None => None
      end
  | Bol => if is_nil (behind p) then k p else None
  | Eol =>
      match ahead p with
      | [] => k p
      | [10] => k p
      | _ => None
      end
  | WordB w =>
      let left := match behind p with c :: _ => w c | [] => false end in
      let right := match ahead p with c :: _ => w c | [] => false end in
      if xorb left right then k p else None
  end.

(** [re.search]: the first position, from the left, at which the pattern
    matches; the continuation gets the start of the match too. *)
Fixpoint search_from {A : Type} (r : regex) (b a : list N)
    (k : pos -> pos -> option A) : option A :=
  let p := {| behind := b; ahead := a |} in
  match run r p (k p) with
  | Some x => Some x
  | None =>
      match a with
      | [] => None
      | c :: a' => search_from r (c :: b) a' k
      end
  end.

Definition search {A : Type} (r : regex) (text : ustring)
    (k : pos -> pos -> option A) : option A :=
  search_from r [] text k.

(** The text between two positions, the second one reached from the first. *)
Definition between (p p' : pos) : ustring :=
  take (length (ahead p) - length (ahead p')) (ahead p).

(** [re.sub(r, repl, text)] for a pattern that matches no empty text: from
    the left, every match is replaced and the text between the matches is
    kept. [skip] counts the code points of the last match still to pass. *)
Fixpoint sub_from (r : regex) (repl : ustring) (b a : list N) (skip : nat)
    : ustring :=
  match a with
  | [] => []
  | c :: a' =>
      match skip with
      | S n => sub_from r repl (c :: b) a' n
      | O =>
          let p := {| behind := b; ahead := a |} in
          match run r p (fun p' => Some (length (between p p'))) with
          | Some (S n) => repl ++ sub_from r repl (c :: b) a' n
          | _ => c :: sub_from r repl (c :: b) a' 0
          end
      end
  end.

Definition sub (r : regex) (repl text : ustring) : ustring :=
  sub_from r repl [] text 0.

(** [re.split(r, text)[0]]: the text before the first match, all of the
    text when there is none. *)
Definition split_first (r : regex) (text : ustring) : ustring :=
  match search r text (fun p _ => Some (rev (behind p))) with
  | Some s => s
  | None => text
  end.

(** [r+], [r?] and [r{2,}], greedy. *)
Definition plus (r : regex) : regex := Seq r (Star true r).
Definition opt (r : regex) : regex := Alt r Eps.
Definition two_or_more (r : regex) : regex := Seq r (Seq r (Star true r)).

(** A class given by its members, and its complement. *)
Definition one_of (chars : ustring) (c : N) : bool := existsb (N.eqb c) chars.
Definition none_of (chars : ustring) (c : N) : bool := negb (one_of chars c).

(** ** The declarative reading of a pattern

    [Matches r p p']: the pattern [r] matches the text from [p] to [p']. *)
Inductive Matches : regex -> pos -> pos -> Prop :=
| M_Chr f c b a :
    f c = true ->
    Matches (Chr f) {| behind := b; ahead := c :: a |}
                    {| behind := c :: b; ahead := a |}
| M_Eps p : Matches Eps p p
| M_Seq a b p p' p'' :
    Matches a p p' -> Matches b p' p'' -> Matches (Seq a b) p p''
| M_Alt_l a b p p' : Matches a p p' -> Matches (Alt a b) p p'
| M_Alt_r a b p p' : Matches b p p' -> Matches (Alt a b) p p'
| M_Star_stop g a p : Matches (Star g a) p p
| M_Star_turn g a p p' p'' :
    Matches a p p' ->
    (length (ahead p') < length (ahead p))%nat ->
    Matches (Star g a) p' p'' ->
    Matches (Star g a) p p''
| M_Look a p p' : Matches a p p' -> Matches (Look a) p p
| M_Bol a : Matches Bol {| behind := []; ahead := a |} {| behind := []; ahead := a |}
| M_Eol p : ahead p = [] \/ ahead p = [10] -> Matches Eol p p
| M_WordB w p :
    xorb (match behind p with c :: _ => w c | [] => false end)
         (match ahead p with c :: _ => w c | [] => false end) = true ->
    Matches (WordB w) p p.

(** A pattern without assertions: whether it matches a piece of text does
    not depend on the text around the piece. *)
Fixpoint context_free (r : regex) : bool :=
  match r with
  | Chr _ | Eps => true
  | Seq a b | Alt a b => context_free a && context_free b
  | Star _ a => context_free a
  | Look _ | Bol | Eol | WordB _ => false
  end.

End Re.

(** * The two miners *)
Module Miners.
Import Re.
Section Patterns.
Context `{UnicodeData} `{RegexData}.

(** [\w], [\d] and the dot without DOTALL. *)
Definition is_word (c : N) : bool := is_alnum c || (c =? 95).
Definition is_digit (c : N) : bool :=
  match to_decimal c with Some _ => true | None => false end.
Definition not_newline (c : N) : bool := negb (c =? 10).

(** The code points that IGNORECASE adds to a lower-case letter that no
    lower-case mapping reaches: the dotless i and the long s. *)
Definition ignorecase_fixes (lo : N) : list N :=
  if lo =? 0x69 then [0x131] else if lo =? 0x73 then [0x17f] else [].

(** A literal code point of a pattern compiled with IGNORECASE: an ASCII
    letter matches the code points whose lower case is its own, or one of
    its fixes; any other ASCII code point matches itself. *)
Definition ci (ch : N) (c : N) : bool :=
  if in_ascii 65 90 ch || in_ascii 97 122 ch then
    let lo := lower_ascii ch in
    let l := sre_lower c in
    (l =? lo) || existsb (N.eqb l) (ignorecase_fixes lo)
  else c =? ch.

(** A literal word under IGNORECASE. *)
Definition word (s : string) : regex :=
  fold_right (fun ch r => Seq (Chr (ci ch)) r) Eps (lit s).

(** [[A-Za-z0-9]] under IGNORECASE: the lower case is a letter, a digit, or
    a fix of a letter. *)
Definition alnum_ci (c : N) : bool :=
  let l := sre_lower c in
  in_ascii 97 122 l || in_ascii 48 57 l || (l =? 0x131) || (l =? 0x17f).

Definition spaces : regex := Star true (Chr is_space).

(** [(?:PRIORITY|MEDIUM|HIGH|LOW|STATUS|ZONE)]. *)
Definition KEYWORD : regex :=
  Alt (word "PRIORITY")
    (Alt (word "MEDIUM")
       (Alt (word "HIGH") (Alt (word "LOW") (Alt (word "STATUS") (word "ZONE"))))).

(** [RE_WO_ANY] under IGNORECASE: what stands before the group, [\bWO\s+],
    and the group, [[A-Za-z0-9]+] followed by any number of
    [\s*[-/]\s*\d+]. *)
Definition WO_HEAD : regex :=
  Seq (WordB is_word) (Seq (word "WO") (plus (Chr is_space))).

Definition WO_GROUP : regex :=
  Seq (plus (Chr alnum_ci))
    (Star true
       (Seq spaces
          (Seq (Chr (one_of (lit "-/"))) (Seq spaces (plus (Chr is_digit)))))).

(** [RE_WO_ANY.search(text)]: [m.group(1)] of the match, if any. *)
Definition RE_WO_ANY (text : ustring) : option ustring :=
  search WO_HEAD text
    (fun _ p1 => run WO_GROUP p1 (fun p2 => Some (between p1 p2))).

(** [\bWO\b.*?(?=\s+(?:PRIORITY|MEDIUM|HIGH|LOW|STATUS|ZONE)\b|$)] under
    IGNORECASE. *)
Definition WO_LINE : regex :=
  Seq (WordB is_word)
    (Seq (word "WO")
       (Seq (WordB is_word)
          (Seq (Star false (Chr not_newline))
             (Look (Alt (Seq (plus (Chr is_space)) (Seq KEYWORD (WordB is_word)))
                        Eol))))).

(** [m2.group(0)] of the search for the pattern above. *)
Definition wo_line (text : ustring) : option ustring :=
  search WO_LINE text (fun p0 p1 => Some (between p0 p1)).

Definition wo_from_name (text : ustring) : ustring :=
  if is_nil text then []
  else
    match RE_WO_ANY text with
    | Some g => lit "WO " ++ strip g
    | None =>
        match wo_line text with
        | Some g0 =>
            match RE_WO_ANY g0 with
            | Some g => lit "WO " ++ strip g
            | None => strip g0
            end
        | None => []
        end
    end.

(** [(?:client|cliente)\s*[:\-]\s*], and the group [[^\r\n]+] after it. *)
Definition CLIENT_LABEL : regex :=
  Seq (Alt (word "client") (word "cliente"))
    (Seq spaces (Seq (Chr (one_of (lit ":-"))) spaces)).

Definition CLIENT_GROUP : regex := plus (Chr (none_of [13; 10])).

(** [(?:^|\r?\n)\s*]. *)
Definition LINE_START : regex :=
  Seq (Alt Bol (Seq (opt (Chr (N.eqb 13))) (Chr (N.eqb 10)))) spaces.

(** [m.group(1)] of the search for a pattern followed by the group. *)
Definition search_client (head : regex) (blob : ustring) : option ustring :=
  search head blob
    (fun _ p1 => run CLIENT_GROUP p1 (fun p2 => Some (between p1 p2))).

(** [\s+(?:PRIORITY|MEDIUM|HIGH|LOW|STATUS|ZONE)\b] under IGNORECASE. *)
Definition KEYWORD_CUT : regex :=
  Seq (plus (Chr is_space)) (Seq KEYWORD (WordB is_word)).

Definition parse_client_from_text (name notes : ustring) : ustring :=
  let blob := name ++ 10 :: notes in
  let m :=
    match search_client (Seq LINE_START CLIENT_LABEL) blob with
    | Some g => Some g
    | None => search_client CLIENT_LABEL blob
    end in
  match m with
  | Some g =>
      let val := strip g in
      let val := sub (two_or_more (Chr is_space)) (lit " ") val in
      let val := split_first KEYWORD_CUT val in
      strip_chars (lit " -:;|") val
  | None => []
  end.

End Patterns.

(** The tables of the excerpt for the matcher: the lower-case mapping and
    the alphanumeric code points of U+0000..U+00FF, and the four code points
    above them that IGNORECASE relates to ASCII letters. Any other code
    point is taken as its own lower case and as not alphanumeric. *)
Definition lower_simple (c : N) : N :=
  if c =? 0x130 then 0x69
  else if c =? 0x212a then 0x6b
  else Excerpt.lower_of c.

Definition alnum (c : N) : bool :=
  Excerpt.in_range 0x30 0x39 c || Excerpt.in_range 0x41 0x5a c
  || Excerpt.in_range 0x61 0x7a c || (c =? 0xaa) || Excerpt.in_range 0xb2 0xb3 c
  || (c =? 0xb5) || Excerpt.in_range 0xb9 0xba c || Excerpt.in_range 0xbc 0xbe c
  || Excerpt.in_range 0xc0 0xd6 c || Excerpt.in_range 0xd8 0xf6 c
  || Excerpt.in_range 0xf8 0xff c
  || (c =? 0x130) || (c =? 0x131) || (c =? 0x17f) || (c =? 0x212a).

#[export] Instance data : RegexData := {|
  sre_lower := lower_simple;
  is_alnum := alnum;
|}.

End Miners.

(** A task without custom fields, with the order number in its name and the
    client in its notes. *)
Definition mined_task : task := {|
  t_gid := Some (lit "9");
  t_name := Some (lit "wo 77 pump station");
  t_notes := Some (lit "Client: Beta  Corp PRIORITY High");
  t_permalink_url := None;
  t_created_at := None;
  t_modified_at := None;
  t_memberships := [Sample.in_section (lit "1") (lit "SCHEDULED")];
  t_custom_fields := [];
|}.
(** * Properties *)

(** ** Substrings *)

Lemma startswith_spec (p s : ustring) :
  startswith p s = true <-> exists suf, s = p ++ suf.
Proof.
  revert s. induction p as [|a p IH]; intros s; simpl.
  - split; [intros _; by exists s | done].
  - destruct s as [|b s].
    + split; [done | intros [suf E]; discriminate E].
    + rewrite andb_true_iff, N.eqb_eq, IH. split.
      * intros [-> [suf ->]]. by exists suf.
      * intros [suf E]. injection E as -> ->. split; [done | by exists suf].
Qed.

Lemma contains_spec (p s : ustring) :
  contains p s = true <-> substring p s.
Proof.
  unfold substring. induction s as [|b s IH]; simpl.
  - rewrite orb_false_r, startswith_spec. split.
    + intros [suf E]. by exists [], suf.
    + intros (pre & suf & E). destruct pre; [by exists suf | discriminate E].
  - rewrite orb_true_iff, startswith_spec, IH. split.
    + intros [[suf E] | (pre & suf & E)].
      * by exists [], suf.
      * exists (b :: pre), suf. by rewrite E.
    + intros (pre & suf & E). destruct pre as [|c pre].
      * left. by exists suf.
      * right. injection E as -> E. by exists pre, suf.
Qed.

Lemma contains_false (p s : ustring) :
  contains p s = false <-> ~ substring p s.
Proof. rewrite <- contains_spec. by destruct (contains p s). Qed.

(** ** The alias resolver *)
Section Aliases.
Context `{UnicodeData}.

Lemma alias_hit_spec (n : ustring) (alias_set : gset (list N)) :
  _alias_hit n alias_set = true <->
  n ∈ alias_set \/ exists a, a ∈ alias_set /\ substring a n.
Proof.
  unfold _alias_hit.
  rewrite orb_true_iff, bool_decide_eq_true, existsb_exists.
  split; (intros [Hin | (a & Ha & Hsub)]; [by left | right; exists a]).
  - apply list_elem_of_In, elem_of_elements in Ha.
    by apply contains_spec in Hsub.
  - split; [by apply list_elem_of_In, elem_of_elements | by apply contains_spec].
Qed.

Lemma find_first_spec {A} (f : A -> bool) (l : list A) (x : A) :
  List.find f l = Some x <->
  exists before after,
    l = before ++ x :: after /\ f x = true /\ Forall (fun y => f y = false) before.
Proof.
  induction l as [|a l IH]; simpl.
  - split; [done | intros (b & c & E & _)]. by destruct b.
  - destruct (f a) eqn:Ha.
    + split.
      * intros [= ->]. by exists [], l.
      * intros (b & c & E & Hx & Hb). destruct b as [|y b].
        -- by injection E as ->.
        -- injection E as -> _. apply Forall_cons in Hb as [Hb _]. congruence.
    + rewrite IH. split.
      * intros (b & c & -> & Hx & Hb). exists (a :: b), c. by repeat split; [|constructor].
      * intros (b & c & E & Hx & Hb). destruct b as [|y b].
        -- injection E as -> _. congruence.
        -- injection E as -> ->. apply Forall_cons in Hb as [_ Hb]. by exists b, c.
Qed.

Lemma extract_field_resolved (out : fields) (cf : custom_field) :
  extract_field out cf =
  match resolved (normalize_upper (Some (or_empty (cf_name cf)))) with
  | Some k => assign k cf out
  | None => out
  end.
Proof.
  unfold extract_field, resolved, field_keys. cbn [List.find].
  generalize (normalize_upper (Some (or_empty (cf_name cf)))). intros n.
  repeat
    match goal with
    | |- context [_alias_hit n (FIELD_ALIASES ?k)] =>
        generalize (_alias_hit n (FIELD_ALIASES k));
        let b := fresh "b" in intros b; destruct b; [reflexivity|]
    end.
  reflexivity.
Qed.

Lemma assign_other (k k' : field_key) (cf : custom_field) (out : fields) :
  k <> k' -> get k' (assign k cf out) = get k' out.
Proof. destruct k, k'; intros Hne; try reflexivity; by destruct Hne. Qed.

(** C5. A normalised label hits a canonical key exactly when it is one of
    the key's aliases or one of them occurs in it; and the loop body stores a
    custom field under at most one key, the first key of the enumeration
    [field_keys] whose aliases hit: every other entry of the dictionary is
    left as it was. *)
Theorem alias_resolution (out : fields) (cf : custom_field) :
  let n := normalize_upper (Some (or_empty (cf_name cf))) in
  (forall k (label : ustring),
     _alias_hit label (FIELD_ALIASES k) = true <->
     label ∈ FIELD_ALIASES k \/
     exists a, a ∈ FIELD_ALIASES k /\ substring a label)
  /\ (forall k,
        resolved n = Some k <->
        exists before after,
          field_keys = before ++ k :: after
          /\ _alias_hit n (FIELD_ALIASES k) = true
          /\ Forall (fun k' => _alias_hit n (FIELD_ALIASES k') = false) before)
  /\ extract_field out cf =
     match resolved n with
     | Some k => assign k cf out
     | None => out
     end
  /\ (forall k k', k <> k' -> get k' (assign k cf out) = get k' out)
  /\ (forall k', resolved n <> Some k' -> get k' (extract_field out cf) = get k' out).
Proof.
  intros n.
  split; [intros k label; apply alias_hit_spec|].
  split; [intros k; apply (find_first_spec (fun k => _alias_hit n (FIELD_ALIASES k)))|].
  split; [apply extract_field_resolved|].
  split; [intros k k'; apply assign_other|].
  intros k' Hk'. rewrite extract_field_resolved. fold n.
  destruct (resolved n) as [k|]; [|reflexivity].
  apply assign_other. congruence.
Qed.

End Aliases.

(** ** The fee table *)
Section Fees.
Context `{UnicodeData}.

(** C7. The lookup upper-cases the client and the type; for a client of the
    table it returns the fraction of the type when the client has one, else
    the client's fraction under ANY when it has one, else zero; for any
    other client it returns zero. *)
Theorem fee_lookup (fees_map : gmap (list N) (gmap (list N) float))
    (client ttype : ustring) :
  let c := upper client in
  let tt := upper ttype in
  (fees_map !! c = None -> get_fee_pct fees_map client ttype = 0%float)
  /\ (forall types, fees_map !! c = Some types ->
        (forall pct, types !! tt = Some pct ->
           get_fee_pct fees_map client ttype = pct)
        /\ (forall pct, types !! tt = None -> types !! lit "ANY" = Some pct ->
              get_fee_pct fees_map client ttype = pct)
        /\ (types !! tt = None -> types !! lit "ANY" = None ->
              get_fee_pct fees_map client ttype = 0%float)).
Proof.
  intros c tt. unfold get_fee_pct. fold c tt. split.
  - by intros ->.
  - intros types ->. repeat split.
    + by intros pct ->.
    + by intros pct -> ->.
    + by intros -> ->.
Qed.

End Fees.

(** ** Dates *)

Lemma date_ltb_spec (a b : date) : date_ltb a b = true <-> date_lt a b.
Proof.
  unfold date_ltb, date_lt.
  rewrite !orb_true_iff, !andb_true_iff, !orb_true_iff, !andb_true_iff,
    !N.ltb_lt, !N.eqb_eq.
  tauto.
Qed.

(** ** The inclusion filter *)
Section Filter.
Context `{UnicodeData}.
Variable dateutil_parse : bool -> list N -> option date.
Variable parse_client_from_text : list N -> list N -> list N.
Variable wo_from_name : list N -> list N.

Lemma ignored_section_spec (section : ustring) :
  ignored_section section = true <->
  substring (lit "TRASH") (normalize_upper (Some section))
  \/ substring (lit "ARCHIVE") (normalize_upper (Some section)).
Proof.
  unfold ignored_section, IGNORED_SECTION_TOKENS. cbn [existsb].
  rewrite orb_false_r, orb_true_iff, !contains_spec. tauto.
Qed.

Lemma last_touched_eq (t : task) :
  or_empty (por (t_modified_at t) (t_created_at t)) = last_touched t.
Proof.
  unfold last_touched, por, truthy. by destruct (t_modified_at t) as [[|c s]|].
Qed.

(** C4. A task whose normalised section contains TRASH or ARCHIVE yields
    no row, whatever the cutoff. Otherwise, with a cutoff date and a
    normalised section that contains DONE or CANCEL, the task yields no row
    exactly when the date of its modification time stamp (of its creation
    time stamp when that one is missing) parses and is strictly earlier than
    the cutoff. In every other case the task yields a row. *)
Theorem inclusion_filter (pgid pname project_zone ttype : ustring)
    (cutoff_date : option date)
    (fees_map : gmap (list N) (gmap (list N) float)) (t : task) :
  let section := section_in pgid (t_memberships t) in
  let norm := normalize_upper (Some section) in
  let emitted :=
    task_row dateutil_parse parse_client_from_text wo_from_name
      pgid pname project_zone ttype cutoff_date fees_map t in
  let ignored := substring (lit "TRASH") norm \/ substring (lit "ARCHIVE") norm in
  let closed := substring (lit "DONE") norm \/ substring (lit "CANCEL") norm in
  (ignored -> emitted = None)
  /\ (~ ignored -> forall cutoff, cutoff_date = Some cutoff -> closed ->
        (emitted = None <->
         exists d, dateutil_parse false (last_touched t) = Some d /\ date_lt d cutoff))
  /\ (~ ignored -> cutoff_date = None \/ ~ closed -> is_Some emitted).
Proof.
  intros section norm emitted ignored closed.
  assert (Hign : ignored_section section = true <-> ignored)
    by apply ignored_section_spec.
  assert (Hclosed :
            contains (lit "DONE") norm || contains (lit "CANCEL") norm = true
            <-> closed)
    by (rewrite orb_true_iff, !contains_spec; reflexivity).
  subst emitted. unfold task_row. fold section.
  destruct (ignored_section section) eqn:Ei.
  - split; [done|]. split; intros Hn; destruct Hn; by apply Hign.
  - assert (Hnot : ~ ignored) by (rewrite <- Hign; discriminate).
    split; [done|].
    unfold before_cutoff. fold norm. rewrite last_touched_eq. split.
    + intros _ cutoff -> Hc. apply Hclosed in Hc. rewrite Hc.
      destruct (dateutil_parse false (last_touched t)) as [d|].
      * destruct (date_ltb d cutoff) eqn:Ed.
        -- split; [intros _|done]. exists d. split; [done|]. by apply date_ltb_spec.
        -- split; [done|]. intros (d' & [= <-] & Hlt).
           apply date_ltb_spec in Hlt. congruence.
      * split; [done|]. by intros (d' & Hd & _).
    + intros _ [-> | Hc]; [done|].
      destruct cutoff_date as [cutoff|]; [|done].
      destruct (contains (lit "DONE") norm || contains (lit "CANCEL") norm) eqn:Ec;
        [|done].
      destruct Hc. by apply Hclosed.
Qed.

End Filter.

(** ** Binary64 numbers *)

Lemma iter_pos_invariant {A} (f : A -> A) (P : A -> Prop) :
  (forall x, P x -> P (f x)) ->
  forall p x, P x -> P (SpecFloat.iter_pos f p x).
Proof.
  intros Hf p. induction p as [p IH|p IH|]; intros x Hx; simpl; auto.
Qed.

Lemma shr_1_nonneg mrs : (0 <= shr_m mrs -> 0 <= shr_m (shr_1 mrs))%Z.
Proof.
  destruct mrs as [m r s]. destruct m as [|[p|p|]|p]; simpl; lia.
Qed.

Lemma shr_nonneg mrs e n : (0 <= shr_m mrs -> 0 <= shr_m (fst (shr mrs e n)))%Z.
Proof.
  intros Hm. unfold shr. destruct n; simpl; auto.
  apply iter_pos_invariant; auto using shr_1_nonneg.
Qed.

Lemma shr_fexp_nonneg m e l :
  (0 <= m -> 0 <= shr_m (fst (shr_fexp prec emax m e l)))%Z.
Proof.
  intros Hm. unfold shr_fexp. apply shr_nonneg.
  destruct l as [|[]]; simpl; lia.
Qed.

Lemma round_nearest_even_nonneg m l :
  (0 <= m -> 0 <= round_nearest_even m l)%Z.
Proof.
  intros Hm. unfold round_nearest_even.
  destruct l as [|[]]; try lia. destruct (Z.even m); lia.
Qed.

(** Rounding a non-negative mantissa never gives NaN. *)
Lemma binary_round_aux_not_nan sx mx ex lx :
  (0 <= mx)%Z -> binary_round_aux prec emax sx mx ex lx <> S754_nan.
Proof.
  intros Hm. unfold binary_round_aux.
  pose proof (shr_fexp_nonneg mx ex lx Hm) as H1.
  destruct (shr_fexp prec emax mx ex lx) as [mrs' e']. simpl in H1.
  pose proof (shr_fexp_nonneg _ e' loc_Exact
                (round_nearest_even_nonneg _ (loc_of_shr_record mrs') H1)) as H2.
  destruct (shr_fexp prec emax _ e' loc_Exact) as [mrs'' e'']. simpl in H2.
  destruct (shr_m mrs'') as [|m|m]; try lia; try discriminate.
  destruct (e'' <=? emax - prec)%Z; discriminate.
Qed.

Lemma SFdiv_finite_not_nan sx mx ex sy my ey :
  SFdiv prec emax (S754_finite sx mx ex) (S754_finite sy my ey) <> S754_nan.
Proof.
  unfold SFdiv, SFdiv_core_binary.
  set (m' := match _ with Z0 => _ | Zpos _ => _ | Zneg _ => _ end).
  assert (Hm' : (0 <= m')%Z).
  { subst m'. destruct (_ - _ - _)%Z; try lia. apply Z.shiftl_nonneg. lia. }
  pose proof (Z.div_eucl_eq m' (Zpos my) ltac:(lia)) as E.
  pose proof (Z.mod_pos_bound m' (Zpos my) ltac:(lia)) as B.
  unfold Z.modulo in B.
  destruct (Z.div_eucl m' (Zpos my)) as [q r].
  apply binary_round_aux_not_nan. nia.
Qed.

Lemma SFcompare_refl s : s <> S754_nan -> SFcompare s s = Some Eq.
Proof.
  destruct s as [b|b| |b m e]; intros N; try done; destruct b; simpl;
    by rewrite ?Z.compare_refl, ?Pos.compare_cont_refl.
Qed.

Lemma is_nan_false x : is_nan x = false <-> Prim2SF x <> S754_nan.
Proof.
  unfold is_nan. rewrite FloatAxioms.eqb_spec. unfold SFeqb. split.
  - intros E N. rewrite N in E. discriminate E.
  - intros N. by rewrite SFcompare_refl.
Qed.

Lemma is_finite_cases x :
  is_finite x = true ->
  (exists s, Prim2SF x = S754_zero s)
  \/ (exists s m e, Prim2SF x = S754_finite s m e).
Proof.
  unfold is_finite, is_infinity, is_nan.
  rewrite !FloatAxioms.eqb_spec, abs_spec.
  change (Prim2SF infinity) with (S754_infinity false).
  destruct (Prim2SF x) as [s|s| |s m e]; intros Hf.
  - left. eauto.
  - destruct s; discriminate Hf.
  - discriminate Hf.
  - right. eauto.
Qed.

(** A finite number divided by a finite number other than zero is a
    number. *)
Lemma div_not_nan (p n : float) :
  is_finite p = true -> is_finite n = true -> (n =? 0)%float = false ->
  is_nan (p / n) = false.
Proof.
  intros Hp Hn Hz. apply is_nan_false. rewrite div_spec.
  rewrite FloatAxioms.eqb_spec in Hz.
  change (Prim2SF 0) with (S754_zero false) in Hz.
  destruct (is_finite_cases n Hn) as [[s En]|(s & m & e & En)]; rewrite En in *.
  - discriminate Hz.
  - destruct (is_finite_cases p Hp) as [[s' Ep]|(s' & m' & e' & Ep)]; rewrite Ep.
    + discriminate.
    + apply SFdiv_finite_not_nan.
Qed.

(** ** Emitted rows *)
Section Rows.
Context `{UnicodeData}.
Variable dateutil_parse : bool -> list N -> option date.
Variable parse_client_from_text : list N -> list N -> list N.
Variable wo_from_name : list N -> list N.
Variable fetch_project_tasks : list N -> result (list task).

Lemma extract_field_other (k : field_key) (out : fields) (cf : custom_field) :
  resolved (label cf) <> Some k -> get k (extract_field out cf) = get k out.
Proof.
  intros Hk. rewrite extract_field_resolved. fold (label cf).
  destruct (resolved (label cf)) as [k'|]; [|reflexivity].
  apply assign_other. congruence.
Qed.

Lemma fold_extract_absent (k : field_key) (l : list custom_field) (out : fields) :
  Forall (fun cf => resolved (label cf) <> Some k) l ->
  get k (fold_left extract_field l out) = get k out.
Proof.
  revert out. induction l as [|cf l IH]; intros out Hl; [reflexivity|].
  apply Forall_cons in Hl as [Hcf Hl]. simpl.
  rewrite IH by assumption. by apply extract_field_other.
Qed.

Lemma extract_fields_other (k : field_key) (t : task) :
  k <> k_wo_number ->
  get k (extract_fields wo_from_name t) =
  get k (fold_left extract_field (t_custom_fields t) initial_fields).
Proof.
  intros Hk. unfold extract_fields.
  destruct (is_nil _); [|reflexivity].
  destruct k; try reflexivity. by destruct Hk.
Qed.

Lemma extract_fields_absent (k : field_key) (t : task) :
  k <> k_wo_number -> absent k t ->
  get k (extract_fields wo_from_name t) = get k initial_fields.
Proof.
  intros Hk Ha. rewrite extract_fields_other by assumption.
  by apply fold_extract_absent.
Qed.

Lemma task_fields_other (k : field_key) (project_zone : ustring) (t : task) :
  k <> k_zone -> k <> k_client ->
  get k (task_fields parse_client_from_text wo_from_name project_zone t) =
  get k (extract_fields wo_from_name t).
Proof.
  intros Hz Hc. unfold task_fields.
  set (cf := extract_fields wo_from_name t).
  assert (E : get k (if is_nil (zone cf) then set_zone project_zone cf else cf)
              = get k cf).
  { destruct (is_nil (zone cf)); [|reflexivity].
    destruct k; try reflexivity. by destruct Hz. }
  destruct (is_nil (client _)); [|exact E].
  destruct (is_nil (parse_client_from_text _ _)); [exact E|].
  rewrite <- E. destruct k; try reflexivity. by destruct Hc.
Qed.

(** X2. Every row of the data frame is the row the loop body computes for
    a task fetched for one of the projects, with the zone and the type of
    that project. *)
Lemma emitted_row_origin (token : ustring) (projects : list project)
    (done_cutoff : ustring) (fees_map : gmap (list N) (gmap (list N) float))
    (rows : list row) (r : row) :
  build_dataframe dateutil_parse parse_client_from_text wo_from_name
    fetch_project_tasks token projects done_cutoff fees_map = Ok rows ->
  In r rows ->
  exists p project_zone tasks t,
    In p projects
    /\ zone_from_project (p_name p) = Ok project_zone
    /\ fetch_project_tasks (p_gid p) = Ok tasks
    /\ In t tasks
    /\ task_row dateutil_parse parse_client_from_text wo_from_name
         (p_gid p) (p_name p) project_zone (type_of_project (p_name p))
         (cutoff_of dateutil_parse done_cutoff) fees_map t = Some r.
Proof.
  unfold build_dataframe. destruct (is_nil token); [discriminate|].
  generalize (cutoff_of dateutil_parse done_cutoff). intros cutoff.
  revert rows. induction projects as [|p ps IH]; intros rows; simpl.
  - intros [= <-] [].
  - unfold project_rows at 1.
    destruct (zone_from_project (p_name p)) as [z|] eqn:Ez; [|discriminate].
    simpl.
    destruct (fetch_project_tasks (p_gid p)) as [tasks|] eqn:Et; [|discriminate].
    simpl.
    destruct (all_rows _ _ _ _ _ _ ps) as [rest|] eqn:Er; [|discriminate].
    simpl. intros [= <-] Hin. apply in_app_or in Hin as [Hin|Hin].
    + apply list_elem_of_In, list_elem_of_omap in Hin as (t & Ht & Hr).
      exists p, z, tasks, t. apply list_elem_of_In in Ht. by repeat split; [left|..].
    + destruct (IH rest eq_refl Hin) as (p' & z' & ts' & t' & Hp & ?).
      exists p', z', ts', t'. by split; [right|].
Qed.
End Rows.

(** ** Derived fields *)
Section Derived.
Context `{UnicodeData}.
Variable dateutil_parse : bool -> list N -> option date.
Variable parse_client_from_text : list N -> list N -> list N.
Variable wo_from_name : list N -> list N.

Lemma task_row_Some (pgid pname project_zone ttype : ustring)
    (cutoff_date : option date)
    (fees_map : gmap (list N) (gmap (list N) float)) (t : task) (r : row) :
  task_row dateutil_parse parse_client_from_text wo_from_name
    pgid pname project_zone ttype cutoff_date fees_map t = Some r ->
  r = make_row dateutil_parse pname ttype (section_in pgid (t_memberships t))
        fees_map t
        (task_fields parse_client_from_text wo_from_name project_zone t).
Proof.
  unfold task_row.
  destruct (ignored_section _); [discriminate|].
  destruct (before_cutoff _ _ _ _); [discriminate|].
  by intros [= <-].
Qed.

(** C3 (as amended). In every row the loop body appends: the approved
    value and the two costs are the extracted numbers, zero when no custom
    field supplies them (their sign is not checked); the net value is the
    approved value times one minus the fee fraction of the table; the total
    cost is the sum of the two costs; the profit is the net value minus the
    total cost; the profit ratio is zero when the net value is zero and
    profit over net value otherwise, and it is a number (not NaN) whenever
    net value and profit are finite. *)
Theorem derived_fields (pgid pname project_zone ttype : ustring)
    (cutoff_date : option date)
    (fees_map : gmap (list N) (gmap (list N) float)) (t : task) (r : row) :
  task_row dateutil_parse parse_client_from_text wo_from_name
    pgid pname project_zone ttype cutoff_date fees_map t = Some r ->
  let cf := extract_fields wo_from_name t in
  let fee_fraction := get_fee_pct fees_map (Client r) ttype in
  let net := Valor_Aprobado_Real r in
  let profit := Utilidad_USD r in
  (Approved_Value r = or_zero (approved_value cf)
   /\ (absent k_approved_value t -> Approved_Value r = 0)
   /\ Gasto_Materiales r = or_zero (Some (materials_cost cf))
   /\ (absent k_materials_cost t -> Gasto_Materiales r = 0)
   /\ Gasto_Labor r = or_zero (Some (labor_cost cf))
   /\ (absent k_labor_cost t -> Gasto_Labor r = 0)
   /\ net = Approved_Value r * (1 - fee_fraction)
   /\ Gastos_Total r = Gasto_Materiales r + Gasto_Labor r
   /\ profit = net - Gastos_Total r
   /\ ((net =? 0) = true -> Utilidad_Pct r = 0)
   /\ ((net =? 0) = false -> Utilidad_Pct r = profit / net)
   /\ (is_finite net = true -> is_finite profit = true ->
       is_nan (Utilidad_Pct r) = false))%float.
Proof.
  intros Hr cf fee_fraction net profit. apply task_row_Some in Hr.
  subst net profit fee_fraction. subst r. cbn [Approved_Value Gasto_Materiales
    Gasto_Labor Valor_Aprobado_Real Gastos_Total Utilidad_USD Utilidad_Pct
    Client make_row].
  set (tf := task_fields parse_client_from_text wo_from_name project_zone t).
  assert (Ea : approved_value tf = approved_value cf).
  { assert (E := task_fields_other parse_client_from_text wo_from_name
                   k_approved_value project_zone t ltac:(done) ltac:(done)).
    by injection E. }
  assert (Em : materials_cost tf = materials_cost cf).
  { assert (E := task_fields_other parse_client_from_text wo_from_name
                   k_materials_cost project_zone t ltac:(done) ltac:(done)).
    by injection E. }
  assert (El : labor_cost tf = labor_cost cf).
  { assert (E := task_fields_other parse_client_from_text wo_from_name
                   k_labor_cost project_zone t ltac:(done) ltac:(done)).
    by injection E. }
  rewrite Ea, Em, El.
  split; [reflexivity|].
  split.
  { intros Ha.
    assert (E := extract_fields_absent wo_from_name k_approved_value t
                   ltac:(done) Ha).
    injection E as E. fold cf in E. by rewrite E. }
  split; [reflexivity|].
  split.
  { intros Ha.
    assert (E := extract_fields_absent wo_from_name k_materials_cost t
                   ltac:(done) Ha).
    injection E as E. fold cf in E. by rewrite E. }
  split; [reflexivity|].
  split.
  { intros Ha.
    assert (E := extract_fields_absent wo_from_name k_labor_cost t
                   ltac:(done) Ha).
    injection E as E. fold cf in E. by rewrite E. }
  split; [reflexivity|].
  split; [reflexivity|].
  split; [reflexivity|].
  split; [by intros ->|].
  split; [by intros ->|].
  intros Hn Hp.
  destruct (_ =? 0)%float eqn:Ez; [reflexivity|].
  by apply div_not_nan.
Qed.

(** C10. In every row the loop body appends, the paid flag is true exactly
    when the extracted [paid_flag] is true or the extracted [paid_date] is
    not empty; so a task whose fields give no true paid flag and a payment
    date is reported as paid. *)
Theorem paid_flag_or_date (pgid pname project_zone ttype : ustring)
    (cutoff_date : option date)
    (fees_map : gmap (list N) (gmap (list N) float)) (t : task) (r : row) :
  task_row dateutil_parse parse_client_from_text wo_from_name
    pgid pname project_zone ttype cutoff_date fees_map t = Some r ->
  let cf := extract_fields wo_from_name t in
  (Paid r = true <-> paid_flag cf = true \/ paid_date cf <> [])
  /\ (paid_flag cf = false -> paid_date cf <> [] -> Paid r = true).
Proof.
  intros Hr cf. apply task_row_Some in Hr. subst r. cbn [Paid make_row].
  set (tf := task_fields parse_client_from_text wo_from_name project_zone t).
  assert (Ef : paid_flag tf = paid_flag cf).
  { assert (E := task_fields_other parse_client_from_text wo_from_name
                   k_paid_flag project_zone t ltac:(done) ltac:(done)).
    by injection E. }
  assert (Ed : paid_date tf = paid_date cf).
  { assert (E := task_fields_other parse_client_from_text wo_from_name
                   k_paid_date project_zone t ltac:(done) ltac:(done)).
    by injection E. }
  rewrite Ef, Ed.
  assert (Hnil : negb (is_nil (paid_date cf)) = true <-> paid_date cf <> [])
    by (by destruct (paid_date cf)).
  split.
  - rewrite orb_true_iff. tauto.
  - intros _ Hd. rewrite orb_true_iff. tauto.
Qed.

End Derived.

(** ** The sample inputs *)
Section Samples.
Import Sample.
#[local] Existing Instance Excerpt.data.

(** C1 (as amended). For the project with gid 1 and name "Zone North (WO)",
    holding one task in section SCHEDULED with the custom fields
    CLIENTE = "Acme", VALOR APROBADO = 1000, GASTO MATERIALES = 200 and
    GASTO LABOR = 100, the fee table with 0.1 for ACME and WO, and no
    cutoff, the pipeline emits exactly one row; its zone is "(WO)", the last
    word of the project name, its type "WO", its client "Acme", its approved
    value 1000, its net approved value 900, its profit 600 and its logical
    status "Scheduled". This holds whatever the other attributes of the
    task, the miners, the date parser and the (non-empty) token are. *)
Theorem end_to_end_example
    (dateutil_parse : bool -> list N -> option date)
    (parse_client_from_text : list N -> list N -> list N)
    (wo_from_name : list N -> list N)
    (c : N) (token : list N)
    (gid name notes url created modified : option (list N)) :
  let r := acme_row wo_from_name gid name url created modified in
  build_dataframe dateutil_parse parse_client_from_text wo_from_name
    (only (acme_task gid name notes url created modified))
    (c :: token) [north] [] acme_fees = Ok [r]
  /\ Zone r = lit "(WO)"
  /\ Type_ r = lit "WO"
  /\ Client r = lit "Acme"
  /\ Approved_Value r = 1000%float
  /\ Valor_Aprobado_Real r = 900%float
  /\ Utilidad_USD r = 600%float
  /\ Logical_Status r = lit "Scheduled".
Proof.
  intros r. split; [|by repeat split].
  vm_compute. reflexivity.
Qed.

(** The zone of the row of the end-to-end example is not "North". *)
Lemma end_to_end_zone :
  exists r,
    build_dataframe known_dates no_client no_wo
      (only (acme_task None None None None None None))
      (lit "token") [north] [] acme_fees = Ok [r]
    /\ Zone r = lit "(WO)"
    /\ Zone r <> lit "North".
Proof.
  exists (acme_row no_wo None None None None None).
  split; [vm_compute; reflexivity|]. split; [reflexivity|discriminate].
Qed.

(** A cost field holding -5 gives a row with a negative cost; an approved
    value that is infinite gives a row whose profit ratio is NaN. *)
Lemma negative_cost :
  task_row known_dates no_client no_wo (p_gid north) (p_name north)
    (lit "(WO)") (lit "WO") None acme_fees refund_task = Some refund_row
  /\ Gasto_Materiales refund_row = (-5)%float
  /\ (Gasto_Materiales refund_row <? 0)%float = true
  /\ (Gastos_Total refund_row <? 0)%float = true
  /\ task_row known_dates no_client no_wo (p_gid north) (p_name north)
       (lit "(WO)") (lit "WO") None acme_fees overflow_task = Some overflow_row
  /\ is_nan (Utilidad_Pct overflow_row) = true.
Proof. repeat split; vm_compute; reflexivity. Qed.

Lemma emitted_row_origin_witness :
  let t := acme_task None None None None None None in
  let r := acme_row no_wo None None None None None in
  build_dataframe known_dates no_client no_wo (only t) (lit "token") [north] []
    acme_fees = Ok [r]
  /\ exists p project_zone tasks t',
       In p [north]
       /\ zone_from_project (p_name p) = Ok project_zone
       /\ only t (p_gid p) = Ok tasks
       /\ In t' tasks
       /\ task_row known_dates no_client no_wo
            (p_gid p) (p_name p) project_zone (type_of_project (p_name p))
            (cutoff_of known_dates []) acme_fees t' = Some r.
Proof.
  intros t r.
  assert (Hb : build_dataframe known_dates no_client no_wo (only t)
                 (lit "token") [north] [] acme_fees = Ok [r])
    by (vm_compute; reflexivity).
  split; [exact Hb|].
  exact (emitted_row_origin known_dates no_client no_wo (only t) (lit "token")
           [north] [] acme_fees [r] r Hb (or_introl eq_refl)).
Defined.

Lemma derived_fields_witness :
  let t := acme_task None None None None None None in
  let r := acme_row no_wo None None None None None in
  task_row known_dates no_client no_wo (p_gid north) (p_name north)
    (lit "(WO)") (lit "WO") None acme_fees t = Some r
  /\ let cf := extract_fields no_wo t in
     let fee_fraction := get_fee_pct acme_fees (Client r) (lit "WO") in
     let net := Valor_Aprobado_Real r in
     let profit := Utilidad_USD r in
     (Approved_Value r = or_zero (approved_value cf)
      /\ (absent k_approved_value t -> Approved_Value r = 0)
      /\ Gasto_Materiales r = or_zero (Some (materials_cost cf))
      /\ (absent k_materials_cost t -> Gasto_Materiales r = 0)
      /\ Gasto_Labor r = or_zero (Some (labor_cost cf))
      /\ (absent k_labor_cost t -> Gasto_Labor r = 0)
      /\ net = Approved_Value r * (1 - fee_fraction)
      /\ Gastos_Total r = Gasto_Materiales r + Gasto_Labor r
      /\ profit = net - Gastos_Total r
      /\ ((net =? 0) = true -> Utilidad_Pct r = 0)
      /\ ((net =? 0) = false -> Utilidad_Pct r = profit / net)
      /\ (is_finite net = true -> is_finite profit = true ->
          is_nan (Utilidad_Pct r) = false))%float.
Proof.
  intros t r.
  assert (Hr : task_row known_dates no_client no_wo (p_gid north) (p_name north)
                 (lit "(WO)") (lit "WO") None acme_fees t = Some r)
    by (vm_compute; reflexivity).
  split; [exact Hr|].
  exact (derived_fields known_dates no_client no_wo (p_gid north) (p_name north)
           (lit "(WO)") (lit "WO") None acme_fees t r Hr).
Defined.

Lemma paid_flag_or_date_witness :
  task_row known_dates no_client no_wo (p_gid north) (p_name north)
    (lit "(WO)") (lit "WO") None acme_fees paid_task = Some paid_row
  /\ paid_flag (extract_fields no_wo paid_task) = false
  /\ paid_date (extract_fields no_wo paid_task) = lit "01/02/2024"
  /\ Paid paid_row = true.
Proof.
  assert (Hr : task_row known_dates no_client no_wo (p_gid north) (p_name north)
                 (lit "(WO)") (lit "WO") None acme_fees paid_task
               = Some paid_row)
    by (vm_compute; reflexivity).
  split; [exact Hr|].
  split; [vm_compute; reflexivity|].
  split; [vm_compute; reflexivity|].
  apply (paid_flag_or_date known_dates no_client no_wo (p_gid north) (p_name north)
           (lit "(WO)") (lit "WO") None acme_fees paid_task paid_row Hr).
  - vm_compute; reflexivity.
  - vm_compute. discriminate.
Defined.

End Samples.

(** ** The money parser *)
Section Money.
Context `{UnicodeData}.

Lemma kept_by_money_class_spec (c : N) :
  kept_by_money_class c = true <-> In c money_class.
Proof.
  unfold kept_by_money_class. rewrite existsb_exists. split.
  - intros (x & Hx & E). apply N.eqb_eq in E. by subst.
  - intros Hc. exists c. split; [done | apply N.eqb_refl].
Qed.

Lemma money_class_cases (c : N) :
  In c money_class -> c = 92 \/ c = 100 \/ c = 44 \/ c = 46 \/ c = 45.
Proof. simpl. intuition. Qed.

Lemma money_text_filter (s : ustring) :
  money_text (List.filter kept_by_money_class s).
Proof.
  apply List.Forall_forall. intros c Hc.
  apply filter_In in Hc as [_ Hc]. by apply kept_by_money_class_spec.
Qed.

Lemma money_text_replace (r s : ustring) :
  money_text r -> money_text s -> money_text (replace_char comma r s).
Proof.
  intros Hr Hs. unfold money_text, replace_char.
  apply List.Forall_forall. intros c Hc.
  apply in_flat_map in Hc as (x & Hx & Hc).
  destruct (x =? comma).
  - by apply (proj1 (List.Forall_forall _ _) Hr).
  - destruct Hc as [<-|[]]. by apply (proj1 (List.Forall_forall _ _) Hs).
Qed.

Lemma money_text_lstrip (f : N -> bool) (s : ustring) :
  money_text s -> money_text (lstrip_by f s).
Proof.
  induction 1 as [|c s Hc Hs IH]; simpl; [constructor|].
  destruct (f c); [exact IH | by constructor].
Qed.

Lemma money_text_rev (s : ustring) : money_text s -> money_text (rev s).
Proof.
  intros Hs. apply List.Forall_forall. intros c Hc.
  apply in_rev in Hc. by apply (proj1 (List.Forall_forall _ _) Hs).
Qed.

Lemma money_text_strip (f : N -> bool) (s : ustring) :
  money_text s -> money_text (strip_by f s).
Proof.
  intros Hs. unfold strip_by, rstrip_by.
  by apply money_text_rev, money_text_lstrip, money_text_rev, money_text_lstrip.
Qed.

Lemma to_ascii_money (s : ustring) : money_text s -> to_ascii s = s.
Proof.
  induction 1 as [|c s Hc Hs IH]; simpl; [reflexivity|].
  rewrite IH.
  by destruct (money_class_cases c Hc) as [->|[->|[->|[->| ->]]]].
Qed.

Lemma drop_underscores_money (prev : N) (s : ustring) :
  prev <> 95 -> money_text s -> drop_underscores prev s = Some s.
Proof.
  intros Hp Hs. revert prev Hp.
  induction Hs as [|c s Hc Hs IH]; intros prev Hp; simpl.
  - by apply N.eqb_neq in Hp as ->.
  - apply N.eqb_neq in Hp. rewrite Hp.
    assert (Hc' : c <> 95)
      by (destruct (money_class_cases c Hc) as [->|[->|[->|[->| ->]]]]; done).
    rewrite (IH c Hc').
    by apply N.eqb_neq in Hc' as ->.
Qed.

Lemma span_digits_money (s : ustring) :
  money_text s -> span_digits s = ([], s).
Proof.
  destruct 1 as [|c s Hc Hs]; simpl; [reflexivity|].
  by destruct (money_class_cases c Hc) as [->|[->|[->|[->| ->]]]].
Qed.

Lemma parse_decimal_money (neg : bool) (s : ustring) :
  money_text s -> parse_decimal neg s = None.
Proof.
  intros Hs. unfold parse_decimal. rewrite (span_digits_money s Hs).
  destruct Hs as [|c s Hc Hs]; [reflexivity|].
  destruct (money_class_cases c Hc) as [->|[->|[->|[->| ->]]]];
    rewrite ?(span_digits_money s Hs); reflexivity.
Qed.

Lemma parse_inf_or_nan_money (neg : bool) (s : ustring) :
  money_text s -> parse_inf_or_nan neg s = None.
Proof.
  intros Hs. unfold parse_inf_or_nan, str_eqb.
  destruct Hs as [|c s Hc Hs]; [reflexivity|].
  rewrite !bool_decide_eq_false_2; [reflexivity|..];
    destruct (money_class_cases c Hc) as [->|[->|[->|[->| ->]]]]; discriminate.
Qed.

Lemma parse_signed_money (s : ustring) :
  money_text s -> parse_signed s = None.
Proof.
  intros Hs. unfold parse_signed.
  assert (Hn : forall neg, match parse_decimal neg s with
                           | Some x => Some x
                           | None => parse_inf_or_nan neg s
                           end = None)
    by (intros neg; by rewrite parse_decimal_money, parse_inf_or_nan_money).
  destruct Hs as [|c s Hc Hs]; [apply Hn|].
  destruct (money_class_cases c Hc) as [->|[->|[->|[->| ->]]]];
    try apply Hn.
  by rewrite parse_decimal_money, parse_inf_or_nan_money.
Qed.

(** [float] raises on every text without a digit or a letter of [inf] and
    [nan]; in particular on what the substitution keeps. *)
Lemma py_float_money (s : ustring) : money_text s -> py_float s = None.
Proof.
  intros Hs. unfold py_float.
  rewrite (to_ascii_money s Hs), (drop_underscores_money 0 s ltac:(done) Hs).
  destruct (is_nil _); [reflexivity|].
  by apply parse_signed_money, money_text_strip.
Qed.

(** No decimal digit passes the substitution. *)
Lemma digits_are_dropped (c : N) :
  is_ascii_digit c = true -> kept_by_money_class c = false.
Proof.
  unfold is_ascii_digit. rewrite andb_true_iff, !N.leb_le. intros [Hlo Hhi].
  apply not_true_is_false. rewrite kept_by_money_class_spec. intros Hc.
  destruct (money_class_cases c Hc) as [->|[->|[->|[->| ->]]]]; lia.
Qed.

(** The parser as written returns [None] on every input. *)
Lemma try_parse_money_none (raw : option ustring) : _try_parse_money raw = None.
Proof.
  unfold _try_parse_money.
  destruct (negb (truthy raw)); [reflexivity|].
  set (s := List.filter kept_by_money_class _).
  assert (Hs : money_text s) by apply money_text_filter.
  destruct (is_nil s); [reflexivity|].
  rewrite (py_float_money s Hs).
  rewrite (py_float_money (replace_char comma [] s))
    by (apply money_text_replace; [constructor | done]).
  rewrite (py_float_money (replace_char comma [period] s)).
  - by destruct (_ && _), (_ && _).
  - apply money_text_replace; [|done].
    apply List.Forall_cons; [|apply List.Forall_nil]. by do 3 right; left.
Qed.

End Money.

(** ** The date formatter *)

Lemma two_digits_spec (n : N) :
  n < 100 ->
  exists a b, two_digits n = [48 + a; 48 + b] /\ a < 10 /\ b < 10 /\ n = 10 * a + b.
Proof.
  intros Hn. exists (n / 10), (n mod 10). unfold two_digits.
  assert (n / 10 < 10) by (apply N.Div0.div_lt_upper_bound; lia).
  rewrite (N.mod_small (n / 10) 10) by done.
  repeat split; [done | by apply N.mod_lt |].
  apply N.div_mod. lia.
Qed.

Lemma four_digits_spec (n : N) :
  n < 10000 ->
  exists a b c d,
    four_digits n = [48 + a; 48 + b; 48 + c; 48 + d]
    /\ a < 10 /\ b < 10 /\ c < 10 /\ d < 10
    /\ n = 1000 * a + 100 * b + 10 * c + d.
Proof.
  intros Hn. unfold four_digits.
  assert (Hh : n / 100 < 100) by (apply N.Div0.div_lt_upper_bound; lia).
  destruct (two_digits_spec (n / 100) Hh) as (a & b & -> & Ha & Hb & Eh).
  exists a, b, ((n / 10) mod 10), (n mod 10). unfold two_digits. simpl.
  repeat split; try done; try (apply N.mod_lt; lia).
  zify. Z.to_euclidean_division_equations. lia.
Qed.

Lemma strftime_mdY_format (d : date) :
  in_calendar d -> is_mmddyyyy d (strftime_mdY d).
Proof.
  intros (Hy & Hm & Hd). unfold strftime_mdY.
  destruct (two_digits_spec (month d) ltac:(lia)) as (m1 & m2 & -> & ? & ? & ?).
  destruct (two_digits_spec (day d) ltac:(lia)) as (d1 & d2 & -> & ? & ? & ?).
  destruct (four_digits_spec (year d) ltac:(lia))
    as (y1 & y2 & y3 & y4 & -> & ? & ? & ? & ? & ?).
  exists m1, m2, d1, d2, y1, y2, y3, y4. repeat split; try done.
  by repeat constructor.
Qed.

Lemma before_first_spec (c : N) (s : ustring) :
  (~ In c s /\ before_first c s = s)
  \/ (exists rest, s = before_first c s ++ c :: rest /\ ~ In c (before_first c s)).
Proof.
  induction s as [|x s IH]; simpl.
  - left. tauto.
  - destruct (N.eqb_spec x c) as [->|Hne].
    + right. exists s. simpl. tauto.
    + destruct IH as [[Hn E]|(rest & E & Hn)].
      * left. rewrite E. split; [|done]. intros [?|?]; [done|tauto].
      * right. exists rest. simpl. rewrite <- E. split; [done|].
        intros [?|?]; [done|tauto].
Qed.

Lemma first_occurrence_unique (c : N) (s s' rest rest' : ustring) :
  s ++ c :: rest = s' ++ c :: rest' -> ~ In c s -> ~ In c s' -> s = s'.
Proof.
  revert s'. induction s as [|x s IH]; intros [|y s'] E Hn Hn'; simpl in *.
  - reflexivity.
  - injection E as -> _. destruct Hn'. by left.
  - injection E as -> _. destruct Hn. by left.
  - injection E as -> E. f_equal. apply IH; [done|tauto..].
Qed.

Lemma date_part_unique (val s s' : ustring) :
  date_part val s -> date_part val s' -> s = s'.
Proof.
  intros [[Hn Es]|(rest & E & Hn)] [[Hn' Es']|(rest' & E' & Hn')].
  - congruence.
  - destruct Hn. rewrite E'. apply in_or_app. right. by left.
  - destruct Hn'. rewrite E. apply in_or_app. right. by left.
  - eapply first_occurrence_unique; [|done..]. by rewrite <- E, <- E'.
Qed.

Lemma make_date_in_calendar (y m d : N) (x : date) :
  make_date y m d = Some x -> in_calendar x.
Proof.
  unfold make_date, in_calendar.
  destruct (_ && _) eqn:E; [|discriminate]. intros [= <-]. simpl.
  rewrite !andb_true_iff, !N.leb_le in E.
  assert (days_in_month y m <= 31)
    by (unfold days_in_month; repeat destruct (_ : bool); lia).
  lia.
Qed.

Section Formatter.
Context `{UnicodeData}.
Variable dateutil_parse : bool -> list N -> option date.

Lemma strptime_in_calendar (s : ustring) (d : date) :
  strptime_Ymd s = Some d -> in_calendar d.
Proof.
  unfold strptime_Ymd. intros E.
  repeat
    match type of E with
    | match ?x with _ => _ end = Some _ => destruct x; try discriminate E
    | (if ?b then _ else _) = Some _ => destruct b; try discriminate E
    | (let '(_, _) := ?x in _) = Some _ => destruct x
    end.
  by eapply make_date_in_calendar.
Qed.

Lemma fmt_contains_T (val : ustring) :
  date_part val (if contains [letter_T] val then before_first letter_T val else val).
Proof.
  destruct (contains [letter_T] val) eqn:Ec.
  - apply contains_spec in Ec as (pre & suf & E).
    destruct (before_first_spec letter_T val) as [[Hn _]|Hr]; [|by right].
    destruct Hn. rewrite E. apply in_or_app. right. by left.
  - left. split; [|done]. intros Hin.
    apply contains_false in Ec. apply Ec.
    apply in_split in Hin as (pre & suf & ->). by exists pre, suf.
Qed.

(** What the formatter returns, case by case; the text of a date is stated
    for the years from 1000 on. *)
Lemma fmt_mmddyyyy_cases (val : ustring) :
  (val = [] -> _fmt_mmddyyyy dateutil_parse val = [])
  /\ (val <> [] -> forall dt, dateutil_parse true val = Some dt ->
        in_calendar dt -> 1000 <= year dt ->
        is_mmddyyyy dt (_fmt_mmddyyyy dateutil_parse val))
  /\ (val <> [] -> dateutil_parse true val = None ->
        forall s, date_part val s ->
          (forall d, strptime_Ymd s = Some d -> 1000 <= year d ->
             is_mmddyyyy d (_fmt_mmddyyyy dateutil_parse val))
          /\ (strptime_Ymd s = None -> _fmt_mmddyyyy dateutil_parse val = s)).
Proof.
  unfold _fmt_mmddyyyy. split; [by intros ->|]. split.
  - intros Hv dt -> Hc _. destruct val; [done|]. simpl.
    by apply strftime_mdY_format.
  - intros Hv -> s Hs. destruct val as [|c val]; [done|].
    cbn [is_nil].
    rewrite (date_part_unique _ _ _ Hs (fmt_contains_T (c :: val))).
    split.
    + intros d Hd _. rewrite Hd. apply strftime_mdY_format.
      by eapply strptime_in_calendar.
    + by intros ->.
Qed.

End Formatter.

(** C6 (as amended). The formatter returns the empty string on the empty
    string. Otherwise it first tries the permissive parser and on success
    returns that date, which for a date of the calendar from the year 1000
    on is written MM/DD/YYYY. On failure it takes the text up to the first
    letter T (the whole text when there is none), tries the strict
    YYYY-MM-DD reading of it and on success returns that date, written
    MM/DD/YYYY when its year is 1000 or later; when that fails too it
    returns the text up to the first letter T, which is the input only when
    the input has no T. It never raises. In particular
    "2024-03-15T10:00:00" gives "03/15/2024", whether the permissive parser
    reads that date from it or fails. Nothing is stated of the text of a
    date before the year 1000, which the platform decides. *)
Theorem fmt_mmddyyyy_spec `{UnicodeData}
    (dateutil_parse : bool -> list N -> option date) (val : ustring) :
  (val = [] -> _fmt_mmddyyyy dateutil_parse val = [])
  /\ (val <> [] -> forall dt, dateutil_parse true val = Some dt ->
        in_calendar dt -> 1000 <= year dt ->
        is_mmddyyyy dt (_fmt_mmddyyyy dateutil_parse val))
  /\ (val <> [] -> dateutil_parse true val = None ->
        forall s, date_part val s ->
          (forall d, strptime_Ymd s = Some d -> 1000 <= year d ->
             is_mmddyyyy d (_fmt_mmddyyyy dateutil_parse val))
          /\ (strptime_Ymd s = None -> _fmt_mmddyyyy dateutil_parse val = s))
  /\ ((forall dt, dateutil_parse true (lit "2024-03-15T10:00:00") = Some dt ->
         dt = Date 2024 3 15) ->
      @_fmt_mmddyyyy Excerpt.data dateutil_parse (lit "2024-03-15T10:00:00")
      = lit "03/15/2024").
Proof.
  destruct (fmt_mmddyyyy_cases dateutil_parse val) as (H1 & H2 & H3).
  split; [exact H1|]. split; [exact H2|]. split; [exact H3|].
  intros Hdt. clear H1 H2 H3. unfold _fmt_mmddyyyy.
  change (is_nil (lit "2024-03-15T10:00:00")) with false. cbv iota.
  destruct (dateutil_parse true (lit "2024-03-15T10:00:00")) as [dt|] eqn:E.
  - by rewrite (Hdt dt eq_refl).
  - vm_compute. reflexivity.
Qed.

(** ** The zone fall-back *)

Lemma lstrip_by_spec (f : N -> bool) (s : ustring) :
  exists l,
    s = l ++ lstrip_by f s
    /\ Forall (fun x => f x = true) l
    /\ (forall x, head (lstrip_by f s) = Some x -> f x = false).
Proof.
  induction s as [|x s (l & E & Hl & Hh)]; simpl.
  - exists []. by repeat split.
  - destruct (f x) eqn:Ex.
    + exists (x :: l). simpl. rewrite <- E. by repeat split; [constructor|].
    + exists []. repeat split; [constructor|]. by intros y [= <-].
Qed.

Lemma last_rev {A} (l : list A) : last (rev l) = head l.
Proof. rewrite rev_alt. apply last_reverse. Qed.

Lemma rstrip_by_spec (f : N -> bool) (s : ustring) :
  exists r,
    s = rstrip_by f s ++ r
    /\ Forall (fun x => f x = true) r
    /\ (forall x, last (rstrip_by f s) = Some x -> f x = false).
Proof.
  unfold rstrip_by.
  destruct (lstrip_by_spec f (rev s)) as (l & E & Hl & Hh).
  exists (rev l). repeat split.
  - rewrite <- rev_app_distr, <- E. by rewrite rev_involutive.
  - by apply Forall_rev.
  - intros x. rewrite last_rev. apply Hh.
Qed.

Lemma strip_by_spec (f : N -> bool) (s : ustring) :
  exists l r,
    s = l ++ strip_by f s ++ r
    /\ Forall (fun x => f x = true) l
    /\ Forall (fun x => f x = true) r
    /\ (forall x, head (strip_by f s) = Some x -> f x = false)
    /\ (forall x, last (strip_by f s) = Some x -> f x = false).
Proof.
  unfold strip_by.
  destruct (lstrip_by_spec f s) as (l & El & Hl & Hh).
  destruct (rstrip_by_spec f (lstrip_by f s)) as (r & Er & Hr & Ht).
  exists l, r. repeat split; try done.
  - by rewrite <- Er.
  - intros x Hx. apply Hh. rewrite Er.
    by destruct (rstrip_by f (lstrip_by f s)).
Qed.

Lemma strip_chars_comma (s : ustring) :
  stripped_of comma s (strip_chars (lit ",") s).
Proof.
  unfold strip_chars.
  set (f := fun x => existsb (N.eqb x) (lit ",")).
  assert (Hf : forall x, f x = true <-> x = comma).
  { intros x. unfold f. simpl. rewrite orb_false_r. apply N.eqb_eq. }
  destruct (strip_by_spec f s) as (l & r & E & Hl & Hr & Hh & Ht).
  exists l, r. repeat split; try done.
  - eapply Forall_impl; [exact Hl|]. intros x. apply Hf.
  - eapply Forall_impl; [exact Hr|]. intros x. apply Hf.
  - intros Hc. apply Hh in Hc. by rewrite (proj2 (Hf comma) eq_refl) in Hc.
  - intros Hc. apply Ht in Hc. by rewrite (proj2 (Hf comma) eq_refl) in Hc.
Qed.

Section Zone.
Context `{UnicodeData}.

Lemma split_from_spaces (cur post : ustring) :
  Forall (fun c => is_space c = true) post ->
  split_from cur post = if is_nil cur then [] else [rev cur].
Proof.
  intros Hp. revert cur. induction Hp as [|c post Hc Hp IH]; intros cur; simpl.
  - reflexivity.
  - rewrite Hc, (IH []). by destruct (is_nil cur).
Qed.

Lemma split_from_token (cur tok rest : ustring) :
  Forall (fun c => is_space c = false) tok ->
  split_from cur (tok ++ rest) = split_from (rev tok ++ cur) rest.
Proof.
  intros Ht. revert cur. induction Ht as [|c tok Hc Ht IH]; intros cur; simpl.
  - reflexivity.
  - rewrite Hc, IH. by rewrite <- app_assoc.
Qed.

Lemma split_from_space (cur pre rest : ustring) (sp : N) :
  is_space sp = true ->
  exists l, split_from cur (pre ++ sp :: rest) = l ++ split_from [] rest.
Proof.
  intros Hsp. revert cur. induction pre as [|x pre IH]; intros cur; simpl.
  - rewrite Hsp. destruct (is_nil cur); [by exists [] | by exists [rev cur]].
  - destruct (is_space x).
    + destruct (IH []) as [l E]. rewrite E.
      destruct (is_nil cur); [by exists l | by exists (rev cur :: l)].
    + apply IH.
Qed.

Lemma split_last_token (name tok : ustring) :
  last_token name tok -> last (split name) = Some tok.
Proof.
  intros (pre & post & -> & Hne & Ht & Hp & Hpre). unfold split.
  assert (E : split_from [] (tok ++ post) = [tok]).
  { rewrite split_from_token, split_from_spaces, app_nil_r, rev_involutive by done.
    destruct (rev tok) eqn:Er; [|done].
    destruct Hne. by rewrite <- (rev_involutive tok), Er. }
  destruct Hpre as [->|(pre' & sp & -> & Hsp)].
  - simpl. by rewrite E.
  - rewrite <- app_assoc. simpl.
    destruct (split_from_space [] pre' (tok ++ post) sp Hsp) as [l ->].
    rewrite E. apply last_snoc.
Qed.

Lemma last_token_exists (name : ustring) :
  Exists (fun c => is_space c = false) name -> exists tok, last_token name tok.
Proof.
  induction name as [|x name IH]; intros Hex; [by apply Exists_nil in Hex|].
  destruct (decide (Exists (fun c => is_space c = false) name)) as [Hn|Hn].
  - destruct (IH Hn) as (tok & pre & post & -> & Hne & Ht & Hp & Hpre).
    destruct Hpre as [->|(pre' & sp & -> & Hsp)].
    + destruct (is_space x) eqn:Ex.
      * exists tok, [x], post. repeat split; try done.
        right. by exists [], x.
      * exists (x :: tok), [], post. repeat split; try done.
        -- by constructor.
        -- by left.
    + exists tok, (x :: pre' ++ [sp]), post. repeat split; try done.
      right. by exists (x :: pre'), sp.
  - apply Exists_cons in Hex as [Hx|Hex]; [|done].
    exists [x], [], name. repeat split; try done.
    + by constructor.
    + apply Forall_forall. intros c Hc.
      destruct (is_space c) eqn:Ec; [done|].
      destruct Hn. apply Exists_exists. by exists c.
    + by left.
Qed.

(** C9 (as amended). On the empty name the zone fall-back returns the
    empty string. On a name with a code point that is not white space it
    returns the last white-space-delimited token of the name without the
    commas at its two ends, however many there are. *)
Theorem zone_from_project_spec (name : ustring) :
  (name = [] -> zone_from_project name = Ok [])
  /\ (Exists (fun c => is_space c = false) name ->
      exists tok zone,
        last_token name tok
        /\ zone_from_project name = Ok zone
        /\ stripped_of comma tok zone)
  /\ (forall tok, last_token name tok ->
        exists zone, zone_from_project name = Ok zone /\ stripped_of comma tok zone).
Proof.
  assert (Hlast : forall tok, last_token name tok ->
            exists zone, zone_from_project name = Ok zone
                         /\ stripped_of comma tok zone).
  { intros tok Htok. exists (strip_chars (lit ",") tok).
    split; [|apply strip_chars_comma].
    unfold zone_from_project. rewrite (split_last_token name tok Htok).
    destruct name; [|done].
    destruct Htok as (pre & post & E & Hne & _). by destruct pre, tok. }
  split; [by intros ->|]. split; [|exact Hlast].
  intros Hex. destruct (last_token_exists name Hex) as [tok Htok].
  destruct (Hlast tok Htok) as (zone & Hz & Hs). by exists tok, zone.
Qed.

End Zone.
(** ** The normaliser *)

Lemma head_rev {A} (l : list A) : head (rev l) = last l.
Proof. rewrite rev_alt. apply head_reverse. Qed.

Lemma lstrip_by_fixed (f : N -> bool) (s : ustring) :
  (forall x, head s = Some x -> f x = false) -> lstrip_by f s = s.
Proof. destruct s as [|x s]; [done|]. intros Hh. simpl. by rewrite (Hh x). Qed.

Lemma rstrip_by_fixed (f : N -> bool) (s : ustring) :
  (forall x, last s = Some x -> f x = false) -> rstrip_by f s = s.
Proof.
  intros Hl. unfold rstrip_by. rewrite lstrip_by_fixed.
  - apply rev_involutive.
  - intros x. rewrite head_rev. apply Hl.
Qed.

Lemma strip_by_idempotent (f : N -> bool) (s : ustring) :
  strip_by f (strip_by f s) = strip_by f s.
Proof.
  destruct (strip_by_spec f s) as (l & r & _ & _ & _ & Hh & Ht).
  unfold strip_by at 1. rewrite lstrip_by_fixed by done.
  by apply rstrip_by_fixed.
Qed.

Lemma strip_by_Forall (P : N -> Prop) (f : N -> bool) (s : ustring) :
  Forall P s -> Forall P (strip_by f s).
Proof.
  destruct (strip_by_spec f s) as (l & r & E & _). intros Hs.
  rewrite E in Hs. apply Forall_app in Hs as [_ Hs].
  by apply Forall_app in Hs as [Hs _].
Qed.

Section Normaliser.
Context `{UnicodeData}.

Lemma filter_insert_mark (c : N) (run : list N) :
  is_Mn c = true ->
  List.filter unmarked (insert_mark c run) = List.filter unmarked run.
Proof.
  intros Hc. induction run as [|d run IH]; simpl.
  - unfold unmarked. by rewrite Hc.
  - destruct (combining d <=? combining c); simpl.
    + by rewrite IH.
    + unfold unmarked at 1. by rewrite Hc.
Qed.

(** Outside the non-spacing marks, canonical ordering changes nothing when
    every other code point has class zero. *)
Lemma filter_canonical_order (run s : list N) :
  Forall (fun c => is_Mn c = false -> combining c = 0) s ->
  List.filter unmarked (canonical_order run s) =
  List.filter unmarked run ++ List.filter unmarked s.
Proof.
  intros Hs. revert run.
  induction Hs as [|c s Hc Hs IH]; intros run; simpl.
  - by rewrite app_nil_r.
  - destruct (combining c =? 0) eqn:Ec.
    + rewrite List.filter_app. simpl. by rewrite (IH []).
    + rewrite IH. apply N.eqb_neq in Ec.
      destruct (is_Mn c) eqn:Em; [|by destruct Ec; apply Hc].
      rewrite filter_insert_mark by done.
      assert (Eu : unmarked c = false) by (unfold unmarked; by rewrite Em).
      by rewrite Eu.
Qed.

Lemma canonical_order_starters (s : list N) :
  Forall (fun c => combining c = 0) s -> canonical_order [] s = s.
Proof.
  induction 1 as [|c s Hc Hs IH]; simpl; [done|].
  apply N.eqb_eq in Hc as ->. simpl. by rewrite IH.
Qed.

Lemma flat_map_singletons (f : N -> list N) (s : list N) :
  Forall (fun c => f c = [c]) s -> flat_map f s = s.
Proof. induction 1 as [|c s Hc Hs IH]; simpl; [done|]. by rewrite Hc, IH. Qed.

Lemma filter_all (f : N -> bool) (s : list N) :
  Forall (fun c => f c = true) s -> List.filter f s = s.
Proof. induction 1 as [|c s Hc Hs IH]; simpl; [done|]. by rewrite Hc, IH. Qed.

(** A string of settled code points is normalised by stripping it. *)
Lemma normalize_settled (s : ustring) :
  Forall settled s -> normalize_upper (Some s) = strip s.
Proof.
  intros Hs. unfold normalize_upper, nfd, upper.
  destruct s as [|c s]; [done|]. cbn [is_nil].
  rewrite (flat_map_singletons canonical_decomposition)
    by (eapply Forall_impl; [exact Hs|]; by intros x (? & _)).
  rewrite canonical_order_starters
    by (eapply Forall_impl; [exact Hs|]; by intros x (_ & _ & _ & ?)).
  rewrite (filter_all (fun ch => negb (is_Mn ch)))
    by (eapply Forall_impl; [exact Hs|]; by intros x (_ & -> & _)).
  by rewrite (flat_map_singletons to_upper_full)
    by (eapply Forall_impl; [exact Hs|]; by intros x (_ & _ & ? & _)).
Qed.

(** The normal form of a plain string: its decomposition without marks, in
    upper case, stripped. *)
Lemma normalize_plain (s : ustring) :
  plain s -> normalize_upper (Some s) = strip (upper (without_marks s)).
Proof.
  intros Hs. destruct s as [|c s]; [done|].
  unfold normalize_upper, nfd, without_marks. cbn [is_nil].
  change (fun ch => negb (is_Mn ch)) with unmarked.
  by rewrite filter_canonical_order.
Qed.

Lemma without_marks_app (s t : ustring) :
  without_marks (s ++ t) = without_marks s ++ without_marks t.
Proof. unfold without_marks. by rewrite flat_map_app, List.filter_app. Qed.

Lemma upper_app (s t : ustring) : upper (s ++ t) = upper s ++ upper t.
Proof. apply flat_map_app. Qed.

Lemma upper_without_marks_upper (s : ustring) :
  Forall case_stable s ->
  upper (without_marks (upper s)) = upper (without_marks s).
Proof.
  induction 1 as [|c s Hc Hs IH]; [done|].
  change (upper (c :: s)) with (to_upper_full c ++ upper s).
  change (c :: s) with ([c] ++ s).
  by rewrite !without_marks_app, !upper_app, IH, Hc.
Qed.

(** Two plain strings that differ only in marks have one normal form. *)
Lemma normalize_marks (s t : ustring) :
  plain s -> plain t -> without_marks t = without_marks s ->
  normalize_upper (Some t) = normalize_upper (Some s).
Proof. intros Hs Ht E. by rewrite !normalize_plain, E. Qed.

(** Two plain strings that differ only in case have one normal form, when
    upper-casing their code points goes along with taking the marks out. *)
Lemma normalize_case (s t : ustring) :
  plain s -> plain t -> Forall case_stable s -> Forall case_stable t ->
  upper t = upper s ->
  normalize_upper (Some t) = normalize_upper (Some s).
Proof.
  intros Hs Ht Cs Ct E. rewrite !normalize_plain by done.
  by rewrite <- (upper_without_marks_upper s), <- (upper_without_marks_upper t), E.
Qed.

Lemma normalize_upper_case (s : ustring) :
  plain s -> plain (upper s) -> Forall case_stable s ->
  normalize_upper (Some (upper s)) = normalize_upper (Some s).
Proof.
  intros Hs Hu Cs. rewrite !normalize_plain by done.
  by rewrite upper_without_marks_upper.
Qed.

Lemma plainb_spec (s : ustring) : plainb s = true -> plain s.
Proof.
  unfold plainb, plain. intros Hs. apply List.Forall_forall. intros c Hc Hm.
  pose proof (proj1 (forallb_forall _ _) Hs c Hc) as Hb.
  simpl in Hb. rewrite Hm in Hb. by apply N.eqb_eq.
Qed.

Context `{!UnicodeLaws}.

(** What is left of a plain string before it is stripped is settled. *)
Lemma upper_unmarked_settled (s : ustring) :
  plain s ->
  Forall settled (upper (List.filter (fun ch => negb (is_Mn ch)) (nfd s))).
Proof.
  intros Hs. unfold nfd.
  change (fun ch => negb (is_Mn ch)) with unmarked.
  rewrite filter_canonical_order by exact Hs. simpl.
  apply List.Forall_forall. intros u Hu.
  apply in_flat_map in Hu as (c & Hc & Hu).
  apply filter_In in Hc as [Hc Hm].
  apply negb_true_iff in Hm.
  pose proof (proj1 (List.Forall_forall _ _) Hs c Hc Hm) as Hz.
  apply in_flat_map in Hc as (c0 & _ & Hc).
  pose proof (decomposition_complete c0 c Hc) as Hd.
  destruct (upper_settled c u Hm Hd Hu) as (? & ? & ? & Hcl).
  repeat split; try done. by apply Hcl.
Qed.

Lemma normalize_upper_settled (s : ustring) :
  plain s -> Forall settled (normalize_upper (Some s)).
Proof.
  intros Hs. destruct s as [|c s]; [constructor|].
  unfold normalize_upper. cbn [is_nil].
  apply strip_by_Forall. by apply upper_unmarked_settled.
Qed.

Lemma normalize_upper_twice (s : ustring) :
  plain s ->
  normalize_upper (Some (normalize_upper (Some s))) = normalize_upper (Some s).
Proof.
  intros Hs. destruct s as [|c s]; [done|].
  unfold normalize_upper at 2 3. cbn [is_nil].
  rewrite normalize_settled
    by (apply strip_by_Forall; by apply upper_unmarked_settled).
  apply strip_by_idempotent.
Qed.

End Normaliser.

(** ** The excerpt of the database satisfies the laws *)
Section ExcerptLaws.
Import Excerpt.

Lemma all_below_spec (P : N -> bool) (n : N) :
  all_below P n = true -> forall c, c < n -> P c = true.
Proof.
  unfold all_below.
  set (step := fun '(i, ok) => (N.succ i, ok && P i)).
  assert (Hinv : forall m,
            fst (N.iter m step (0, true)) = m
            /\ (snd (N.iter m step (0, true)) = true ->
                forall c, c < m -> P c = true)).
  { induction m as [|m [Hf Hs]] using N.peano_ind.
    - split; [done|]. intros _ c Hc. lia.
    - rewrite N.iter_succ. destruct (N.iter m step (0, true)) as [i ok].
      simpl in *. subst i. split; [done|].
      rewrite andb_true_iff. intros [Hok Hm] c Hc.
      destruct (N.eq_dec c m) as [->|Hne]; [done|].
      apply Hs; [done|lia]. }
  apply Hinv.
Qed.

Lemma assoc_Some {A} (c : N) (t : list (N * A)) (v : A) :
  assoc c t = Some v -> In c (List.map fst t).
Proof.
  induction t as [|[k w] t IH]; simpl; [done|].
  destruct (N.eqb_spec k c) as [->|Hne]; [by left|].
  intros Hv. right. by apply IH.
Qed.

Lemma untabled_cases (c : N) :
  c < latin_end \/ marks_start <= c < marks_end
  \/ music_start <= c < music_end \/ untabled c = true.
Proof.
  unfold untabled, latin_end, marks_start, marks_end, music_start, music_end.
  destruct (N.lt_ge_cases c 0x100); [tauto|].
  destruct (N.lt_ge_cases c 0x300).
  { do 3 right. apply orb_true_iff. left. apply orb_true_iff. left.
    apply andb_true_iff. split; [by apply N.leb_le | by apply N.ltb_lt]. }
  destruct (N.lt_ge_cases c 0x370); [right; left; lia|].
  destruct (N.lt_ge_cases c 0x1d165).
  { do 3 right. apply orb_true_iff. left. apply orb_true_iff. right.
    apply andb_true_iff. split; [by apply N.leb_le | by apply N.ltb_lt]. }
  destruct (N.lt_ge_cases c 0x1d173); [right; right; left; lia|].
  do 3 right. apply orb_true_iff. right. by apply N.leb_le.
Qed.

Lemma decomposition_untabled (c : N) : untabled c = true -> decomposition c = [c].
Proof.
  intros Hc. unfold decomposition.
  destruct (assoc c decomposition_table) as [l|] eqn:E; [|done].
  apply assoc_Some in E.
  assert (Hk : forallb (fun k => negb (untabled k))
                 (List.map fst decomposition_table) = true)
    by (vm_compute; reflexivity).
  pose proof (proj1 (forallb_forall _ _) Hk c E) as Hn.
  simpl in Hn. by rewrite Hc in Hn.
Qed.

Lemma untabled_range (lo hi c : N) :
  negb (untabled lo) && negb (untabled hi)
  && ((hi <? latin_end) || ((marks_start <=? lo) && (hi <? marks_end))
      || (music_start <=? lo)) = true ->
  untabled c = true -> in_range lo hi c = false.
Proof.
  unfold untabled, in_range, latin_end, marks_start, marks_end, music_start,
    music_end.
  intros Hr Hc.
  repeat rewrite ?andb_true_iff, ?orb_true_iff, ?negb_true_iff, ?orb_false_iff,
    ?andb_false_iff, ?N.leb_le, ?N.ltb_lt, ?N.leb_gt, ?N.ltb_ge in Hr.
  repeat rewrite ?andb_true_iff, ?orb_true_iff, ?N.leb_le, ?N.ltb_lt in Hc.
  apply andb_false_iff. rewrite !N.leb_gt. lia.
Qed.

Lemma class_untabled (c : N) :
  untabled c = true -> class_in combining_table c = 0.
Proof.
  intros Hc.
  assert (Hk : forallb
                 (fun '(lo, hi, k) =>
                    negb (untabled lo) && negb (untabled hi)
                    && ((hi <? latin_end)
                        || ((marks_start <=? lo) && (hi <? marks_end))
                        || (music_start <=? lo)))
                 combining_table = true)
    by (vm_compute; reflexivity).
  induction combining_table as [|[[lo hi] k] t IH]; simpl; [done|].
  simpl in Hk. apply andb_true_iff in Hk as [Hhi Ht].
  rewrite (untabled_range lo hi c Hhi Hc). by apply IH.
Qed.

Lemma mark_untabled (c : N) : untabled c = true -> mark_nonspacing c = false.
Proof.
  intros Hc. unfold mark_nonspacing.
  by rewrite !(fun lo hi H => untabled_range lo hi c H Hc).
Qed.

Lemma upper_untabled (c : N) : untabled c = true -> upper_of c = [c].
Proof.
  intros Hc. unfold upper_of.
  rewrite !(fun lo hi H => untabled_range lo hi c H Hc) by done.
  cbn [andb].
  repeat
    match goal with
    | |- context [c =? ?b] =>
        destruct (N.eqb_spec c b) as [->|_]; [discriminate Hc|]
    end.
  reflexivity.
Qed.

Lemma law_check_tabled :
  all_below law_check latin_end
  && all_below (fun i => law_check (marks_start + i)) (marks_end - marks_start)
  && all_below (fun i => law_check (music_start + i)) (music_end - music_start)
  = true.
Proof. vm_compute. reflexivity. Qed.

Lemma law_check_all (c : N) : untabled c = false -> law_check c = true.
Proof.
  intros Hc. pose proof law_check_tabled as L.
  rewrite !andb_true_iff in L. destruct L as [[L1 L2] L3].
  destruct (untabled_cases c) as [H1|[H2|[H3|H4]]].
  - by apply (all_below_spec _ _ L1).
  - pose proof (all_below_spec _ _ L2 (c - marks_start) ltac:(lia)) as L.
    simpl in L. by replace (marks_start + (c - marks_start)) with c in L by lia.
  - pose proof (all_below_spec _ _ L3 (c - music_start) ltac:(lia)) as L.
    simpl in L. by replace (music_start + (c - music_start)) with c in L by lia.
  - congruence.
Qed.

Lemma list_eqb_eq (a b : list N) : list_eqb a b = true -> a = b.
Proof. apply bool_decide_eq_true. Qed.

Lemma excerpt_laws : @UnicodeLaws data.
Proof.
  split.
  - intros c d Hd. simpl in *.
    destruct (untabled c) eqn:Hc.
    + rewrite decomposition_untabled in Hd by done.
      destruct Hd as [<-|[]]. by apply decomposition_untabled.
    + pose proof (law_check_all c Hc) as L.
      unfold law_check in L. apply andb_true_iff in L as [L _].
      apply list_eqb_eq. by apply (proj1 (forallb_forall _ _) L).
  - intros c u Hm Hd Hu. simpl in *.
    destruct (untabled c) eqn:Hc.
    + rewrite upper_untabled in Hu by done. destruct Hu as [<-|[]].
      repeat split; try done. by apply upper_untabled.
    + pose proof (law_check_all c Hc) as L.
      unfold law_check in L. apply andb_true_iff in L as [_ L].
      rewrite Hm, Hd in L. unfold list_eqb at 1 in L.
      rewrite bool_decide_eq_true_2 in L by done. simpl in L.
      pose proof (proj1 (forallb_forall _ _) L u Hu) as Lu.
      rewrite !andb_true_iff, negb_true_iff in Lu.
      destruct Lu as [[[L1 L2] L3] L4].
      repeat split; try (by apply list_eqb_eq); try done.
      intros Hz. rewrite Hz in L4. simpl in L4. by apply N.eqb_eq.
Qed.

End ExcerptLaws.

(** C8 (as amended). Normalising twice gives what normalising once gives,
    for every string in whose canonical decomposition the code points
    outside the category Mn all have combining class zero; the normal form
    of such a string has no non-spacing mark and is its own upper case; the
    absent and the empty input give the empty string; and "Cl", i with
    acute accent, "ente" and "CLIENTE" both normalise to "CLIENTE".

    Marks: two such strings whose canonical decompositions agree once the
    non-spacing marks are taken out have the same normal form. A letter
    that has no decomposition keeps what it has: o with stroke gives O with
    stroke, not O.

    Case: two such strings with the same upper case have the same normal
    form, and a string has the normal form of its upper case, when for
    each of their code points the upper case and the code point itself,
    decomposed and freed of marks, have the same upper case. Not so for
    the letter a followed by the mark U+0345, whose upper case is the
    letter iota: it gives "A", and its upper case gives A followed by
    iota. *)
Theorem normalize_upper_idempotent `{UnicodeData} `{!UnicodeLaws} (s : ustring) :
  plain s ->
  normalize_upper (Some (normalize_upper (Some s))) = normalize_upper (Some s)
  /\ Forall (fun c => is_Mn c = false /\ to_upper_full c = [c])
       (normalize_upper (Some s))
  /\ normalize_upper None = []
  /\ normalize_upper (Some []) = []
  /\ @normalize_upper Excerpt.data (Some (lit "Cl" ++ i_acute :: lit "ente"))
     = lit "CLIENTE"
  /\ @normalize_upper Excerpt.data (Some (lit "CLIENTE")) = lit "CLIENTE"
  /\ (forall t, plain t -> without_marks t = without_marks s ->
        normalize_upper (Some t) = normalize_upper (Some s))
  /\ (forall t, plain t -> Forall case_stable s -> Forall case_stable t ->
        upper t = upper s ->
        normalize_upper (Some t) = normalize_upper (Some s))
  /\ (plain (upper s) -> Forall case_stable s ->
      normalize_upper (Some (upper s)) = normalize_upper (Some s))
  /\ (@plain Excerpt.data [0xf8] /\ @plain Excerpt.data (lit "o")
      /\ @normalize_upper Excerpt.data (Some [0xf8]) = [0xd8]
      /\ @normalize_upper Excerpt.data (Some (lit "o")) = lit "O")
  /\ (let a_iota := [97; 0x345] in
      @plain Excerpt.data a_iota
      /\ @plain Excerpt.data (@upper Excerpt.data a_iota)
      /\ @upper Excerpt.data a_iota = [65; 0x399]
      /\ @normalize_upper Excerpt.data (Some a_iota) = lit "A"
      /\ @normalize_upper Excerpt.data (Some (@upper Excerpt.data a_iota))
         = [65; 0x399]).
Proof.
  intros Hs. split; [by apply normalize_upper_twice|]. split.
  { eapply Forall_impl; [by apply normalize_upper_settled|].
    by intros c (_ & ? & ? & _). }
  do 4 (split; [vm_compute; reflexivity|]).
  split; [intros t Ht E; by apply normalize_marks|].
  split; [intros t Ht Cs Ct E; by apply normalize_case|].
  split; [intros Hu Cs; by apply normalize_upper_case|].
  split.
  - repeat split;
      first [apply (@plainb_spec Excerpt.data) | idtac]; vm_compute; reflexivity.
  - cbv zeta. repeat split;
      first [apply (@plainb_spec Excerpt.data) | idtac]; vm_compute; reflexivity.
Qed.

Section NormaliserSamples.
#[local] Existing Instance Excerpt.data.

Lemma normalize_upper_idempotent_witness :
  let s := lit "Cl" ++ i_acute :: lit "ente" in
  plain s
  /\ normalize_upper (Some (normalize_upper (Some s))) = normalize_upper (Some s)
  /\ Forall case_stable s
  /\ normalize_upper (Some (lit "Cliente")) = normalize_upper (Some s)
  /\ normalize_upper (Some (lit "CL" ++ 0xcd :: lit "ENTE"))
     = normalize_upper (Some s).
Proof.
  intros s.
  assert (Hs : plain s) by (apply plainb_spec; vm_compute; reflexivity).
  assert (Cs : Forall case_stable s)
    by (repeat (apply List.Forall_cons; [vm_compute; reflexivity|]);
        apply List.Forall_nil).
  destruct (@normalize_upper_idempotent Excerpt.data excerpt_laws s Hs)
    as (Hi & _ & _ & _ & _ & _ & Hm & Hc & _).
  split; [exact Hs|]. split; [exact Hi|]. split; [exact Cs|]. split.
  - apply Hm; [apply plainb_spec; vm_compute; reflexivity|].
    vm_compute. reflexivity.
  - apply Hc; [apply plainb_spec; vm_compute; reflexivity | exact Cs | |].
    + repeat (apply List.Forall_cons; [vm_compute; reflexivity|]).
      apply List.Forall_nil.
    + vm_compute. reflexivity.
Defined.

(** Two musical combining marks of classes 226 and 216 around a grapheme
    joiner: the first pass removes the joiner between them, the second pass
    puts them in canonical order. *)
Lemma normalize_upper_not_idempotent :
  let s := [0x1d16d; 0x34f; 0x1d165] in
  normalize_upper (Some s) = [0x1d16d; 0x1d165]
  /\ normalize_upper (Some (normalize_upper (Some s))) = [0x1d165; 0x1d16d].
Proof. split; vm_compute; reflexivity. Qed.

End NormaliserSamples.

(** ** Further sample inputs *)
Section MoreSamples.
Import Sample.
#[local] Existing Instance Excerpt.data.

(** C2. The substitution of the money parser keeps the backslash, the
    letter d, the comma, the period and the minus sign, and drops the
    digits: of "1,234.56" it leaves ",.". So the parser returns [None] on
    "1,234.56" and on "1.234,56", as it does on "abc" and on every other
    input, although [float] reads 1234.56 from "1,234.56" without its
    comma. *)
Theorem money_parser_examples :
  List.filter kept_by_money_class (upper (strip (lit "1,234.56"))) = lit ",."
  /\ _try_parse_money (Some (lit "1,234.56")) = None
  /\ _try_parse_money (Some (lit "1.234,56")) = None
  /\ _try_parse_money (Some (lit "abc")) = None
  /\ (forall (U : UnicodeData) raw, @_try_parse_money U raw = None)
  /\ py_float (replace_char comma [] (lit "1,234.56"))
     = Some 0x1.34a3d70a3d70ap+10%float.
Proof.
  repeat split; try (vm_compute; reflexivity).
  intros U raw. apply try_parse_money_none.
Qed.

(** A text with no date in it that starts with the letter T: the formatter
    returns the empty string. *)
Lemma fmt_drops_input :
  _fmt_mmddyyyy known_dates (lit "TBD") = []
  /\ lit "TBD" <> [].
Proof. split; [vm_compute; reflexivity | discriminate]. Qed.

(** Every comma at the two ends of the last token is stripped, and a name
    of white space only raises. *)
Lemma zone_strips_all_commas :
  zone_from_project (lit "Zone North,,") = Ok (lit "North")
  /\ zone_from_project (lit "Zone ,North") = Ok (lit "North")
  /\ zone_from_project (lit " ") = Raise IndexError.
Proof. repeat split; vm_compute; reflexivity. Qed.

(** The filter on sample tasks: an archived task is dropped with and
    without a cutoff; a done task is dropped when last modified before the
    cutoff and kept when modified on the cutoff day, after it, or at a time
    that does not parse; a task in another section is kept whatever its
    age. *)
Example inclusion_filter_samples :
  let cutoff := known_dates false (lit "2024-01-15") in
  cutoff = Some (Date 2024 1 15)
  /\ kept None (touched_task (lit "Archive 2023") (lit "2024-01-20T08:00:00.000Z")) = false
  /\ kept cutoff (touched_task (lit "Archive 2023") (lit "2024-01-20T08:00:00.000Z")) = false
  /\ kept cutoff (touched_task (lit "Done") (lit "2024-01-10T08:00:00.000Z")) = false
  /\ kept cutoff (touched_task (lit "Done") (lit "2024-01-15T08:00:00.000Z")) = true
  /\ kept cutoff (touched_task (lit "Done") (lit "2024-01-20T08:00:00.000Z")) = true
  /\ kept cutoff (touched_task (lit "Done") (lit "last week")) = true
  /\ kept None (touched_task (lit "Done") (lit "2024-01-10T08:00:00.000Z")) = true
  /\ kept cutoff (touched_task (lit "Scheduled") (lit "2024-01-10T08:00:00.000Z")) = true.
Proof. repeat split; vm_compute; reflexivity. Qed.

(** The resolver on sample labels. A label that contains an alias of an
    earlier key goes to that key: "Paid date" and "Monto pagado" are stored
    as the paid flag. *)
Example alias_resolution_samples :
  resolved (normalize_upper (Some (lit "Cliente"))) = Some k_client
  /\ resolved (normalize_upper (Some (lit "Fecha de pago"))) = Some k_paid_date
  /\ resolved (normalize_upper (Some (lit "Paid date"))) = Some k_paid_flag
  /\ resolved (normalize_upper (Some (lit "Monto pagado"))) = Some k_paid_flag
  /\ resolved (normalize_upper (Some (lit "Fecha de cancelaci" ++ 0xf3 :: lit "n")))
     = Some k_canceled_date
  /\ resolved (normalize_upper (Some (lit "Notes"))) = None.
Proof. repeat split; vm_compute; reflexivity. Qed.

End MoreSamples.

(** ** A branch that is never taken *)

Lemma substring_trans (a b c : ustring) :
  substring a b -> substring b c -> substring a c.
Proof.
  intros (p & s & ->) (p' & s' & ->). exists (p' ++ p), (s ++ s').
  by rewrite <- !app_assoc.
Qed.

Lemma substring_refl (a : ustring) : substring a a.
Proof. exists [], []. by rewrite app_nil_r. Qed.

Lemma paid_amount_alias_shadowed (a : ustring) :
  a ∈ FIELD_ALIASES k_paid_amount ->
  exists b, b ∈ FIELD_ALIASES k_paid_flag /\ substring b a.
Proof.
  unfold FIELD_ALIASES. rewrite !elem_of_union, !elem_of_singleton.
  intros [[-> | ->] | ->].
  - exists (lit "PAGADO"). split; [set_solver|]. by apply contains_spec.
  - exists (lit "PAGADO"). split; [set_solver|]. by apply contains_spec.
  - exists (lit "PAID"). split; [set_solver|]. by apply contains_spec.
Qed.

(** X1. No label is stored under [paid_amount]: each of its aliases
    contains an alias of [paid_flag], whose branch comes first; so the paid
    amount of the extracted fields is always absent. *)
Theorem paid_amount_unreachable `{UnicodeData} (wo_from_name : list N -> list N) :
  (forall n, resolved n <> Some k_paid_amount)
  /\ (forall t, paid_amount (extract_fields wo_from_name t) = None).
Proof.
  assert (Hn : forall n, resolved n <> Some k_paid_amount).
  { intros n Hr.
    apply (find_first_spec (fun k => _alias_hit n (FIELD_ALIASES k))) in Hr
      as (before & after & E & Hhit & Hbefore).
    assert (Hflag : _alias_hit n (FIELD_ALIASES k_paid_flag) = false).
    { unfold field_keys in E.
      do 6 (destruct before as [|? before]; [discriminate E|injection E as <- E]).
      destruct before; [|by do 9 (destruct before; try discriminate E)].
      by repeat (apply Forall_cons in Hbefore as [? Hbefore]). }
    apply alias_hit_spec in Hhit.
    assert (Ha : exists a, a ∈ FIELD_ALIASES k_paid_amount /\ substring a n).
    { destruct Hhit as [Hin | Ha]; [|done]. exists n. split; [done|].
      apply substring_refl. }
    destruct Ha as (a & Ha & Han).
    destruct (paid_amount_alias_shadowed a Ha) as (b & Hb & Hba).
    assert (Hhit' : _alias_hit n (FIELD_ALIASES k_paid_flag) = true).
    { apply alias_hit_spec. right. exists b. split; [done|].
      by eapply substring_trans. }
    congruence. }
  split; [exact Hn|].
  intros t.
  assert (E := extract_fields_absent wo_from_name k_paid_amount t ltac:(done)).
  assert (Ha : absent k_paid_amount t)
    by (apply Forall_forall; intros cf _; apply Hn).
  specialize (E Ha). by injection E.
Qed.

(** * The workbook writer *)

(** ** Column letters *)

Lemma col_letter_loop_app (fuel : nat) (n : Z) (s : ustring) :
  col_letter_loop fuel n s = col_letter_loop fuel n [] ++ s.
Proof.
  revert n s. induction fuel as [|fuel IH]; intros n s; [reflexivity|].
  simpl. destruct (0 <? n)%Z; [|reflexivity].
  rewrite IH. rewrite (IH _ [_]). by rewrite <- app_assoc.
Qed.

Lemma col_letter_loop_enough (fuel fuel' : nat) (n : Z) (s : ustring) :
  (n <= Z.of_nat fuel)%Z -> (n <= Z.of_nat fuel')%Z ->
  col_letter_loop fuel n s = col_letter_loop fuel' n s.
Proof.
  revert fuel' n s. induction fuel as [|fuel IH]; intros fuel' n s Hn Hn'.
  - destruct fuel'; [reflexivity|]. simpl.
    destruct (Z.ltb_spec 0 n); [lia|reflexivity].
  - destruct fuel' as [|fuel']; simpl.
    + destruct (Z.ltb_spec 0 n); [lia|reflexivity].
    + destruct (Z.ltb_spec 0 n); [|reflexivity].
      assert (Hq : ((n - 1) / 26 <= n - 1)%Z).
      { apply Z.div_le_upper_bound; lia. }
      apply IH; lia.
Qed.

(** The loop of [col_letter], one turn at a time. *)
Lemma col_letter_step (n : Z) :
  col_letter n =
  if (0 <? n)%Z
  then col_letter ((n - 1) / 26) ++ [nth (Z.to_nat ((n - 1) mod 26)) ascii_uppercase 0]
  else [].
Proof.
  unfold col_letter at 1.
  destruct (Z.to_nat n) as [|k] eqn:E; simpl.
  - destruct (Z.ltb_spec 0 n); [lia|reflexivity].
  - destruct (Z.ltb_spec 0 n); [|reflexivity].
    rewrite col_letter_loop_app. f_equal.
    apply col_letter_loop_enough; [|lia].
    assert (Hq : ((n - 1) / 26 <= n - 1)%Z) by (apply Z.div_le_upper_bound; lia).
    lia.
Qed.

Lemma nth_ascii_uppercase (r : Z) :
  (0 <= r < 26)%Z -> nth (Z.to_nat r) ascii_uppercase 0 = Z.to_N (r + 65).
Proof.
  intros Hr.
  assert (H26 : (Z.to_nat r < 26)%nat) by lia.
  replace r with (Z.of_nat (Z.to_nat r)) at 2 by lia.
  generalize dependent (Z.to_nat r). intros k Hk.
  do 26 (destruct k as [|k]; [intros; reflexivity|]). lia.
Qed.

Lemma column_number_app (s : ustring) (c : N) :
  column_number (s ++ [c]) = (26 * column_number s + (Z.of_N c - 64))%Z.
Proof. unfold column_number. by rewrite fold_left_app. Qed.

Lemma col_letter_spec (n : Z) :
  (0 <= n)%Z ->
  column_number (col_letter n) = n
  /\ Forall (fun c => 65 <= c <= 90) (col_letter n)
  /\ (col_letter n = [] -> n = 0%Z).
Proof.
  induction n as [n IH] using (well_founded_induction (Z.lt_wf 0)). intros Hn.
  rewrite col_letter_step.
  destruct (Z.ltb_spec 0 n) as [Hpos|]; [|split; [unfold column_number; simpl; lia|split; [constructor|intros; lia]]].
  assert (Hq : (0 <= (n - 1) / 26 < n)%Z).
  { split; [apply Z.div_pos; lia|].
    apply Z.le_lt_trans with (n - 1)%Z; [apply Z.div_le_upper_bound; lia|lia]. }
  assert (Hr : (0 <= (n - 1) mod 26 < 26)%Z) by (apply Z.mod_pos_bound; lia).
  destruct (IH ((n - 1) / 26)%Z) as (Hv & Hc & _); [lia|lia|].
  rewrite nth_ascii_uppercase by assumption.
  split.
  { rewrite column_number_app, Hv.
    pose proof (Z.div_mod (n - 1) 26 ltac:(lia)). lia. }
  split.
  { apply Forall_app. split; [assumption|]. apply List.Forall_cons; [lia|constructor]. }
  intros E. by destruct (col_letter _).
Qed.

(** X3. [col_letter] writes a column number in letters: the name it returns
    is made of the letters A to Z and, read as a numeral with the digits
    A = 1 to Z = 26, it gives the number back; so two different positive
    numbers never get the same name. For zero and for a negative number the
    name is empty, and for no other. *)
Theorem col_letter_round_trip (n : Z) :
  column_number (col_letter n) = Z.max n 0
  /\ Forall (fun c => 65 <= c <= 90) (col_letter n)
  /\ (col_letter n = [] <-> (n <= 0)%Z)
  /\ (forall m, (0 < n)%Z -> (0 < m)%Z -> col_letter n = col_letter m -> n = m).
Proof.
  assert (Hneg : forall k, (k <= 0)%Z -> col_letter k = []).
  { intros k Hk. rewrite col_letter_step.
    by destruct (Z.ltb_spec 0 k); [lia|]. }
  destruct (Z.le_gt_cases n 0) as [Hn|Hn].
  - rewrite (Hneg n Hn). split; [unfold column_number; simpl; lia|].
    split; [constructor|]. split; [done|]. intros; lia.
  - destruct (col_letter_spec n ltac:(lia)) as (Hv & Hc & He).
    split; [lia|]. split; [done|]. split.
    + split; [intros E; specialize (He E); lia | lia].
    + intros m _ Hm E.
      destruct (col_letter_spec m ltac:(lia)) as (Hv' & _ & _).
      rewrite <- Hv, <- Hv'. by rewrite E.
Qed.

(** The first names and the turn from one letter to two and to three. *)
Example col_letter_samples :
  col_letter 1 = lit "A" /\ col_letter 26 = lit "Z" /\ col_letter 27 = lit "AA"
  /\ col_letter 52 = lit "AZ" /\ col_letter 702 = lit "ZZ"
  /\ col_letter 703 = lit "AAA" /\ col_letter 0 = [].
Proof. repeat split; vm_compute; reflexivity. Qed.

(** ** The order of the columns *)

Lemma column_order_NoDup (wanted present : list ustring) :
  NoDup wanted -> NoDup present -> NoDup (column_order wanted present).
Proof.
  intros Hw Hp. unfold column_order. apply NoDup_app. split; [|split].
  - by apply NoDup_ListNoDup, List.NoDup_filter, NoDup_ListNoDup.
  - intros x Hx Hx'.
    apply list_elem_of_In, filter_In in Hx as [Hx _].
    apply list_elem_of_In, filter_In in Hx' as [_ Hx'].
    apply negb_true_iff, bool_decide_eq_false in Hx'.
    by apply Hx', list_elem_of_In.
  - by apply NoDup_ListNoDup, List.NoDup_filter, NoDup_ListNoDup.
Qed.

Lemma column_order_elem_of (wanted present : list ustring) (x : ustring) :
  x ∈ column_order wanted present <-> x ∈ present.
Proof.
  unfold column_order. rewrite elem_of_app, !list_elem_of_In, !filter_In.
  cbv beta.
  rewrite negb_true_iff, bool_decide_eq_true, bool_decide_eq_false.
  rewrite <- !list_elem_of_In.
  destruct (decide (x ∈ wanted)); tauto.
Qed.

(** X4. The selection that closes [build_dataframe] only reorders: whatever
    the (distinct) columns of the frame, the result holds each of them once.
    For a frame with rows the order is the twenty wanted columns, then Task
    GID, Task URL, Task Name, Logical Status, Created At (Asana) and Modified
    At; a frame without rows has no column at all. *)
Theorem column_order_permutation (rows : list row) :
  (forall present, NoDup present -> column_order desired present ≡ₚ present)
  /\ (rows <> [] ->
      dataframe_columns rows =
      desired ++ [ lit "Task GID"; lit "Task URL"; lit "Task Name";
                   lit "Logical Status"; lit "Created At (Asana)";
                   lit "Modified At" ])
  /\ (rows <> [] -> length (dataframe_columns rows) = 26%nat)
  /\ dataframe_columns [] = [].
Proof.
  split.
  { intros present Hp.
    assert (Hd : NoDup desired)
      by (apply (bool_decide_unpack _); vm_compute; exact I).
    apply NoDup_Permutation; [by apply column_order_NoDup|done|].
    intros x. apply column_order_elem_of. }
  assert (E : column_order desired ROW_KEYS =
              desired ++ [ lit "Task GID"; lit "Task URL"; lit "Task Name";
                           lit "Logical Status"; lit "Created At (Asana)";
                           lit "Modified At" ])
    by (vm_compute; reflexivity).
  split; [|split].
  - intros Hr. unfold dataframe_columns, existing. by destruct rows.
  - intros Hr. unfold dataframe_columns, existing. destruct rows; [done|].
    cbn [is_nil]. by rewrite E.
  - reflexivity.
Qed.

(** X5. The range [write_excel_with_pivots] hands to the table and to the
    pivot tables. For a frame of [n] rows, [n] positive, the last column is
    Z, the range is [data!$A$1:$Z$] followed by [n + 1], and the table
    spans rows 0 to [n] and columns 0 to 25. For a frame without rows the
    column name is empty: the range is [data!$A$1:$$1] and the table is
    asked for with last column -1. *)
Theorem table_range (rows : list row) :
  let shape := shape_of (length rows) (length (dataframe_columns rows)) in
  (rows <> [] ->
   end_col shape = lit "Z"
   /\ data_range shape =
      lit "data!$A$1:$Z$" ++ str_of_int (Z.of_nat (length rows) + 1)
   /\ add_table_corners shape = (0, 0, Z.of_nat (length rows), 25)%Z)
  /\ (rows = [] ->
      end_col shape = []
      /\ data_range shape = lit "data!$A$1:$$1"
      /\ add_table_corners shape = (0, 0, 0, -1)%Z).
Proof.
  intros shape. split.
  - intros Hr. subst shape.
    assert (E : length (dataframe_columns rows) = 26%nat).
    { unfold dataframe_columns, existing. destruct rows; [done|]. reflexivity. }
    rewrite E. unfold shape_of.
    cbn [end_col data_range add_table_corners].
    change (col_letter (Z.of_nat 26)) with (lit "Z").
    split; [reflexivity|]. split; [reflexivity|].
    replace (Z.of_nat (length rows) + 1 - 1)%Z with (Z.of_nat (length rows))
      by lia.
    reflexivity.
  - intros ->. subst shape. repeat split; vm_compute; reflexivity.
Qed.

Example table_range_samples :
  data_range (shape_of 2 26) = lit "data!$A$1:$Z$3"
  /\ data_range (shape_of 41 26) = lit "data!$A$1:$Z$42"
  /\ str_of_int 0 = lit "0" /\ str_of_int (-5) = lit "-5".
Proof. repeat split; vm_compute; reflexivity. Qed.

(** * More on the extraction of the custom fields *)
Section LastField.
Context `{UnicodeData}.
Variable wo_from_name : list N -> list N.

Lemma get_assign_same (k : field_key) (cf : custom_field) (out out' : fields) :
  get k (assign k cf out) = get k (assign k cf out').
Proof. by destruct k. Qed.

Lemma fold_extract_last (k : field_key) (before after : list custom_field)
    (cf : custom_field) (out : fields) :
  resolved (label cf) = Some k ->
  Forall (fun cf' => resolved (label cf') <> Some k) after ->
  get k (fold_left extract_field (before ++ cf :: after) out)
  = get k (assign k cf initial_fields).
Proof.
  intros Hk Ha. rewrite fold_left_app. simpl.
  rewrite fold_extract_absent by assumption.
  rewrite extract_field_resolved. fold (label cf). rewrite Hk.
  apply get_assign_same.
Qed.

(** X6. When several custom fields of a task go to the same key, the last
    one decides alone: the entry is what its branch stores on the initial
    dictionary, whatever the earlier fields held. So a later field without
    a value erases the value of an earlier one. ([wo_number] apart, which is
    mined from the task name when it is left empty.) *)
Theorem last_custom_field_wins (k : field_key) (t : task)
    (before after : list custom_field) (cf : custom_field) :
  k <> k_wo_number ->
  t_custom_fields t = before ++ cf :: after ->
  resolved (label cf) = Some k ->
  Forall (fun cf' => resolved (label cf') <> Some k) after ->
  get k (extract_fields wo_from_name t) = get k (assign k cf initial_fields).
Proof.
  intros Hk Ht Hcf Ha. rewrite extract_fields_other by assumption.
  rewrite Ht. by apply fold_extract_last.
Qed.

End LastField.

Lemma last_custom_field_wins_witness :
  t_custom_fields Cases.twice_client_task
  = [Sample.text_field (lit "CLIENTE") (lit "Acme")]
    ++ Cases.empty_field (lit "Client") :: []
  /\ client (@extract_fields Excerpt.data Sample.no_wo Cases.twice_client_task) = [].
Proof.
  split; [reflexivity|].
  assert (E := @last_custom_field_wins Excerpt.data Sample.no_wo k_client
                 Cases.twice_client_task
                 [Sample.text_field (lit "CLIENTE") (lit "Acme")] []
                 (Cases.empty_field (lit "Client"))
                 ltac:(discriminate) eq_refl
                 ltac:(vm_compute; reflexivity) ltac:(constructor)).
  exact (f_equal (fun v => match v with VStr s => s | _ => [] end) E).
Defined.

(** ** Labels in English for the payment date *)
Section PaidDate.
Context `{UnicodeData}.

Lemma paid_date_alias_cases (a : ustring) :
  a ∈ FIELD_ALIASES k_paid_date ->
  a = lit "FECHA DE PAGO"
  \/ exists b, b ∈ FIELD_ALIASES k_paid_flag /\ substring b a.
Proof.
  unfold FIELD_ALIASES. rewrite !elem_of_union, !elem_of_singleton.
  intros [-> | ->]; [by left|]. right.
  exists (lit "PAID"). split; [set_solver|]. by apply contains_spec.
Qed.

Lemma resolved_paid_date (n : ustring) :
  resolved n = Some k_paid_date ->
  _alias_hit n (FIELD_ALIASES k_paid_flag) = false
  /\ substring (lit "FECHA DE PAGO") n.
Proof.
  intros Hr.
  apply (find_first_spec (fun k => _alias_hit n (FIELD_ALIASES k))) in Hr
    as (before & after & E & Hhit & Hbefore).
  assert (Hflag : _alias_hit n (FIELD_ALIASES k_paid_flag) = false).
  { unfold field_keys in E.
    do 5 (destruct before as [|? before]; [discriminate E|injection E as <- E]).
    destruct before; [|by do 10 (destruct before; try discriminate E)].
    by repeat (apply Forall_cons in Hbefore as [? Hbefore]). }
  split; [exact Hflag|].
  apply alias_hit_spec in Hhit.
  assert (Ha : exists a, a ∈ FIELD_ALIASES k_paid_date /\ substring a n).
  { destruct Hhit as [Hin | Ha]; [|done]. exists n. split; [done|].
    apply substring_refl. }
  destruct Ha as (a & Ha & Han).
  destruct (paid_date_alias_cases a Ha) as [-> | (b & Hb & Hba)]; [done|].
  assert (Hhit' : _alias_hit n (FIELD_ALIASES k_paid_flag) = true).
  { apply alias_hit_spec. right. exists b. split; [done|].
    by eapply substring_trans. }
  congruence.
Qed.

End PaidDate.

(** X7. A label is stored as the payment date only if FECHA DE PAGO occurs
    in it: the other alias of [paid_date], PAID DATE, contains the alias
    PAID of [paid_flag], whose branch comes first. So a label in which PAID
    occurs is never stored as the payment date; and the row of a task whose
    field "Paid Date" holds 01/02/2024 has no payment date and is not
    reported as paid. *)
Theorem paid_date_needs_spanish_label :
  (forall (U : UnicodeData) n,
     resolved n = Some k_paid_date -> substring (lit "FECHA DE PAGO") n)
  /\ (forall (U : UnicodeData) n,
        substring (lit "PAID") n -> resolved n <> Some k_paid_date)
  /\ (let t := Cases.english_paid_task in
      let r := Cases.english_paid_row in
      @task_row Excerpt.data Sample.known_dates Sample.no_client Sample.no_wo
        (p_gid Sample.north) (p_name Sample.north) (lit "(WO)") (lit "WO") None
        Sample.acme_fees t = Some r
      /\ Paid r = false /\ Paid_Date r = []).
Proof.
  split; [|split].
  - intros U n Hr. by apply resolved_paid_date in Hr as [_ Hs].
  - intros U n Hs Hr. apply resolved_paid_date in Hr as [Hf _].
    assert (Hhit : _alias_hit n (FIELD_ALIASES k_paid_flag) = true).
    { apply alias_hit_spec. right. exists (lit "PAID"). split; [set_solver|done]. }
    congruence.
  - repeat split; vm_compute; reflexivity.
Qed.

(** * More on the loop over the projects and the tasks *)
Section Loop.
Context `{UnicodeData}.
Variable dateutil_parse : bool -> list N -> option date.
Variable parse_client_from_text : list N -> list N -> list N.
Variable wo_from_name : list N -> list N.
Variable fetch_project_tasks : list N -> result (list task).

(** [zone_from_project] raises on the names of white space only, and then
    [IndexError]. *)
Lemma zone_raises_spec (name : ustring) (e : exn) :
  zone_from_project name = Raise e <->
  e = IndexError /\ name <> [] /\ Forall (fun c => is_space c = true) name.
Proof.
  unfold zone_from_project. split.
  - destruct name as [|c name]; [discriminate|]. cbn [is_nil].
    destruct (last (split (c :: name))) as [tok|] eqn:El; [discriminate|].
    intros [= <-]. split; [done|]. split; [done|].
    apply Forall_forall. intros x Hx.
    destruct (is_space x) eqn:Ex; [done|].
    assert (Hex : Exists (fun c => is_space c = false) (c :: name))
      by (apply Exists_exists; by exists x).
    destruct (last_token_exists _ Hex) as [tok Htok].
    apply split_last_token in Htok. congruence.
  - intros (-> & Hne & Hsp). destruct name as [|c name]; [done|]. cbn [is_nil].
    unfold split. by rewrite split_from_spaces.
Qed.

Lemma project_rows_Ok (cutoff_date : option date)
    (fees_map : gmap (list N) (gmap (list N) float)) (p : project) (rows : list row) :
  project_rows dateutil_parse parse_client_from_text wo_from_name
    fetch_project_tasks cutoff_date fees_map p = Ok rows <->
  exists project_zone tasks,
    zone_from_project (p_name p) = Ok project_zone
    /\ fetch_project_tasks (p_gid p) = Ok tasks
    /\ rows = omap (task_row dateutil_parse parse_client_from_text wo_from_name
                      (p_gid p) (p_name p) project_zone
                      (type_of_project (p_name p)) cutoff_date fees_map) tasks.
Proof.
  unfold project_rows. split.
  - destruct (zone_from_project (p_name p)) as [z|]; [|discriminate]. simpl.
    destruct (fetch_project_tasks (p_gid p)) as [ts|]; [|discriminate]. simpl.
    intros [= <-]. by exists z, ts.
  - by intros (z & ts & -> & -> & ->).
Qed.

Lemma project_rows_Raise (cutoff_date : option date)
    (fees_map : gmap (list N) (gmap (list N) float)) (p : project) (e : exn) :
  project_rows dateutil_parse parse_client_from_text wo_from_name
    fetch_project_tasks cutoff_date fees_map p = Raise e <->
  zone_from_project (p_name p) = Raise e
  \/ ((exists project_zone, zone_from_project (p_name p) = Ok project_zone)
      /\ fetch_project_tasks (p_gid p) = Raise e).
Proof.
  unfold project_rows. split.
  - destruct (zone_from_project (p_name p)) as [z|e']; simpl.
    + destruct (fetch_project_tasks (p_gid p)) as [ts|e']; simpl; [discriminate|].
      intros [= <-]. right. split; [by exists z|done].
    + intros [= <-]. by left.
  - intros [-> | ([z ->] & ->)]; reflexivity.
Qed.

Lemma project_loads_Ok (cutoff_date : option date)
    (fees_map : gmap (list N) (gmap (list N) float)) (p : project) :
  project_loads fetch_project_tasks p <->
  exists rows,
    project_rows dateutil_parse parse_client_from_text wo_from_name
      fetch_project_tasks cutoff_date fees_map p = Ok rows.
Proof.
  unfold project_loads. split.
  - intros ([z Hz] & [ts Hts]). eexists. apply project_rows_Ok. by exists z, ts.
  - intros [rows Hr]. apply project_rows_Ok in Hr as (z & ts & Hz & Hts & _).
    split; [by exists z | by exists ts].
Qed.

Lemma all_rows_Raise (cutoff_date : option date)
    (fees_map : gmap (list N) (gmap (list N) float)) (projects : list project)
    (e : exn) :
  all_rows dateutil_parse parse_client_from_text wo_from_name
    fetch_project_tasks cutoff_date fees_map projects = Raise e <->
  exists before p after,
    projects = before ++ p :: after
    /\ Forall (project_loads fetch_project_tasks) before
    /\ project_rows dateutil_parse parse_client_from_text wo_from_name
         fetch_project_tasks cutoff_date fees_map p = Raise e.
Proof.
  induction projects as [|q ps IH]; simpl.
  - split; [discriminate|]. intros (b & p & a & E & _). by destruct b.
  - destruct (project_rows _ _ _ _ _ _ q) as [rows|e'] eqn:Eq; simpl.
    + assert (Hq : project_loads fetch_project_tasks q)
        by (apply (project_loads_Ok cutoff_date fees_map); by exists rows).
      destruct (all_rows _ _ _ _ _ _ ps) as [rest|e'] eqn:Er; simpl.
      * split; [discriminate|].
        intros (b & p & a & E & Hb & Hp). destruct b as [|q' b].
        -- injection E as -> _. congruence.
        -- injection E as -> ->. apply Forall_cons in Hb as [_ Hb].
           assert (X : Ok rest = Raise e) by (apply IH; by exists b, p, a).
           discriminate X.
      * split.
        -- intros Heq. destruct (proj1 IH Heq) as (b & p & a & -> & Hb & Hp).
           exists (q :: b), p, a. by repeat split; [constructor|].
        -- intros (b & p & a & E & Hb & Hp). destruct b as [|q' b].
           ++ injection E as -> _. congruence.
           ++ injection E as -> ->. apply Forall_cons in Hb as [_ Hb].
              apply IH. by exists b, p, a.
    + split.
      * intros [= <-]. exists [], q, ps. by repeat split; [constructor|].
      * intros (b & p & a & E & Hb & Hp). destruct b as [|q' b].
        -- injection E as -> _. congruence.
        -- injection E as -> ->. apply Forall_cons in Hb as [Hq _].
           apply (project_loads_Ok cutoff_date fees_map) in Hq as [rows Hq].
           congruence.
Qed.

Lemma all_rows_Ok (cutoff_date : option date)
    (fees_map : gmap (list N) (gmap (list N) float)) (projects : list project)
    (rows : list row) :
  all_rows dateutil_parse parse_client_from_text wo_from_name
    fetch_project_tasks cutoff_date fees_map projects = Ok rows ->
  Forall (project_loads fetch_project_tasks) projects.
Proof.
  revert rows. induction projects as [|q ps IH]; intros rows; simpl.
  - constructor.
  - destruct (project_rows _ _ _ _ _ _ q) as [qrows|] eqn:Eq; [|discriminate].
    simpl.
    destruct (all_rows _ _ _ _ _ _ ps) as [rest|] eqn:Er; [|discriminate].
    intros _. constructor; [|by eapply IH].
    apply (project_loads_Ok cutoff_date fees_map). by exists qrows.
Qed.

(** X8. Where [build_dataframe] stops before any row is made. Without a
    token it raises [RuntimeError], whatever the projects. With a token and
    a first project whose name is white space only it raises [IndexError],
    whatever fetching the tasks of that project would give; when the name
    of the first project is fine and fetching its tasks raises, it raises
    that exception. And it returns only with a token and when every project
    loaded: every name gave a zone and every fetch succeeded. *)
Theorem build_dataframe_raises (token : ustring) (projects : list project)
    (done_cutoff : ustring) (fees_map : gmap (list N) (gmap (list N) float)) :
  (token = [] ->
   build_dataframe dateutil_parse parse_client_from_text wo_from_name
     fetch_project_tasks token projects done_cutoff fees_map
   = Raise RuntimeError)
  /\ (token <> [] -> forall p after, projects = p :: after ->
        (p_name p <> [] -> Forall (fun c => is_space c = true) (p_name p) ->
         build_dataframe dateutil_parse parse_client_from_text wo_from_name
           fetch_project_tasks token projects done_cutoff fees_map
         = Raise IndexError)
        /\ (forall e,
              (exists project_zone,
                 zone_from_project (p_name p) = Ok project_zone) ->
              fetch_project_tasks (p_gid p) = Raise e ->
              build_dataframe dateutil_parse parse_client_from_text wo_from_name
                fetch_project_tasks token projects done_cutoff fees_map
              = Raise e))
  /\ (forall rows,
        build_dataframe dateutil_parse parse_client_from_text wo_from_name
          fetch_project_tasks token projects done_cutoff fees_map = Ok rows ->
        token <> [] /\ Forall (project_loads fetch_project_tasks) projects).
Proof.
  unfold build_dataframe. split; [by intros ->|]. split.
  - intros Hne p after ->. destruct token as [|c token]; [done|].
    cbn [is_nil]. split.
    + intros Hn Hsp. apply all_rows_Raise. exists [], p, after.
      split; [done|]. split; [constructor|].
      apply project_rows_Raise. left. by apply zone_raises_spec.
    + intros e Hz Hf. apply all_rows_Raise. exists [], p, after.
      split; [done|]. split; [constructor|].
      apply project_rows_Raise. by right.
  - intros rows. destruct token as [|c token]; cbn [is_nil]; [discriminate|].
    intros Hr. split; [done|]. by eapply all_rows_Ok.
Qed.

Lemma task_row_gid (pgid pname project_zone ttype : ustring)
    (cutoff_date : option date)
    (fees_map : gmap (list N) (gmap (list N) float)) (t : task) (r : row) :
  task_row dateutil_parse parse_client_from_text wo_from_name
    pgid pname project_zone ttype cutoff_date fees_map t = Some r ->
  Task_GID r = t_gid t.
Proof. intros Hr. apply task_row_Some in Hr. by subst r. Qed.

Lemma omap_gid_sublist (f : task -> option row) (tasks : list task) :
  (forall t r, f t = Some r -> Task_GID r = t_gid t) ->
  List.map Task_GID (omap f tasks) `sublist_of` List.map t_gid tasks.
Proof.
  intros Hf. induction tasks as [|t ts IH]; simpl; [constructor|].
  destruct (f t) as [r|] eqn:E; simpl.
  - rewrite (Hf t r E). by constructor.
  - by constructor.
Qed.

(** X9. The rows follow the tasks: when [build_dataframe] returns, the
    tasks of every project were fetched, and the task gids of the rows, in
    the order of the rows, are a subsequence of the gids of the fetched tasks
    taken project after project. So the frame has at most one row per
    fetched task, and the order of the service is kept. *)
Theorem rows_follow_tasks (token : ustring) (projects : list project)
    (done_cutoff : ustring) (fees_map : gmap (list N) (gmap (list N) float))
    (rows : list row) :
  build_dataframe dateutil_parse parse_client_from_text wo_from_name
    fetch_project_tasks token projects done_cutoff fees_map = Ok rows ->
  exists fetched : list (list task),
    Forall2 (fun p tasks => fetch_project_tasks (p_gid p) = Ok tasks)
      projects fetched
    /\ List.map Task_GID rows `sublist_of` List.map t_gid (concat fetched)
    /\ (length rows <= length (concat fetched))%nat.
Proof.
  unfold build_dataframe. destruct (is_nil token); [discriminate|].
  generalize (cutoff_of dateutil_parse done_cutoff). intros cutoff.
  intros Hr.
  assert (Hs : exists fetched : list (list task),
            Forall2 (fun p tasks => fetch_project_tasks (p_gid p) = Ok tasks)
              projects fetched
            /\ List.map Task_GID rows `sublist_of` List.map t_gid (concat fetched)).
  { revert rows Hr. induction projects as [|p ps IH]; intros rows; simpl.
    - intros [= <-]. exists []. split; constructor.
    - destruct (project_rows _ _ _ _ _ _ p) as [prows|] eqn:Ep; [|discriminate].
      simpl.
      destruct (all_rows _ _ _ _ _ _ ps) as [rest|] eqn:Er; [|discriminate].
      simpl. intros [= <-].
      apply project_rows_Ok in Ep as (z & ts & Hz & Hts & ->).
      destruct (IH rest eq_refl) as (fetched & Hf & Hsub).
      exists (ts :: fetched). split; [by constructor|].
      simpl. rewrite !List.map_app. apply sublist_app; [|done].
      apply omap_gid_sublist. intros t r. apply task_row_gid. }
  destruct Hs as (fetched & Hf & Hsub). exists fetched.
  split; [done|]. split; [done|].
  apply sublist_length in Hsub. by rewrite !length_map in Hsub.
Qed.

(** ** Invoice date and invoice month *)

Lemma strftime_Ym_not_nil (d : date) : strftime_Ym d <> [].
Proof. unfold strftime_Ym, four_digits, two_digits. discriminate. Qed.

(** X10. The month of a row agrees with its date: a row with an invoice
    month has a date that the permissive parser reads from the invoice
    text, and when that date is of the years 1000 to 9999 the month is that
    date written YYYY-MM and the invoice date the same date written
    MM/DD/YYYY. The month is empty exactly when that text is empty or the
    parser finds no date in it, whatever the invoice date column then
    shows. *)
Theorem invoice_month_matches_date (pgid pname project_zone ttype : ustring)
    (cutoff_date : option date)
    (fees_map : gmap (list N) (gmap (list N) float)) (t : task) (r : row) :
  task_row dateutil_parse parse_client_from_text wo_from_name
    pgid pname project_zone ttype cutoff_date fees_map t = Some r ->
  let text := invoice_date (extract_fields wo_from_name t) in
  (Invoice_Month r <> [] ->
   exists d,
     dateutil_parse true text = Some d
     /\ (1000 <= year d <= 9999 ->
         Invoice_Month r = strftime_Ym d /\ Invoice_Date r = strftime_mdY d))
  /\ (Invoice_Month r = [] <-> text = [] \/ dateutil_parse true text = None).
Proof.
  intros Hr text. apply task_row_Some in Hr. subst r.
  cbn [Invoice_Month Invoice_Date make_row].
  set (tf := task_fields parse_client_from_text wo_from_name project_zone t).
  assert (Ei : invoice_date tf = text).
  { assert (E := task_fields_other parse_client_from_text wo_from_name
                   k_invoice_date project_zone t ltac:(done) ltac:(done)).
    by injection E. }
  rewrite Ei. unfold _fmt_mmddyyyy.
  destruct text as [|c text]; cbn [is_nil].
  { split; [done|]. split; [by left|done]. }
  destruct (dateutil_parse true (c :: text)) as [d|].
  - split; [intros _; by exists d|].
    split; [intros E; by apply strftime_Ym_not_nil in E|].
    by intros [|].
  - split; [done|]. split; [by right|done].
Qed.

(** ** Tasks outside the sections of the project *)

Lemma section_in_none (pgid : ustring) (ms : list membership) :
  Forall (fun m => membership_gid m <> pgid) ms -> section_in pgid ms = [].
Proof.
  induction 1 as [|m ms Hm _ IH]; simpl; [done|].
  unfold membership_gid in Hm. unfold str_eqb.
  by rewrite bool_decide_eq_false_2.
Qed.

(** X11. A task that has no membership in the project it was fetched for
    is never filtered: whatever the sections it has in other projects, its
    time stamps and the cutoff, the loop body appends a row for it, with an
    empty column and an empty logical status. *)
Theorem task_outside_sections (pgid pname project_zone ttype : ustring)
    (cutoff_date : option date)
    (fees_map : gmap (list N) (gmap (list N) float)) (t : task) :
  Forall (fun m => membership_gid m <> pgid) (t_memberships t) ->
  exists r,
    task_row dateutil_parse parse_client_from_text wo_from_name
      pgid pname project_zone ttype cutoff_date fees_map t = Some r
    /\ Column r = []
    /\ Logical_Status r = [].
Proof.
  intros Hm. unfold task_row. rewrite (section_in_none pgid _ Hm).
  assert (Ei : ignored_section [] = false) by reflexivity.
  assert (Eb : before_cutoff dateutil_parse cutoff_date [] t = false)
    by (by destruct cutoff_date).
  rewrite Ei, Eb. eexists. split; [reflexivity|]. split; reflexivity.
Qed.

End Loop.

Section LoopSamples.
Import Sample.
#[local] Existing Instance Excerpt.data.

(** A run over two projects of which the second has a blank name: the
    first project is loaded, then [IndexError] is raised. *)
Example build_dataframe_raises_samples :
  let t := acme_task None None None None None None in
  build_dataframe known_dates no_client no_wo (only t) (lit "token")
    [north; Cases.blank] [] acme_fees = Raise IndexError
  /\ build_dataframe known_dates no_client no_wo (only t) []
       [north] [] acme_fees = Raise RuntimeError
  /\ build_dataframe known_dates no_client no_wo (fun _ => Raise ApiException)
       (lit "token") [north] [] acme_fees = Raise ApiException
  /\ build_dataframe known_dates no_client no_wo (only t) (lit "token")
       [] [] acme_fees = Ok [].
Proof. repeat split; vm_compute; reflexivity. Qed.

Lemma rows_follow_tasks_witness :
  let t := acme_task (Some (lit "7")) None None None None None in
  let r := acme_row no_wo (Some (lit "7")) None None None None in
  build_dataframe known_dates no_client no_wo (only t) (lit "token") [north] []
    acme_fees = Ok [r]
  /\ exists fetched : list (list task),
       Forall2 (fun p tasks => only t (p_gid p) = Ok tasks) [north] fetched
       /\ List.map Task_GID [r] `sublist_of` List.map t_gid (concat fetched)
       /\ (length [r] <= length (concat fetched))%nat.
Proof.
  intros t r.
  assert (Hb : build_dataframe known_dates no_client no_wo (only t)
                 (lit "token") [north] [] acme_fees = Ok [r])
    by (vm_compute; reflexivity).
  split; [exact Hb|].
  exact (rows_follow_tasks known_dates no_client no_wo (only t) (lit "token")
           [north] [] acme_fees [r] Hb).
Defined.

Lemma invoice_month_matches_date_witness :
  let t := Cases.invoiced_task in
  let r := Cases.invoiced_row in
  task_row known_dates no_client no_wo (p_gid north) (p_name north)
    (lit "(WO)") (lit "WO") None acme_fees t = Some r
  /\ Invoice_Month r = lit "2024-01"
  /\ Invoice_Date r = lit "01/02/2024"
  /\ exists d,
       known_dates true (invoice_date (extract_fields no_wo t)) = Some d
       /\ Invoice_Month r = strftime_Ym d
       /\ Invoice_Date r = strftime_mdY d.
Proof.
  intros t r.
  assert (Hr : task_row known_dates no_client no_wo (p_gid north) (p_name north)
                 (lit "(WO)") (lit "WO") None acme_fees t = Some r)
    by (vm_compute; reflexivity).
  split; [exact Hr|].
  split; [vm_compute; reflexivity|].
  split; [vm_compute; reflexivity|].
  destruct (invoice_month_matches_date known_dates no_client no_wo
              (p_gid north) (p_name north) (lit "(WO)") (lit "WO") None
              acme_fees t r Hr) as [Hm _].
  destruct (Hm ltac:(vm_compute; discriminate)) as (d & Hd & Hw).
  exists d. split; [exact Hd|]. apply Hw.
  vm_compute in Hd. injection Hd as <-. simpl. lia.
Defined.

Lemma task_outside_sections_witness :
  let cutoff := Some (Date 2024 1 15) in
  let t := Cases.visiting_task in
  Forall (fun m => membership_gid m <> lit "1") (t_memberships t)
  /\ exists r,
       task_row known_dates no_client no_wo (lit "1") (p_name north)
         (lit "(WO)") (lit "WO") cutoff acme_fees t = Some r
       /\ Column r = []
       /\ Logical_Status r = [].
Proof.
  intros cutoff t.
  assert (Hm : Forall (fun m => membership_gid m <> lit "1") (t_memberships t))
    by (apply List.Forall_cons; [vm_compute; discriminate|apply List.Forall_nil]).
  split; [exact Hm|].
  exact (task_outside_sections known_dates no_client no_wo (lit "1")
           (p_name north) (lit "(WO)") (lit "WO") cutoff acme_fees t Hm).
Defined.

End LoopSamples.

(** * The fee table *)
Section FeeFile.
Context `{UnicodeData}.

Lemma load_types_spec (items : list (ustring * json))
    (inner res : gmap (list N) float) :
  load_types items inner = inr res ->
  (forall k, Forall (fun kv => upper (fst kv) <> k) items -> res !! k = inner !! k)
  /\ (forall t pct, last_with_upper items t pct ->
        exists x, float_of_json pct = inr x /\ res !! upper t = Some x).
Proof.
  revert inner. induction items as [|[t0 p0] items IH]; intros inner; simpl.
  - intros [= <-]. split; [done|].
    intros t pct (b & a & E & _). by destruct b.
  - destruct (float_of_json p0) as [e|x0] eqn:E0; [discriminate|].
    intros Hres. destruct (IH _ Hres) as [IH1 IH2]. split.
    + intros k Hk. apply Forall_cons in Hk as [Hk0 Hk]. simpl in Hk0.
      rewrite IH1 by assumption. by rewrite lookup_insert_ne.
    + intros t pct (b & a & E & Ha). destruct b as [|kv b].
      * injection E as E1 E2 E3. subst t0 p0 items. exists x0. split; [done|].
        rewrite IH1 by assumption. by rewrite lookup_insert_eq.
      * injection E as _ E2. apply IH2. by exists b, a.
Qed.

Lemma load_clients_spec (items : list (ustring * json))
    (norm res : gmap (list N) (gmap (list N) float)) :
  load_clients items norm = inr res ->
  (forall k, Forall (fun kv => upper (fst kv) <> k) items -> res !! k = norm !! k)
  /\ (forall client types, last_with_upper items client types ->
        exists inner,
          load_types (if json_truthy types
                      then match types with JObject ts => ts | _ => [] end
                      else []) ∅ = inr inner
          /\ res !! upper client = Some inner).
Proof.
  revert norm. induction items as [|[c0 t0] items IH]; intros norm; simpl.
  - intros [= <-]. split; [done|].
    intros c ts (b & a & E & _). by destruct b.
  - destruct (if json_truthy t0 then json_items t0 else inr [])
      as [e|ts0] eqn:E0; [discriminate|].
    destruct (load_types ts0 ∅) as [e|inner0] eqn:E1; [discriminate|].
    intros Hres. destruct (IH _ Hres) as [IH1 IH2]. split.
    + intros k Hk. apply Forall_cons in Hk as [Hk0 Hk]. simpl in Hk0.
      rewrite IH1 by assumption. by rewrite lookup_insert_ne.
    + intros c ts (b & a & E & Ha). destruct b as [|kv b].
      * injection E as E2 E3 E4. subst c0 t0 items. exists inner0. split.
        -- rewrite <- E1. f_equal.
           destruct (json_truthy ts); [|by injection E0].
           destruct ts; try discriminate E0. by injection E0.
        -- rewrite IH1 by assumption. by rewrite lookup_insert_eq.
      * injection E as _ E2. apply IH2. by exists b, a.
Qed.

Lemma load_types_Ok (items : list (ustring * json)) (inner : gmap (list N) float) :
  (exists res, load_types items inner = inr res) <->
  Forall (fun kv => exists x, float_of_json (snd kv) = inr x) items.
Proof.
  revert inner. induction items as [|[t0 p0] items IH]; intros inner; simpl.
  - split; [constructor | by eexists].
  - destruct (float_of_json p0) as [e|x0] eqn:E0.
    + split; [by intros [res Hres]|].
      intros Hf. apply Forall_cons in Hf as [[x Hx] _]. simpl in Hx. congruence.
    + rewrite IH. split.
      * intros Hf. constructor; [by exists x0|done].
      * intros Hf. by apply Forall_cons in Hf as [_ Hf].
Qed.

Lemma load_clients_Ok (items : list (ustring * json))
    (norm : gmap (list N) (gmap (list N) float)) :
  (exists res, load_clients items norm = inr res) <->
  Forall (fun kv => loadable_types (snd kv)) items.
Proof.
  revert norm. induction items as [|[c0 t0] items IH]; intros norm; simpl.
  - split; [constructor | by eexists].
  - assert (Hload : loadable_types t0 <->
              exists ts, (if json_truthy t0 then json_items t0 else inr []) = inr ts
                         /\ exists inner, load_types ts ∅ = inr inner).
    { unfold loadable_types. destruct (json_truthy t0) eqn:Et.
      - split.
        + intros [Hf | (ts & -> & Hts)]; [done|]. exists ts. split; [done|].
          by apply load_types_Ok.
        + intros (ts & Hi & Hl). right. destruct t0; try discriminate Hi.
          injection Hi as ->. exists ts. split; [done|].
          by apply (load_types_Ok ts ∅).
      - split; [|by left]. intros _. exists []. split; [done|]. by eexists. }
    split.
    + intros [res Hres].
      destruct (if json_truthy t0 then json_items t0 else inr [])
        as [e|ts0] eqn:E0; [discriminate|].
      destruct (load_types ts0 ∅) as [e|inner0] eqn:E1; [discriminate|].
      constructor.
      * apply Hload. exists ts0. split; [done|]. by exists inner0.
      * apply (IH (<[upper c0 := inner0]> norm)). by exists res.
    + intros Hf. apply Forall_cons in Hf as [H0 Hf]. simpl in H0.
      apply Hload in H0 as (ts & -> & inner & ->).
      by apply IH.
Qed.

Variable path_exists : ustring -> bool.
Variable read_json : ustring -> load_exn + json.

(** X12. Reading the fee file and looking a fee up. Let the file hold an
    object. The item of a client that decides is the last one among the
    keys with the same upper case (an earlier one is replaced as a whole,
    not merged); in its object, the item of a type that decides is again
    the last one with that upper case. Then for every spelling of the
    client and of the type with these upper cases, [get_fee_pct] on the
    loaded table returns [float] of the percentage of that item. A client
    whose value counts as false has fee zero for every type, and so has a
    type that the deciding object does not hold, unless the object holds
    ANY. *)
Theorem load_fees_round_trip (path : ustring) (items : list (ustring * json))
    (norm : gmap (list N) (gmap (list N) float))
    (client : ustring) (types : json) :
  is_nil path = false ->
  path_exists path = true ->
  read_json path = inr (JObject items) ->
  load_fees_map path_exists read_json path = inr norm ->
  last_with_upper items client types ->
  forall client', upper client' = upper client ->
    (json_truthy types = false ->
     forall ttype, get_fee_pct norm client' ttype = 0%float)
    /\ (forall ts t pct,
          types = JObject ts -> last_with_upper ts t pct ->
          exists x,
            float_of_json pct = inr x
            /\ forall ttype, upper ttype = upper t ->
                 get_fee_pct norm client' ttype = x)
    /\ (forall ts ttype,
          types = JObject ts ->
          Forall (fun kv => upper (fst kv) <> upper ttype
                            /\ upper (fst kv) <> lit "ANY") ts ->
          get_fee_pct norm client' ttype = 0%float).
Proof.
  intros Hp He Hr Hl Hlast client' Hc.
  unfold load_fees_map in Hl. rewrite Hp, He, Hr in Hl. simpl in Hl.
  destruct (load_clients_spec _ _ _ Hl) as [_ Hc2].
  destruct (Hc2 client types Hlast) as (inner & Hinner & Hlook).
  unfold get_fee_pct. rewrite Hc, Hlook.
  split; [|split].
  - intros Hf ttype. rewrite Hf in Hinner. injection Hinner as <-.
    by rewrite !lookup_empty.
  - intros ts t pct -> Hts.
    assert (Hin : load_types ts ∅ = inr inner).
    { destruct (json_truthy (JObject ts)) eqn:Et; [done|].
      simpl in Et. apply negb_false_iff in Et. destruct ts; [|done].
      destruct Hts as (b & a & E & _). by destruct b. }
    destruct (load_types_spec _ _ _ Hin) as [_ H2].
    destruct (H2 t pct Hts) as (x & Hx & Hlx).
    exists x. split; [done|]. intros ttype ->. by rewrite Hlx.
  - intros ts ttype -> Hts.
    assert (Hin : load_types ts ∅ = inr inner).
    { destruct (json_truthy (JObject ts)) eqn:Et; [done|].
      simpl in Et. apply negb_false_iff in Et. by destruct ts. }
    destruct (load_types_spec _ _ _ Hin) as [H1 _].
    rewrite (H1 (upper ttype)), (H1 (lit "ANY")), !lookup_empty; [done|..].
    + eapply Forall_impl; [exact Hts|]. by intros kv [_ ?].
    + eapply Forall_impl; [exact Hts|]. by intros kv [? _].
Qed.

(** X13. When [load_fees_map] returns and when it raises. Without a path,
    or with a path that does not exist, it returns the empty table and
    reads nothing. Otherwise what reading raises is raised; a value that is
    not an object raises [AttributeError]; and an object is loaded exactly
    when the value of every client is an object or counts as false, and
    [float] converts every percentage of these objects: a percentage
    [null], for one, raises [TypeError]. *)
Theorem load_fees_map_outcome (path : ustring) :
  (is_nil path = true \/ path_exists path = false ->
   load_fees_map path_exists read_json path = inr ∅)
  /\ (is_nil path = false -> path_exists path = true ->
      (forall e, read_json path = inl e ->
         load_fees_map path_exists read_json path = inl e)
      /\ (forall data, read_json path = inr data ->
            (forall items, data <> JObject items) ->
            load_fees_map path_exists read_json path = inl AttributeError)
      /\ (forall items, read_json path = inr (JObject items) ->
            ((exists norm, load_fees_map path_exists read_json path = inr norm)
             <-> Forall (fun kv => loadable_types (snd kv)) items)
            /\ (forall client t,
                  items = [(client, JObject [(t, JNull)])] ->
                  load_fees_map path_exists read_json path = inl TypeError))).
Proof.
  unfold load_fees_map. split.
  - intros [-> | ->]; [done|]. by rewrite orb_true_r.
  - intros -> ->. simpl. split; [|split].
    + by intros e ->.
    + intros data -> Hd. destruct data; try done. by destruct (Hd items).
    + intros items ->. simpl. split; [apply load_clients_Ok|].
      by intros client t ->.
Qed.

(** ** Keys that are not in upper case *)

Lemma upper_fixed (s k : ustring) :
  (forall s, upper (upper s) = upper s) -> upper k <> k -> upper s <> k.
Proof. intros Hi Hk E. apply Hk. by rewrite <- E, Hi. Qed.

(** X14. [get_fee_pct] looks up the upper-cased client and type, so an
    entry whose key is not its own upper case is never found: removing the
    entry of such a client, or of such a type of any client (ANY apart),
    changes no fee. (This relies on upper-casing twice giving what
    upper-casing once gives.) *)
Theorem fee_keys_must_be_upper
    (fees_map : gmap (list N) (gmap (list N) float)) :
  (forall s, upper (upper s) = upper s) ->
  (forall k, upper k <> k ->
     forall client ttype,
       get_fee_pct (delete k fees_map) client ttype
       = get_fee_pct fees_map client ttype)
  /\ (forall c types t,
        fees_map !! c = Some types -> upper t <> t -> t <> lit "ANY" ->
        forall client ttype,
          get_fee_pct (<[c := delete t types]> fees_map) client ttype
          = get_fee_pct fees_map client ttype).
Proof.
  intros Hi. split.
  - intros k Hk client ttype. unfold get_fee_pct.
    rewrite lookup_delete_ne; [done|]. intros E. by apply (upper_fixed client k).
  - intros c types t Hc Ht Hany client ttype. unfold get_fee_pct.
    destruct (decide (upper client = c)) as [->|Hne].
    + rewrite lookup_insert_eq, Hc.
      rewrite !lookup_delete_ne; [done|done|].
      intros E. by apply (upper_fixed ttype t).
    + by rewrite lookup_insert_ne.
Qed.

End FeeFile.

Section FeeSamples.
Import Excerpt.
#[local] Existing Instance Excerpt.data.

Lemma upper_of_twice (c : N) : flat_map upper_of (upper_of c) = upper_of c.
Proof.
  destruct (untabled c) eqn:Hc.
  { rewrite upper_untabled by done. simpl. rewrite upper_untabled by done.
    reflexivity. }
  assert (L : all_below (fun c => list_eqb (flat_map upper_of (upper_of c)) (upper_of c))
                latin_end
              && all_below (fun i => list_eqb (flat_map upper_of (upper_of (marks_start + i)))
                                       (upper_of (marks_start + i)))
                   (marks_end - marks_start)
              && all_below (fun i => list_eqb (flat_map upper_of (upper_of (music_start + i)))
                                       (upper_of (music_start + i)))
                   (music_end - music_start) = true)
    by (vm_compute; reflexivity).
  rewrite !andb_true_iff in L. destruct L as [[L1 L2] L3].
  apply list_eqb_eq.
  destruct (untabled_cases c) as [H1|[H2|[H3|H4]]].
  - by apply (all_below_spec _ _ L1).
  - pose proof (all_below_spec _ _ L2 (c - marks_start) ltac:(lia)) as L.
    simpl in L. by replace (marks_start + (c - marks_start)) with c in L by lia.
  - pose proof (all_below_spec _ _ L3 (c - music_start) ltac:(lia)) as L.
    simpl in L. by replace (music_start + (c - music_start)) with c in L by lia.
  - congruence.
Qed.

Lemma excerpt_upper_idempotent (s : ustring) : upper (upper s) = upper s.
Proof.
  unfold upper. simpl. induction s as [|c s IH]; [reflexivity|].
  simpl. rewrite flat_map_app, IH. f_equal. apply upper_of_twice.
Qed.

Lemma load_fees_round_trip_witness :
  exists norm,
    load_fees_map Cases.one_file Cases.read_fees (lit "fees.json") = inr norm
    /\ get_fee_pct norm (lit "Acme") (lit "Wo") = Sample.one_tenth.
Proof.
  destruct (load_fees_map Cases.one_file Cases.read_fees (lit "fees.json"))
    as [e|norm] eqn:Hl; [vm_compute in Hl; discriminate Hl|].
  exists norm. split; [reflexivity|].
  assert (Hlast : last_with_upper
                    [ (lit "acme", JObject [ (lit "wo", JFloat Sample.one_tenth);
                                             (lit "any", JString (lit "0.2")) ]);
                      (lit "Beta", JNull) ]
                    (lit "acme")
                    (JObject [ (lit "wo", JFloat Sample.one_tenth);
                               (lit "any", JString (lit "0.2")) ])).
  { exists [], [(lit "Beta", JNull)]. split; [reflexivity|].
    apply List.Forall_cons; [vm_compute; discriminate|apply List.Forall_nil]. }
  assert (Hwo : last_with_upper
                  [ (lit "wo", JFloat Sample.one_tenth);
                    (lit "any", JString (lit "0.2")) ]
                  (lit "wo") (JFloat Sample.one_tenth)).
  { exists [], [(lit "any", JString (lit "0.2"))]. split; [reflexivity|].
    apply List.Forall_cons; [vm_compute; discriminate|apply List.Forall_nil]. }
  destruct (load_fees_round_trip Cases.one_file Cases.read_fees (lit "fees.json")
              _ norm (lit "acme") _ eq_refl eq_refl eq_refl Hl Hlast
              (lit "Acme") eq_refl) as (_ & Hfee & _).
  destruct (Hfee _ (lit "wo") (JFloat Sample.one_tenth) eq_refl Hwo)
    as (x & Hx & Hget).
  injection Hx as <-. apply Hget. reflexivity.
Defined.

(** The file of the samples loaded: the keys are found in any case, ANY
    stands for the types that are not listed, and a client whose value is
    [null] has no fee. *)
Example load_fees_samples :
  exists norm,
    load_fees_map Cases.one_file Cases.read_fees (lit "fees.json") = inr norm
    /\ get_fee_pct norm (lit "ACME") (lit "wo") = Sample.one_tenth
    /\ get_fee_pct norm (lit "acme") (lit "PO") = 0x1.999999999999ap-3%float
    /\ get_fee_pct norm (lit "beta") (lit "WO") = 0%float
    /\ load_fees_map Cases.one_file Cases.read_fees (lit "other.json") = inr ∅
    /\ load_fees_map Cases.one_file Cases.read_fees [] = inr ∅.
Proof.
  destruct (load_fees_map Cases.one_file Cases.read_fees (lit "fees.json"))
    as [e|norm] eqn:Hl; [vm_compute in Hl; discriminate Hl|].
  exists norm. split; [reflexivity|].
  unfold load_fees_map in Hl. simpl in Hl. injection Hl as <-.
  repeat split; vm_compute; reflexivity.
Qed.

Lemma fee_keys_must_be_upper_witness :
  (forall s, upper (upper s) = upper s)
  /\ get_fee_pct Cases.lower_fees (lit "acme") (lit "wo") = 0%float
  /\ get_fee_pct Cases.lower_fees (lit "ACME") (lit "WO") = 0%float.
Proof.
  split; [exact excerpt_upper_idempotent|].
  destruct (fee_keys_must_be_upper Cases.lower_fees excerpt_upper_idempotent)
    as [Hk _].
  split.
  - rewrite <- (Hk (lit "acme") ltac:(vm_compute; discriminate)).
    vm_compute. reflexivity.
  - rewrite <- (Hk (lit "acme") ltac:(vm_compute; discriminate)).
    vm_compute. reflexivity.
Defined.

End FeeSamples.

(** * The matcher *)
Section Matcher.
Import Re.

(** The turns of a repetition never run out of fuel: any two amounts above
    the length of the text that is left give the same result. *)
Lemma star_loop_fuel {A : Type} (g : bool)
    (body : pos -> (pos -> option A) -> option A) (k : pos -> option A)
    (fuel fuel' : nat) (p : pos) :
  (length (ahead p) < fuel)%nat -> (length (ahead p) < fuel')%nat ->
  star_loop g body k fuel p = star_loop g body k fuel' p.
Proof.
  revert fuel' p. induction fuel as [|fuel IH]; intros fuel' p Hf Hf'; [lia|].
  destruct fuel' as [|fuel']; [lia|]. simpl.
  assert (E : (fun p' => if (length (ahead p') <? length (ahead p))%nat
                         then star_loop g body k fuel p' else None)
              = (fun p' => if (length (ahead p') <? length (ahead p))%nat
                           then star_loop g body k fuel' p' else None)).
  { apply FunctionalExtensionality.functional_extensionality. intros p'.
    destruct (Nat.ltb_spec (length (ahead p')) (length (ahead p))); [|done].
    apply IH; lia. }
  by rewrite E.
Qed.

(** What [run] finds is a match in the declarative reading. *)
Lemma run_sound (r : regex) :
  forall (A : Type) (p : pos) (k : pos -> option A) (x : A),
    run r p k = Some x -> exists p', Matches r p p' /\ k p' = Some x.
Proof.
  induction r as [f| |a IHa b IHb|a IHa b IHb|g a IHa|a IHa| | |w];
    intros A p k x Hx; cbn [run] in Hx.
  - destruct p as [b [|c a]]; simpl in Hx; [discriminate|].
    destruct (f c) eqn:Ef; [|discriminate].
    eexists. split; [by constructor|done].
  - exists p. split; [constructor|done].
  - apply IHa in Hx as (p' & Ha & Hx). apply IHb in Hx as (p'' & Hb & Hx).
    exists p''. split; [by econstructor|done].
  - destruct (run a p k) as [y|] eqn:Ea.
    + injection Hx as ->. apply IHa in Ea as (p' & Ha & Hk).
      exists p'. split; [by apply M_Alt_l|done].
    + apply IHb in Hx as (p' & Hb & Hk).
      exists p'. split; [by apply M_Alt_r|done].
  - set (fuel := S (length (ahead p))) in Hx. clearbody fuel. revert p x Hx.
    induction fuel as [|fuel IH]; intros p x Hx; simpl in Hx.
    { exists p. split; [constructor|done]. }
    assert (Hmore : forall y,
              run a p (fun p' => if (length (ahead p') <? length (ahead p))%nat
                                 then star_loop g (run a) k fuel p' else None)
              = Some y ->
              exists p', Matches (Star g a) p p' /\ k p' = Some y).
    { intros y Hy. apply IHa in Hy as (p1 & Ha & Hy).
      destruct (Nat.ltb_spec (length (ahead p1)) (length (ahead p)));
        [|discriminate].
      apply IH in Hy as (p' & Hs & Hk).
      exists p'. split; [by eapply M_Star_turn|done]. }
    assert (Hstop : forall y, k p = Some y ->
              exists p', Matches (Star g a) p p' /\ k p' = Some y).
    { intros y Hy. exists p. split; [constructor|done]. }
    destruct g.
    + destruct (run a p _) as [y|] eqn:Em.
      * injection Hx as ->. by apply Hmore.
      * by apply Hstop.
    + destruct (k p) as [y|] eqn:Ek.
      * injection Hx as ->. by apply Hstop.
      * by apply Hmore.
  - destruct (run a p (fun _ => Some tt)) as [[]|] eqn:Ea; [|discriminate].
    apply IHa in Ea as (p' & Ha & _).
    exists p. split; [by econstructor|done].
  - destruct p as [[|c b] a]; simpl in Hx; [|discriminate].
    eexists. split; [constructor|done].
  - destruct p as [b a]. simpl in Hx.
    repeat
      match type of Hx with
      | context [match ?c with _ => _ end] =>
          is_var c; destruct c; try discriminate Hx
      end;
      (eexists; split; [constructor; simpl; auto|exact Hx]).
  - destruct (xorb _ _) eqn:Ew; [|discriminate].
    exists p. split; [by constructor|done].
Qed.

(** Where [run] finds nothing, no match in the declarative reading passes
    the continuation. *)
Lemma run_complete (r : regex) :
  forall (A : Type) (p : pos) (k : pos -> option A),
    run r p k = None -> forall p', Matches r p p' -> k p' = None.
Proof.
  induction r as [f| |a IHa b IHb|a IHa b IHb|g a IHa|a IHa| | |w];
    intros A p k Hx p' Hm; cbn [run] in Hx.
  - inversion Hm; subst. simpl in Hx.
    match goal with Hf : f _ = true |- _ => by rewrite Hf in Hx end.
  - by inversion Hm; subst.
  - inversion Hm; subst.
    match goal with
    | Ha : Matches a p ?q, Hb : Matches b ?q p' |- _ =>
        exact (IHb _ _ _ (IHa _ _ _ Hx _ Ha) _ Hb)
    end.
  - destruct (run a p k) as [y|] eqn:Ea; [discriminate|].
    inversion Hm; subst; [by eapply IHa|by eapply IHb].
  - assert (Hfuel : (length (ahead p) < S (length (ahead p)))%nat) by lia.
    set (fuel := S (length (ahead p))) in Hx, Hfuel. clearbody fuel.
    revert p Hx Hfuel p' Hm.
    induction fuel as [|fuel IH]; intros p Hx Hfuel p' Hm; [lia|].
    simpl in Hx.
    assert (Hparts :
              k p = None
              /\ run a p (fun p' => if (length (ahead p') <? length (ahead p))%nat
                                    then star_loop g (run a) k fuel p' else None)
                 = None).
    { destruct g.
      - destruct (run a p _); [discriminate|done].
      - destruct (k p); [discriminate|done]. }
    destruct Hparts as [Hk Hmore].
    inversion Hm; subst; [done|].
    match goal with
    | Ha : Matches a p ?q, Hs : Matches (Star g a) ?q p' |- _ =>
        pose proof (IHa _ _ _ Hmore _ Ha) as Hturn; simpl in Hturn;
        destruct (Nat.ltb_spec (length (ahead q)) (length (ahead p))); [|lia];
        exact (IH _ Hturn ltac:(lia) _ Hs)
    end.
  - inversion Hm; subst.
    destruct (run a p' (fun _ => Some tt)) as [[]|] eqn:Ea; [done|].
    match goal with
    | Ha : Matches a p' _ |- _ => by pose proof (IHa _ _ _ Ea _ Ha)
    end.
  - inversion Hm; subst. done.
  - inversion Hm; subst.
    match goal with Ha : _ \/ _ |- _ => by destruct Ha as [Ha | Ha]; rewrite Ha in Hx end.
  - inversion Hm; subst.
    match goal with Hw : xorb _ _ = true |- _ => by rewrite Hw in Hx end.
Qed.

(** A match runs forward: it consumes a piece of the text ahead. *)
Lemma Matches_consume (r : regex) (p p' : pos) :
  Matches r p p' ->
  exists u, ahead p = u ++ ahead p' /\ behind p' = rev u ++ behind p.
Proof.
  induction 1 as [f c b a Hf|p|a b p p' p'' _ [u [Eu Eu']] _ [v [Ev Ev']]
                 |a b p p' _ IH|a b p p' _ IH|g a p
                 |g a p p' p'' _ [u [Eu Eu']] _ _ [v [Ev Ev']]
                 |a p p' _ _|a|p _|w p _];
    try (by exists []).
  - by exists [c].
  - exists (u ++ v). rewrite Eu, Ev, Ev', Eu', rev_app_distr, <- !app_assoc. done.
  - done.
  - done.
  - exists (u ++ v). rewrite Eu, Ev, Ev', Eu', rev_app_distr, <- !app_assoc. done.
Qed.

Lemma between_consumed (p p' : pos) (u : list N) :
  ahead p = u ++ ahead p' -> between p p' = u.
Proof.
  intros E. unfold between. rewrite E, length_app.
  replace (length u + length (ahead p') - length (ahead p'))%nat
    with (length u) by lia.
  by rewrite take_app_length.
Qed.

(** [search_from] finds a match of the pattern at some position on which
    the continuation succeeds. *)
Lemma search_from_sound {A : Type} (r : regex) (b a : list N)
    (k : pos -> pos -> option A) (x : A) :
  search_from r b a k = Some x ->
  exists u v p',
    a = u ++ v
    /\ Matches r {| behind := rev u ++ b; ahead := v |} p'
    /\ k {| behind := rev u ++ b; ahead := v |} p' = Some x.
Proof.
  revert b. induction a as [|c a IH]; intros b; simpl.
  - destruct (run r _ _) as [y|] eqn:E; [|discriminate].
    intros [= ->]. apply run_sound in E as (p' & Hm & Hk).
    by exists [], [], p'.
  - destruct (run r _ _) as [y|] eqn:E.
    + intros [= ->]. apply run_sound in E as (p' & Hm & Hk).
      by exists [], (c :: a), p'.
    + intros Hs. apply IH in Hs as (u & v & p' & -> & Hm & Hk).
      exists (c :: u), v, p'. simpl. rewrite <- app_assoc. done.
Qed.

(** Where [search_from] finds nothing, no match at any position passes the
    continuation. *)
Lemma search_from_complete {A : Type} (r : regex) (b a : list N)
    (k : pos -> pos -> option A) :
  search_from r b a k = None ->
  forall u v p',
    a = u ++ v ->
    Matches r {| behind := rev u ++ b; ahead := v |} p' ->
    k {| behind := rev u ++ b; ahead := v |} p' = None.
Proof.
  revert b. induction a as [|c a IH]; intros b; simpl.
  - destruct (run r _ _) as [y|] eqn:E; [discriminate|].
    intros _ u v p' Euv Hm.
    destruct u; [|discriminate]. simpl in *. subst v.
    by eapply (run_complete _ _ _ _ E).
  - destruct (run r _ _) as [y|] eqn:E; [discriminate|].
    intros Hs u v p' Euv Hm. destruct u as [|d u]; simpl in *.
    + subst v. by eapply (run_complete _ _ _ _ E).
    + injection Euv as -> ->. rewrite <- app_assoc in *. simpl in *.
      by eapply IH.
Qed.

Lemma Matches_Seq_inv (a b : regex) (p p'' : pos) :
  Matches (Seq a b) p p'' -> exists p', Matches a p p' /\ Matches b p' p''.
Proof. intros Hm. inversion Hm; subst. eauto. Qed.

Lemma Matches_Chr_inv (f : N -> bool) (p p' : pos) :
  Matches (Chr f) p p' ->
  exists c, ahead p = c :: ahead p' /\ behind p' = c :: behind p /\ f c = true.
Proof. intros Hm. inversion Hm; subst. simpl. eauto. Qed.

Lemma Matches_Eps_inv (p p' : pos) : Matches Eps p p' -> p' = p.
Proof. intros Hm. by inversion Hm. Qed.

Lemma Matches_Alt_inv (a b : regex) (p p' : pos) :
  Matches (Alt a b) p p' -> Matches a p p' \/ Matches b p p'.
Proof. intros Hm. inversion Hm; subst; eauto. Qed.

Lemma Matches_WordB_inv (w : N -> bool) (p p' : pos) :
  Matches (WordB w) p p' ->
  p' = p
  /\ xorb (match behind p with c :: _ => w c | [] => false end)
          (match ahead p with c :: _ => w c | [] => false end) = true.
Proof. intros Hm. by inversion Hm; subst. Qed.

(** What a repetition of a class consumes lies in the class. *)
Lemma Matches_Star_Chr (g : bool) (f : N -> bool) (p p' : pos) :
  Matches (Star g (Chr f)) p p' ->
  exists u,
    ahead p = u ++ ahead p' /\ behind p' = rev u ++ behind p
    /\ Forall (fun c => f c = true) u.
Proof.
  remember (Star g (Chr f)) as r eqn:Er. intros Hm.
  induction Hm as [|p| | | |g' a p|g' a p p' p'' Ha _ Hlt _ IHs| | | |];
    try discriminate Er.
  - by exists [].
  - injection Er as -> ->.
    apply Matches_Chr_inv in Ha as (c & Ea & Eb & Hf).
    destruct (IHs eq_refl) as (u & Eu & Eu' & Hu).
    exists (c :: u). split; [|split].
    + by rewrite Ea, Eu.
    + simpl. by rewrite Eu', Eb, <- app_assoc.
    + by constructor.
Qed.

End Matcher.

(** * The miners *)
Section MinerProofs.
Import Re Miners.
Context `{UnicodeData} `{RegexData}.

(** A match of a pattern without assertions is a match in any longer
    text. *)
Lemma Matches_embed (r : regex) (p p' : pos) (pre post : list N) :
  context_free r = true ->
  Matches r p p' ->
  Matches r {| behind := behind p ++ pre; ahead := ahead p ++ post |}
            {| behind := behind p' ++ pre; ahead := ahead p' ++ post |}.
Proof.
  intros Hr Hm. revert Hr.
  induction Hm as [f c b l Hf|p|a b p p' p'' _ IHa _ IHb
                  |a b p p' _ IH|a b p p' _ IH|g a p
                  |g a p p' p'' _ IHa Hlt _ IHs
                  |a p p' _ _|l|p _|w p _];
    intros Hr; simpl in Hr; try discriminate Hr.
  - by constructor.
  - constructor.
  - apply andb_true_iff in Hr as [Ha Hb].
    eapply M_Seq; [by apply IHa|by apply IHb].
  - apply andb_true_iff in Hr as [Ha Hb]. by apply M_Alt_l, IH.
  - apply andb_true_iff in Hr as [Ha Hb]. by apply M_Alt_r, IH.
  - constructor.
  - eapply M_Star_turn; [by apply IHa| |by apply IHs].
    simpl. rewrite !length_app. lia.
Qed.

Lemma ci_W (c : N) : ci 87 c = true <-> sre_lower c = 119.
Proof.
  unfold ci. simpl. rewrite orb_false_r. apply N.eqb_eq.
Qed.

Lemma ci_O (c : N) : ci 79 c = true <-> sre_lower c = 111.
Proof.
  unfold ci. simpl. rewrite orb_false_r. apply N.eqb_eq.
Qed.

(** A match of the word WO: two code points whose lower cases are w and
    o. *)
Lemma Matches_word_WO (p p' : pos) :
  Matches (word "WO") p p' ->
  exists c1 c2,
    ahead p = c1 :: c2 :: ahead p'
    /\ behind p' = c2 :: c1 :: behind p
    /\ sre_lower c1 = 119 /\ sre_lower c2 = 111.
Proof.
  unfold word. simpl. intros Hm.
  apply Matches_Seq_inv in Hm as (q1 & H1 & Hm).
  apply Matches_Seq_inv in Hm as (q2 & H2 & Hm).
  apply Matches_Eps_inv in Hm as ->.
  apply Matches_Chr_inv in H1 as (c1 & Ea1 & Eb1 & Hc1).
  apply Matches_Chr_inv in H2 as (c2 & Ea2 & Eb2 & Hc2).
  exists c1, c2. rewrite Ea1, Ea2, Eb2, Eb1.
  repeat split; [by apply ci_W | by apply ci_O].
Qed.

(** What a match of [WO_HEAD] and of [WO_LINE] starts with. *)
Lemma Matches_WO_HEAD (p p' : pos) :
  Matches WO_HEAD p p' ->
  exists q,
    Matches (WordB is_word) p p
    /\ Matches (Seq (word "WO") (plus (Chr is_space))) p p'
    /\ Matches (word "WO") p q.
Proof.
  unfold WO_HEAD. intros Hm.
  apply Matches_Seq_inv in Hm as (q1 & H1 & Hm).
  pose proof (Matches_WordB_inv _ _ _ H1) as [-> _].
  pose proof (Matches_Seq_inv _ _ _ _ Hm) as (q2 & H2 & _).
  by exists q2.
Qed.

Lemma Matches_WO_LINE (p p' : pos) :
  Matches WO_LINE p p' ->
  exists q, Matches (WordB is_word) p p /\ Matches (word "WO") p q.
Proof.
  unfold WO_LINE. intros Hm.
  apply Matches_Seq_inv in Hm as (q1 & H1 & Hm).
  pose proof (Matches_WordB_inv _ _ _ H1) as [-> _].
  pose proof (Matches_Seq_inv _ _ _ _ Hm) as (q2 & H2 & _).
  by exists q2.
Qed.

Lemma RE_WO_ANY_sound (text g : ustring) :
  RE_WO_ANY text = Some g ->
  exists u v p1 p2,
    text = u ++ v
    /\ Matches WO_HEAD {| behind := rev u; ahead := v |} p1
    /\ Matches WO_GROUP p1 p2
    /\ g = between p1 p2.
Proof.
  unfold RE_WO_ANY, search. intros Hs.
  apply search_from_sound in Hs as (u & v & p1 & E & Hm & Hk).
  apply run_sound in Hk as (p2 & Hg & Hk). injection Hk as <-.
  rewrite app_nil_r in Hm. by exists u, v, p1, p2.
Qed.

Lemma RE_WO_ANY_complete (text : ustring) :
  RE_WO_ANY text = None ->
  forall u v p1 p2,
    text = u ++ v ->
    Matches WO_HEAD {| behind := rev u; ahead := v |} p1 ->
    Matches WO_GROUP p1 p2 ->
    False.
Proof.
  unfold RE_WO_ANY, search. intros Hs u v p1 p2 E Hm Hg.
  pose proof (search_from_complete _ _ _ _ Hs u v p1 E) as Hk.
  rewrite app_nil_r in Hk. specialize (Hk Hm).
  by pose proof (run_complete _ _ _ _ Hk _ Hg).
Qed.

Lemma wo_line_sound (text g0 : ustring) :
  wo_line text = Some g0 ->
  exists u w p',
    text = u ++ g0 ++ w
    /\ Matches WO_LINE {| behind := rev u; ahead := g0 ++ w |} p'
    /\ ahead p' = w.
Proof.
  unfold wo_line, search. intros Hs.
  apply search_from_sound in Hs as (u & v & p' & E & Hm & Hk).
  rewrite app_nil_r in Hm, Hk. injection Hk as <-.
  destruct (Matches_consume _ _ _ Hm) as (g & Eg & _). simpl in Eg.
  rewrite (between_consumed _ _ g) by done.
  exists u, (ahead p'), p'. rewrite <- Eg. done.
Qed.

(** X15. The second search of [wo_from_name] for [RE_WO_ANY], inside the
    text the fall-back pattern matched, never finds anything: where the
    pattern matches no part of the name it matches no part of a piece of
    the name that starts at a word boundary. So [wo_from_name] returns
    "WO " and the stripped group when [RE_WO_ANY] matches the name, else the
    stripped match of the fall-back pattern when there is one, else the
    empty string. *)
Theorem wo_from_name_inner_search_dead (text : ustring) :
  (forall g0, RE_WO_ANY text = None -> wo_line text = Some g0 ->
     RE_WO_ANY g0 = None)
  /\ wo_from_name text =
     if is_nil text then []
     else match RE_WO_ANY text with
          | Some g => lit "WO " ++ strip g
          | None =>
              match wo_line text with
              | Some g0 => strip g0
              | None => []
              end
          end.
Proof.
  assert (Hdead : forall g0, RE_WO_ANY text = None -> wo_line text = Some g0 ->
            RE_WO_ANY g0 = None).
  { intros g0 Hnone Hline.
    destruct (RE_WO_ANY g0) as [g|] eqn:Hin; [|reflexivity]. exfalso.
    apply wo_line_sound in Hline as (u & w & pl & Etext & Hml & _).
    apply Matches_WO_LINE in Hml as (ql & Hbl & Hwl).
    apply RE_WO_ANY_sound in Hin as (u2 & v2 & p1 & p2 & Eg0 & Hmh & Hmg & _).
    apply Matches_WO_HEAD in Hmh as (q & Hb & Hrest & Hw).
    apply (RE_WO_ANY_complete text Hnone (u ++ u2) (v2 ++ w)
             {| behind := behind p1 ++ rev u; ahead := ahead p1 ++ w |}
             {| behind := behind p2 ++ rev u; ahead := ahead p2 ++ w |}).
    - rewrite Etext, Eg0, <- !app_assoc. reflexivity.
    - unfold WO_HEAD. eapply M_Seq.
      + constructor. simpl.
        apply Matches_word_WO in Hw as (c1 & c2 & Ea & _). simpl in Ea.
        apply Matches_WordB_inv in Hb as [_ Hx]. simpl in Hx.
        rewrite rev_app_distr.
        destruct u2 as [|d u2 _] using rev_ind.
        * simpl in *. subst v2.
          apply Matches_WordB_inv in Hbl as [_ Hy].
          simpl in Hy. rewrite Ea in Hy |- *. simpl in *. exact Hy.
        * rewrite rev_app_distr in Hx |- *. simpl in *.
          rewrite Ea in Hx |- *. simpl in *. exact Hx.
      + rewrite rev_app_distr.
        apply (Matches_embed _ {| behind := rev u2; ahead := v2 |} p1 (rev u) w);
          [reflexivity|exact Hrest].
    - apply (Matches_embed _ p1 p2 (rev u) w); [reflexivity|exact Hmg]. }
  split; [exact Hdead|].
  unfold wo_from_name. destruct (is_nil text); [reflexivity|].
  destruct (RE_WO_ANY text) as [g|] eqn:E1; [reflexivity|].
  destruct (wo_line text) as [g0|] eqn:E2; [|reflexivity].
  by rewrite (Hdead g0 eq_refl eq_refl).
Qed.

Lemma wo_from_name_has_wo (text : ustring) :
  wo_from_name text <> [] ->
  exists pre c1 c2 post,
    text = pre ++ c1 :: c2 :: post
    /\ sre_lower c1 = 119 /\ sre_lower c2 = 111.
Proof.
  unfold wo_from_name. destruct (is_nil text); [done|].
  destruct (RE_WO_ANY text) as [g|] eqn:E1.
  - intros _.
    apply RE_WO_ANY_sound in E1 as (u & v & p1 & p2 & Etext & Hmh & _).
    apply Matches_WO_HEAD in Hmh as (q & _ & _ & Hw).
    apply Matches_word_WO in Hw as (c1 & c2 & Ea & _ & H1 & H2). simpl in Ea.
    exists u, c1, c2, (ahead q). by rewrite Etext, Ea.
  - destruct (wo_line text) as [g0|] eqn:E2; [|done]. intros _.
    apply wo_line_sound in E2 as (u & w & pl & Etext & Hml & _).
    apply Matches_WO_LINE in Hml as (q & _ & Hw).
    apply Matches_word_WO in Hw as (c1 & c2 & Ea & _ & H1 & H2). simpl in Ea.
    exists u, c1, c2, (ahead q). by rewrite Etext, Ea.
Qed.

(** X16. A name from which [wo_from_name] mines something holds, next to
    each other, a code point whose lower case is w and one whose lower case
    is o; a name without WO, in any case, gives the empty string. *)
Theorem wo_from_name_needs_wo (text : ustring) :
  wo_from_name text <> [] ->
  exists pre c1 c2 post,
    text = pre ++ c1 :: c2 :: post
    /\ sre_lower c1 = 119 /\ sre_lower c2 = 111.
Proof. apply wo_from_name_has_wo. Qed.

(** A text that reaches the fall-back pattern, and the cases of the
    letters: RE_WO_ANY wants white space after WO. *)
Example wo_from_name_samples :
  @wo_from_name Excerpt.data data (lit "Fix pump wo 12 - 3 HIGH") = lit "WO 12 - 3"
  /\ @RE_WO_ANY Excerpt.data data (lit "WO-123 HIGH") = None
  /\ @wo_line Excerpt.data data (lit "WO-123 HIGH") = Some (lit "WO-123")
  /\ @wo_from_name Excerpt.data data (lit "WO-123 HIGH") = lit "WO-123"
  /\ @wo_from_name Excerpt.data data (lit "wo#5") = lit "wo#5"
  /\ @wo_from_name Excerpt.data data (lit "Two pumps") = []
  /\ @wo_from_name Excerpt.data data [] = [].
Proof. repeat split; vm_compute; reflexivity. Qed.

(** ** The client miner *)

Lemma sub_from_Forall (P : N -> Prop) (r : regex) (repl : ustring)
    (b a : list N) (skip : nat) :
  Forall P repl -> Forall P a -> Forall P (sub_from r repl b a skip).
Proof.
  intros Hrepl Ha. revert b skip.
  induction Ha as [|c a Hc Ha IH]; intros b skip; simpl; [constructor|].
  destruct skip as [|n]; [|apply IH].
  destruct (run r _ _) as [[|n]|].
  - constructor; [done|apply IH].
  - apply Forall_app. split; [done|apply IH].
  - constructor; [done|apply IH].
Qed.

Lemma split_first_prefix (r : regex) (text : ustring) :
  exists rest, text = split_first r text ++ rest.
Proof.
  unfold split_first, search.
  destruct (search_from r [] text _) as [s|] eqn:Hs.
  - apply search_from_sound in Hs as (u & v & p' & E & _ & Hk).
    injection Hk as <-. simpl. rewrite app_nil_r, rev_involutive.
    by exists v.
  - exists []. by rewrite app_nil_r.
Qed.

Lemma search_client_sound (head : regex) (blob g : ustring) :
  search_client head blob = Some g ->
  exists u v p1 p2,
    blob = u ++ v
    /\ Matches head {| behind := rev u; ahead := v |} p1
    /\ Matches CLIENT_GROUP p1 p2
    /\ g = between p1 p2.
Proof.
  unfold search_client, search. intros Hs.
  apply search_from_sound in Hs as (u & v & p1 & E & Hm & Hk).
  apply run_sound in Hk as (p2 & Hg & Hk). injection Hk as <-.
  rewrite app_nil_r in Hm. by exists u, v, p1, p2.
Qed.

Lemma Matches_CLIENT_GROUP (p p' : pos) :
  Matches CLIENT_GROUP p p' ->
  Forall (fun c => none_of [13; 10] c = true) (between p p').
Proof.
  unfold CLIENT_GROUP, plus. intros Hm.
  apply Matches_Seq_inv in Hm as (q & H1 & H2).
  apply Matches_Chr_inv in H1 as (c & Ea & _ & Hc).
  apply Matches_Star_Chr in H2 as (u & Eu & _ & Hu).
  rewrite (between_consumed p p' (c :: u)) by (by rewrite Ea, Eu).
  by constructor.
Qed.

Lemma ci_lower (ch c : N) :
  in_ascii 97 122 ch = true -> ignorecase_fixes ch = [] ->
  ci ch c = true -> sre_lower c = ch.
Proof.
  intros Hch Hfix. unfold ci. rewrite Hch, orb_true_r.
  assert (El : lower_ascii ch = ch).
  { unfold lower_ascii. unfold in_ascii in Hch.
    apply andb_true_iff in Hch as [Hlo _]. apply N.leb_le in Hlo.
    destruct (N.leb_spec 65 ch); [|done].
    destruct (N.leb_spec ch 90); [lia|done]. }
  rewrite El, Hfix. simpl. rewrite orb_false_r. apply N.eqb_eq.
Qed.

(** A match of the label pattern starts with the six letters of "client",
    in any case. *)
Lemma Matches_CLIENT_LABEL (p p' : pos) :
  Matches CLIENT_LABEL p p' ->
  exists c l i e n t rest,
    ahead p = c :: l :: i :: e :: n :: t :: rest
    /\ sre_lower c = 99 /\ sre_lower l = 108
    /\ (sre_lower i = 105 \/ sre_lower i = 0x131)
    /\ sre_lower e = 101 /\ sre_lower n = 110 /\ sre_lower t = 116.
Proof.
  unfold CLIENT_LABEL. intros Hm.
  apply Matches_Seq_inv in Hm as (q & Hw & _).
  assert (Hsix : exists q', Matches (word "client") p q').
  { apply Matches_Alt_inv in Hw as [Hw | Hw]; [by exists q|].
    unfold word in Hw |- *. simpl in Hw |- *.
    repeat (apply Matches_Seq_inv in Hw as (? & ? & Hw)).
    eexists. repeat (eapply M_Seq; [eassumption|]). constructor. }
  destruct Hsix as (q' & Hsix). unfold word in Hsix. simpl in Hsix.
  apply Matches_Seq_inv in Hsix as (q1 & H1 & Hsix).
  apply Matches_Seq_inv in Hsix as (q2 & H2 & Hsix).
  apply Matches_Seq_inv in Hsix as (q3 & H3 & Hsix).
  apply Matches_Seq_inv in Hsix as (q4 & H4 & Hsix).
  apply Matches_Seq_inv in Hsix as (q5 & H5 & Hsix).
  apply Matches_Seq_inv in Hsix as (q6 & H6 & Hsix).
  apply Matches_Chr_inv in H1 as (c & E1 & _ & Hc).
  apply Matches_Chr_inv in H2 as (l & E2 & _ & Hl).
  apply Matches_Chr_inv in H3 as (i & E3 & _ & Hi).
  apply Matches_Chr_inv in H4 as (e & E4 & _ & He).
  apply Matches_Chr_inv in H5 as (n & E5 & _ & Hn).
  apply Matches_Chr_inv in H6 as (t & E6 & _ & Ht).
  exists c, l, i, e, n, t, (ahead q6).
  rewrite E1, E2, E3, E4, E5, E6.
  split; [done|].
  split; [by apply ci_lower in Hc|].
  split; [by apply ci_lower in Hl|].
  split.
  { unfold ci in Hi. simpl in Hi. rewrite orb_false_r in Hi.
    apply orb_true_iff in Hi as [Hi | Hi]; apply N.eqb_eq in Hi; [by left|by right]. }
  split; [by apply ci_lower in He|].
  split; [by apply ci_lower in Hn|by apply ci_lower in Ht].
Qed.

Lemma parse_client_shape (name notes : ustring) :
  let val := parse_client_from_text name notes in
  Forall (fun c => c <> 13 /\ c <> 10) val
  /\ (forall c, head val = Some c -> one_of (lit " -:;|") c = false)
  /\ (forall c, last val = Some c -> one_of (lit " -:;|") c = false)
  /\ (val <> [] ->
      exists pre c l i e n t post,
        name ++ 10 :: notes = pre ++ c :: l :: i :: e :: n :: t :: post
        /\ sre_lower c = 99 /\ sre_lower l = 108
        /\ (sre_lower i = 105 \/ sre_lower i = 0x131)
        /\ sre_lower e = 101 /\ sre_lower n = 110 /\ sre_lower t = 116).
Proof.
  intros val. subst val. unfold parse_client_from_text.
  set (blob := name ++ 10 :: notes).
  set (m := match search_client (Seq LINE_START CLIENT_LABEL) blob with
            | Some g => Some g
            | None => search_client CLIENT_LABEL blob
            end).
  assert (Hm : forall g, m = Some g ->
            Forall (fun c => none_of [13; 10] c = true) g
            /\ exists pre c l i e n t post,
                 blob = pre ++ c :: l :: i :: e :: n :: t :: post
                 /\ sre_lower c = 99 /\ sre_lower l = 108
                 /\ (sre_lower i = 105 \/ sre_lower i = 0x131)
                 /\ sre_lower e = 101 /\ sre_lower n = 110 /\ sre_lower t = 116).
  { intros g. subst m.
    destruct (search_client (Seq LINE_START CLIENT_LABEL) blob) as [g1|] eqn:E1.
    - intros [= <-].
      apply search_client_sound in E1 as (u & v & p1 & p2 & Eb & Hh & Hg & ->).
      split; [by apply Matches_CLIENT_GROUP|].
      apply Matches_Seq_inv in Hh as (q & Hs & Hl).
      destruct (Matches_consume _ _ _ Hs) as (w & Ew & _). simpl in Ew.
      apply Matches_CLIENT_LABEL in Hl as (c & l & i & e & n & t & rest & Ea & Hc).
      exists (u ++ w), c, l, i, e, n, t, rest. split; [|exact Hc].
      by rewrite Eb, Ew, Ea, <- app_assoc.
    - intros E2.
      apply search_client_sound in E2 as (u & v & p1 & p2 & Eb & Hl & Hg & ->).
      split; [by apply Matches_CLIENT_GROUP|].
      apply Matches_CLIENT_LABEL in Hl as (c & l & i & e & n & t & rest & Ea & Hc).
      simpl in Ea. exists u, c, l, i, e, n, t, rest. split; [|exact Hc].
      by rewrite Eb, Ea. }
  destruct m as [g|]; [|by repeat split; [constructor|..]].
  destruct (Hm g eq_refl) as [Hg Hlabel].
  set (P := fun c : N => c <> 13 /\ c <> 10).
  assert (HgP : Forall P g).
  { eapply Forall_impl; [exact Hg|]. intros c Hc. unfold none_of in Hc.
    simpl in Hc. rewrite orb_false_r in Hc.
    apply negb_true_iff, orb_false_iff in Hc as [H13 H10].
    apply N.eqb_neq in H13, H10. by split. }
  split; [|split; [|split]].
  - unfold strip_chars. apply strip_by_Forall.
    destruct (split_first_prefix KEYWORD_CUT
                (sub (two_or_more (Chr is_space)) (lit " ") (strip g)))
      as [rest Erest].
    assert (Hsub : Forall P (sub (two_or_more (Chr is_space)) (lit " ") (strip g))).
    { unfold sub. apply sub_from_Forall.
      - apply List.Forall_cons; [by split|apply List.Forall_nil].
      - by apply strip_by_Forall. }
    rewrite Erest in Hsub. by apply Forall_app in Hsub as [Hsub _].
  - unfold strip_chars.
    match goal with
    | |- context [strip_by ?f ?s] =>
        destruct (strip_by_spec f s) as (_ & _ & _ & _ & _ & Hh & _)
    end.
    intros c Hc. apply Hh in Hc. exact Hc.
  - unfold strip_chars.
    match goal with
    | |- context [strip_by ?f ?s] =>
        destruct (strip_by_spec f s) as (_ & _ & _ & _ & _ & _ & Ht)
    end.
    intros c Hc. apply Ht in Hc. exact Hc.
  - intros _. exact Hlabel.
Qed.

(** X17. What [parse_client_from_text] returns never holds a carriage
    return or a line feed, and neither starts nor ends with a blank, a
    hyphen, a colon, a semicolon or a bar. It is empty unless the name, a
    line feed and the notes hold the six letters of "client" next to each
    other, in any case. *)
Theorem parse_client_from_text_shape (name notes : ustring) :
  let val := parse_client_from_text name notes in
  Forall (fun c => c <> 13 /\ c <> 10) val
  /\ (forall c, head val = Some c -> one_of (lit " -:;|") c = false)
  /\ (forall c, last val = Some c -> one_of (lit " -:;|") c = false)
  /\ (val <> [] ->
      exists pre c l i e n t post,
        name ++ 10 :: notes = pre ++ c :: l :: i :: e :: n :: t :: post
        /\ sre_lower c = 99 /\ sre_lower l = 108
        /\ (sre_lower i = 105 \/ sre_lower i = 0x131)
        /\ sre_lower e = 101 /\ sre_lower n = 110 /\ sre_lower t = 116).
Proof. apply parse_client_shape. Qed.

(** The client miner on sample texts: the label may stand anywhere in a
    line, the value ends at the line break or before a key word, and runs of
    white space in it become one blank. *)
Example parse_client_from_text_samples :
  @parse_client_from_text Excerpt.data data (lit "WO 12") (lit "Client: Acme  Corp PRIORITY High")
  = lit "Acme Corp"
  /\ @parse_client_from_text Excerpt.data data (lit "Pump - cliente - Foo |") [] = lit "Foo"
  /\ @parse_client_from_text Excerpt.data data (lit "subclient: X") [] = lit "X"
  /\ @parse_client_from_text Excerpt.data data (lit "Client Acme") [] = []
  /\ @parse_client_from_text Excerpt.data data [] [] = [].
Proof. repeat split; vm_compute; reflexivity. Qed.

End MinerProofs.

Lemma wo_from_name_needs_wo_witness :
  @Miners.wo_from_name Excerpt.data Miners.data (lit "Fix wo 12") <> []
  /\ exists pre c1 c2 post,
       lit "Fix wo 12" = pre ++ c1 :: c2 :: post
       /\ Miners.lower_simple c1 = 119 /\ Miners.lower_simple c2 = 111.
Proof.
  assert (Hne : @Miners.wo_from_name Excerpt.data Miners.data (lit "Fix wo 12") <> [])
    by (vm_compute; discriminate).
  split; [exact Hne|].
  exact (@wo_from_name_needs_wo Excerpt.data Miners.data (lit "Fix wo 12") Hne).
Defined.


(** * Rows of clients without a fee *)

(** Multiplying a binary64 number by one gives the number. *)
Lemma mul_one_finite (sx : bool) (mx : positive) (ex : Z) :
  bounded prec emax mx ex = true ->
  binary_round_aux prec emax sx (Zpos (mx * 4503599627370496)) (ex + -52)
    loc_Exact
  = S754_finite sx mx ex.
Proof.
  unfold bounded, canonical_mantissa. rewrite andb_true_iff.
  intros [Hc He]. apply Z.eqb_eq in Hc. apply Z.leb_le in He.
  rewrite Pos.mul_comm.
  cbv beta iota fix delta [Pos.mul].
  unfold binary_round_aux, shr_fexp.
  cbn [Zdigits2 digits2_pos shr_record_of_loc].
  set (d := digits2_pos mx) in *.
  match goal with
  | |- context [fexp prec emax (Zpos ?p + (ex + -52))] =>
      replace (Zpos p + (ex + -52))%Z with (Zpos d + ex)%Z by lia
  end.
  rewrite Hc.
  replace (ex - (ex + -52))%Z with 52%Z by lia.
  cbn [shr SpecFloat.iter_pos shr_1 orb].
  cbn [shr_m loc_of_shr_record round_nearest_even].
  replace (ex + -52 + 52)%Z with ex by lia.
  cbn [Zdigits2]. fold d. rewrite Hc, Z.sub_diag.
  cbn [shr shr_m].
  by rewrite (proj2 (Z.leb_le _ _) He).
Qed.

Lemma SFmul_one (s : spec_float) :
  valid_binary s = true ->
  SFmul prec emax s (S754_finite false 4503599627370496 (-52)) = s.
Proof.
  destruct s as [b|b| |b m e]; simpl; intros Hv.
  - by rewrite xorb_false_r.
  - by rewrite xorb_false_r.
  - done.
  - rewrite xorb_false_r. by apply mul_one_finite.
Qed.

Lemma mul_one (x : float) : (x * 1)%float = x.
Proof.
  apply Prim2SF_inj. rewrite mul_spec.
  change (Prim2SF 1) with (S754_finite false 4503599627370496 (-52)).
  apply SFmul_one, Prim2SF_valid.
Qed.

Section NoFee.
Context `{UnicodeData}.
Variable dateutil_parse : bool -> list N -> option date.
Variable parse_client_from_text : list N -> list N -> list N.
Variable wo_from_name : list N -> list N.

(** X18. A row whose client has no entry in the fee table keeps its
    approved value: the net approved value is the approved value itself, bit
    for bit (also when that is infinite or not a number), and the profit is
    the approved value minus the total cost. *)
Theorem no_fee_keeps_value (pgid pname project_zone ttype : ustring)
    (cutoff_date : option date)
    (fees_map : gmap (list N) (gmap (list N) float)) (t : task) (r : row) :
  task_row dateutil_parse parse_client_from_text wo_from_name
    pgid pname project_zone ttype cutoff_date fees_map t = Some r ->
  fees_map !! upper (Client r) = None ->
  Valor_Aprobado_Real r = Approved_Value r
  /\ Utilidad_USD r = (Approved_Value r - Gastos_Total r)%float.
Proof.
  intros Hr Hc. apply task_row_Some in Hr. subst r.
  cbn [Client make_row] in Hc.
  cbn [Valor_Aprobado_Real Approved_Value Utilidad_USD Gastos_Total make_row].
  unfold get_fee_pct. rewrite Hc.
  change (1 - 0)%float with 1%float. by rewrite mul_one.
Qed.

End NoFee.

Lemma no_fee_keeps_value_witness :
  let t := Sample.refund_task in
  let r := Sample.refund_row in
  @task_row Excerpt.data Sample.known_dates Sample.no_client Sample.no_wo
    (p_gid Sample.north) (p_name Sample.north) (lit "(WO)") (lit "WO") None
    Sample.acme_fees t = Some r
  /\ Sample.acme_fees !! @upper Excerpt.data (Client r) = None
  /\ Valor_Aprobado_Real r = Approved_Value r
  /\ Utilidad_USD r = (Approved_Value r - Gastos_Total r)%float.
Proof.
  intros t r.
  assert (Hr : @task_row Excerpt.data Sample.known_dates Sample.no_client
                 Sample.no_wo (p_gid Sample.north) (p_name Sample.north)
                 (lit "(WO)") (lit "WO") None Sample.acme_fees t = Some r)
    by (vm_compute; reflexivity).
  assert (Hc : Sample.acme_fees !! @upper Excerpt.data (Client r) = None)
    by (vm_compute; reflexivity).
  split; [exact Hr|]. split; [exact Hc|].
  exact (@no_fee_keeps_value Excerpt.data Sample.known_dates Sample.no_client
           Sample.no_wo (p_gid Sample.north) (p_name Sample.north)
           (lit "(WO)") (lit "WO") None Sample.acme_fees t r Hr Hc).
Defined.

(** * The loop body with the two miners *)
Section MinedColumns.
Context `{UnicodeData} `{Re.RegexData}.
Variable dateutil_parse : bool -> list N -> option date.

(** X19. The row of a task that has no custom field for the client and
    none for the order number takes both from the text of the task: the
    client is what [parse_client_from_text] mines from the name and the
    notes, so it holds no line break; the order number is what
    [wo_from_name] mines from the name, stripped, so it is empty unless WO
    stands in the name, in any case. *)
Theorem mined_columns (pgid pname project_zone ttype : ustring)
    (cutoff_date : option date)
    (fees_map : gmap (list N) (gmap (list N) float)) (t : task) (r : row) :
  task_row dateutil_parse Miners.parse_client_from_text Miners.wo_from_name
    pgid pname project_zone ttype cutoff_date fees_map t = Some r ->
  absent k_client t -> absent k_wo_number t ->
  Client r = Miners.parse_client_from_text (or_empty (t_name t)) (or_empty (t_notes t))
  /\ Forall (fun c => c <> 13 /\ c <> 10) (Client r)
  /\ Num_de_orden r = strip (Miners.wo_from_name (or_empty (t_name t)))
  /\ (Num_de_orden r <> [] ->
      exists pre c1 c2 post,
        or_empty (t_name t) = pre ++ c1 :: c2 :: post
        /\ Re.sre_lower c1 = 119 /\ Re.sre_lower c2 = 111).
Proof.
  intros Hr Hc Hw. apply task_row_Some in Hr. subst r.
  cbn [Client Num_de_orden make_row].
  set (name := or_empty (t_name t)). set (notes := or_empty (t_notes t)).
  assert (Ec : client (extract_fields Miners.wo_from_name t) = []).
  { assert (E := extract_fields_absent Miners.wo_from_name k_client t
                   ltac:(done) Hc).
    by injection E. }
  assert (Ew : wo_number (extract_fields Miners.wo_from_name t)
               = Miners.wo_from_name name).
  { unfold extract_fields.
    assert (E := fold_extract_absent k_wo_number (t_custom_fields t)
                   initial_fields Hw).
    injection E as E. rewrite E. reflexivity. }
  assert (Eclient : client (task_fields Miners.parse_client_from_text
                              Miners.wo_from_name project_zone t)
                    = Miners.parse_client_from_text name notes).
  { unfold task_fields. fold name notes.
    destruct (is_nil (zone _)); cbn [client set_zone]; rewrite Ec;
      cbn [is_nil];
      destruct (Miners.parse_client_from_text name notes) eqn:Ep;
      cbn [is_nil client set_client set_zone]; by rewrite ?Ec. }
  assert (Ewo : wo_number (task_fields Miners.parse_client_from_text
                             Miners.wo_from_name project_zone t)
                = Miners.wo_from_name name).
  { assert (E := task_fields_other Miners.parse_client_from_text
                   Miners.wo_from_name k_wo_number project_zone t
                   ltac:(done) ltac:(done)).
    injection E as E. by rewrite E. }
  rewrite Eclient, Ewo.
  destruct (parse_client_shape name notes) as (Hshape & _).
  split; [reflexivity|]. split; [exact Hshape|]. split; [reflexivity|].
  intros Hne. apply wo_from_name_has_wo.
  intros E. apply Hne. rewrite E. reflexivity.
Qed.

End MinedColumns.

Lemma mined_columns_witness :
  exists r,
    @task_row Excerpt.data Sample.known_dates
      (@Miners.parse_client_from_text Excerpt.data Miners.data)
      (@Miners.wo_from_name Excerpt.data Miners.data)
      (lit "1") (p_name Sample.north) (lit "(WO)") (lit "WO") None
      Sample.acme_fees mined_task = Some r
    /\ Client r = lit "Beta Corp"
    /\ Num_de_orden r = lit "WO 77"
    /\ Forall (fun c => c <> 13 /\ c <> 10) (Client r).
Proof.
  destruct (@task_row Excerpt.data Sample.known_dates
              (@Miners.parse_client_from_text Excerpt.data Miners.data)
              (@Miners.wo_from_name Excerpt.data Miners.data)
              (lit "1") (p_name Sample.north) (lit "(WO)") (lit "WO") None
              Sample.acme_fees mined_task) as [r|] eqn:Hr;
    [|vm_compute in Hr; discriminate Hr].
  exists r. split; [reflexivity|].
  destruct (@mined_columns Excerpt.data Miners.data Sample.known_dates
              (lit "1") (p_name Sample.north) (lit "(WO)") (lit "WO") None
              Sample.acme_fees mined_task r Hr
              ltac:(constructor) ltac:(constructor))
    as (Hc & Hf & Hn & _).
  split; [rewrite Hc; vm_compute; reflexivity|].
  split; [rewrite Hn; vm_compute; reflexivity|].
  exact Hf.
Defined.

(** * The strict reading of a date *)
Section StrictDate.
Context `{UnicodeData}.
Hypothesis Hdigits : reads_ascii_digits.

Lemma to_decimal_digit (k : N) : k < 10 -> to_decimal (48 + k) = Some k.
Proof.
  intros Hk. rewrite Hdigits by lia. f_equal. lia.
Qed.

Lemma match_month_two_digits (m : N) (rest : ustring) :
  1 <= m <= 12 -> match_month (two_digits m ++ rest) = Some (m, rest).
Proof.
  intros Hm.
  assert (Hcases : m = 1 \/ m = 2 \/ m = 3 \/ m = 4 \/ m = 5 \/ m = 6 \/ m = 7
                   \/ m = 8 \/ m = 9 \/ m = 10 \/ m = 11 \/ m = 12) by lia.
  repeat (destruct Hcases as [-> | Hcases]; [reflexivity|]).
  by subst m.
Qed.

Lemma match_day_two_digits (d : N) (rest : ustring) :
  1 <= d <= 31 -> match_day (two_digits d ++ rest) = Some (d, rest).
Proof.
  intros Hd.
  assert (E : two_digits d = [48 + d / 10; 48 + d mod 10]).
  { unfold two_digits. rewrite (N.mod_small (d / 10) 10); [done|].
    apply N.Div0.div_lt_upper_bound. lia. }
  rewrite E.
  assert (Hlt : d / 10 < 4) by (apply N.Div0.div_lt_upper_bound; lia).
  assert (Hr : d mod 10 < 10) by (apply N.mod_lt; lia).
  pose proof (N.div_mod d 10 ltac:(lia)) as Ed.
  revert E Hlt Hr Ed. generalize (d / 10) (d mod 10). intros q r E Hlt Hr Ed.
  clear E.
  assert (Hq : q = 0 \/ q = 1 \/ q = 2 \/ q = 3) by lia.
  destruct Hq as [-> | [-> | [-> | ->]]].
  - (* 01 .. 09 *)
    assert (Hu : 1 <= r) by lia.
    unfold match_day. simpl.
    assert (Ev : in_ascii 49 57 (48 + r) = true).
    { unfold in_ascii. apply andb_true_iff. split; apply N.leb_le; lia. }
    rewrite Ev. simpl. f_equal. f_equal. lia.
  - (* 10 .. 19 *)
    unfold match_day. simpl. rewrite to_decimal_digit by done.
    f_equal. f_equal. lia.
  - (* 20 .. 29 *)
    unfold match_day. simpl. rewrite to_decimal_digit by done.
    f_equal. f_equal. lia.
  - (* 30, 31 *)
    assert (Hu : r = 0 \/ r = 1) by lia.
    destruct Hu as [-> | ->].
    + replace d with 30 by lia. reflexivity.
    + replace d with 31 by lia. reflexivity.
Qed.

Lemma strptime_isoformat (d : date) :
  make_date (year d) (month d) (day d) = Some d ->
  strptime_Ymd (isoformat d) = Some d.
Proof.
  intros Hd. pose proof (make_date_in_calendar _ _ _ _ Hd) as (Hy & Hm & Hdd).
  unfold isoformat.
  destruct (four_digits_spec (year d) ltac:(lia))
    as (a & b & c & e & -> & Ha & Hb & Hc & He & Ey).
  unfold strptime_Ymd. cbn [app].
  rewrite !to_decimal_digit by done.
  change (hyphen =? hyphen) with true. cbv iota.
  rewrite match_month_two_digits by lia.
  change (hyphen =? hyphen) with true. cbv iota.
  rewrite <- (app_nil_r (two_digits (day d))).
  rewrite match_day_two_digits by lia.
  by rewrite <- Ey.
Qed.

Lemma isoformat_digits (d : date) :
  in_calendar d -> Forall (fun c => c = 45 \/ 48 <= c <= 57) (isoformat d).
Proof.
  intros (Hy & Hm & Hd). unfold isoformat.
  destruct (four_digits_spec (year d) ltac:(lia))
    as (a & b & c & e & -> & Ha & Hb & Hc & He & _).
  destruct (two_digits_spec (month d) ltac:(lia)) as (m1 & m2 & -> & ? & ? & _).
  destruct (two_digits_spec (day d) ltac:(lia)) as (d1 & d2 & -> & ? & ? & _).
  simpl. repeat (apply List.Forall_cons; [first [by left | right; lia]|]).
  apply List.Forall_nil.
Qed.

Lemma before_first_app (c : N) (s rest : ustring) :
  ~ In c s -> before_first c (s ++ c :: rest) = s.
Proof.
  induction s as [|x s IH]; simpl; intros Hn.
  - by rewrite N.eqb_refl.
  - destruct (N.eqb_spec x c) as [->|Hne]; [tauto|]. f_equal. apply IH. tauto.
Qed.

Variable dateutil_parse : bool -> list N -> option date.

(** X20. The strict reading of the formatter takes back every date of the
    calendar written YYYY-MM-DD. So, for a date from the year 1000 on, a
    time stamp that starts with the date, followed by the letter T and
    anything, is formatted as that date written MM/DD/YYYY, whether the
    permissive parser reads the same date from it or fails; and so is the
    date alone. *)
Theorem strict_reading_round_trip (d : date) :
  make_date (year d) (month d) (day d) = Some d ->
  strptime_Ymd (isoformat d) = Some d
  /\ (1000 <= year d ->
      (forall rest,
         let val := isoformat d ++ letter_T :: rest in
         (forall dt, dateutil_parse true val = Some dt -> dt = d) ->
         _fmt_mmddyyyy dateutil_parse val = strftime_mdY d)
      /\ ((forall dt, dateutil_parse true (isoformat d) = Some dt -> dt = d) ->
          _fmt_mmddyyyy dateutil_parse (isoformat d) = strftime_mdY d)
      /\ is_mmddyyyy d (strftime_mdY d)).
Proof.
  intros Hd. pose proof (strptime_isoformat d Hd) as Hs.
  pose proof (make_date_in_calendar _ _ _ _ Hd) as Hcal.
  pose proof (isoformat_digits d Hcal) as Hiso.
  assert (HnT : ~ In letter_T (isoformat d)).
  { intros Hin. apply (proj1 (List.Forall_forall _ _) Hiso) in Hin.
    unfold letter_T in Hin. lia. }
  assert (Hne : is_nil (isoformat d) = false).
  { unfold isoformat, four_digits, two_digits. reflexivity. }
  split; [exact Hs|]. intros _. split; [|split].
  - intros rest val Hp. unfold _fmt_mmddyyyy.
    assert (Hv : is_nil val = false).
    { subst val. destruct (isoformat d); [discriminate Hne|reflexivity]. }
    rewrite Hv.
    destruct (dateutil_parse true val) as [dt|]; [by rewrite (Hp dt eq_refl)|].
    assert (Hc : contains [letter_T] val = true).
    { apply contains_spec. by exists (isoformat d), rest. }
    rewrite Hc. subst val. rewrite before_first_app by done. by rewrite Hs.
  - intros Hp. unfold _fmt_mmddyyyy. rewrite Hne.
    destruct (dateutil_parse true (isoformat d)) as [dt|];
      [by rewrite (Hp dt eq_refl)|].
    assert (Hc : contains [letter_T] (isoformat d) = false).
    { apply contains_false. intros (pre & suf & E). apply HnT.
      rewrite E. apply in_or_app. right. by left. }
    by rewrite Hc, Hs.
  - by apply strftime_mdY_format.
Qed.

End StrictDate.

Lemma excerpt_reads_ascii_digits : @reads_ascii_digits Excerpt.data.
Proof.
  intros c Hc. simpl. unfold Excerpt.decimal, Excerpt.in_range.
  destruct (N.leb_spec 48 c); [|lia]. destruct (N.leb_spec c 57); [|lia].
  reflexivity.
Qed.

Lemma strict_reading_round_trip_witness :
  let d := Date 2024 3 15 in
  make_date (year d) (month d) (day d) = Some d
  /\ isoformat d = lit "2024-03-15"
  /\ @strptime_Ymd Excerpt.data (lit "2024-03-15") = Some d
  /\ @_fmt_mmddyyyy Excerpt.data Sample.known_dates (lit "2024-03-15T10:00:00")
     = lit "03/15/2024".
Proof.
  intros d.
  assert (Hd : make_date (year d) (month d) (day d) = Some d) by reflexivity.
  destruct (@strict_reading_round_trip Excerpt.data excerpt_reads_ascii_digits
              Sample.known_dates d Hd) as (Hs & Hy).
  destruct (Hy ltac:(simpl; lia)) as (Hf & _ & _).
  split; [exact Hd|]. split; [reflexivity|]. split; [exact Hs|].
  refine (Hf (lit "10:00:00") _).
  intros dt Hdt. vm_compute in Hdt. discriminate Hdt.
Defined.
